(** * Assetto Corsa telemetry dashboard: wire protocol and session state

    A shallow embedding of the telemetry/control core of the dashboard:

    - [dashboard/telemetry_parser.py]  (class [TelemetryParser]),
    - [dashboard/main.py]              (class [ACTelemetryDashboard]: the
                                        receive loop and the snapshot merge),
    - [dashboard/controls/vehicle_controls.py] (class [VehicleControls]).

    Python objects are modelled as follows.  [bytes] is [list byte]; a Python
    [int] is a [Z]; a Python [float] is an IEEE-754 binary64 number, given by
    the Standard Library's executable [spec_float] at precision 53, which has
    a single NaN: the sign and the fraction of a NaN, which only
    [struct.pack] reads, are given beside the value where it is packed; a
    [str] is its list of code points; a [dict] with string keys is a
    [gmap string].
    Exceptions are [None] results of the operation that raises, and every
    [try]/[except] of the source is a [match] on that result. *)

From Stdlib Require Import SpecFloat Strings.Byte.
From stdpp Require Import gmap strings list fin_maps.

Local Open Scope Z_scope.

(** ** Bytes and slices *)

Abbreviation bytes := (list Byte.byte).

Definition byte_val (b : Byte.byte) : Z := Z.of_N (Byte.to_N b).

Definition byte_of_Z (z : Z) : Byte.byte :=
  default Byte.x00 (Byte.of_N (Z.to_N (z mod 256))).

(** [data[lo:hi]] for [0 <= lo <= hi]: Python clamps a slice to the object. *)
Definition slice (lo hi : nat) (data : bytes) : bytes :=
  take (hi - lo)%nat (drop lo data).

(** ** IEEE-754 numbers

    [float] of Python is binary64; the ['f'] format of [struct] is binary32.
    All binary64 values below are kept canonical for precision 53, which
    [SFcompare] relies on. *)

Module F64.
Definition prec : Z := 53.
Definition emax : Z := 1024.

Definition mul : spec_float -> spec_float -> spec_float := SFmul prec emax.
Definition add : spec_float -> spec_float -> spec_float := SFadd prec emax.
Definition sub : spec_float -> spec_float -> spec_float := SFsub prec emax.
Definition div : spec_float -> spec_float -> spec_float := SFdiv prec emax.
Definition abs : spec_float -> spec_float := SFabs.
Definition ltb : spec_float -> spec_float -> bool := SFltb.
Definition gtb (x y : spec_float) : bool := SFltb y x.

(** [float(i)] for an integer that is in range: the nearest binary64. *)
Definition of_Z (i : Z) : spec_float := binary_normalize prec emax i 0 false.

(** A decimal literal [num/den] of the source text: the binary64 nearest to
    it, which the correctly rounded quotient of the two exact integers is. *)
Definition literal (num den : Z) : spec_float := div (of_Z num) (of_Z den).

Definition is_finite (x : spec_float) : bool :=
  match x with
  | S754_zero _ | S754_finite _ _ _ => true
  | S754_infinity _ | S754_nan => false
  end.

(** [m * 2^e] as a fraction [n / 2^k] with an integer numerator. *)
Definition scaled (s : bool) (m : positive) (e : Z) : Z * Z :=
  let n := cond_Zopp s (Z.pos m) in
  if 0 <=? e then (n * 2 ^ e, 0) else (n, - e).

(** [i > x] and [i < x] for an [int] and a [float]: CPython compares the
    two exactly, without rounding the integer. *)
Definition int_gt (i : Z) (x : spec_float) : bool :=
  match x with
  | S754_nan => false
  | S754_infinity s => s
  | S754_zero _ => 0 <? i
  | S754_finite s m e => let '(n, k) := scaled s m e in n <? i * 2 ^ k
  end.

Definition int_lt (i : Z) (x : spec_float) : bool :=
  match x with
  | S754_nan => false
  | S754_infinity s => negb s
  | S754_zero _ => i <? 0
  | S754_finite s m e => let '(n, k) := scaled s m e in i * 2 ^ k <? n
  end.

(** [int(x)]: truncation towards zero; [ValueError] on a NaN and
    [OverflowError] on an infinity. *)
Definition to_int (x : spec_float) : option Z :=
  match x with
  | S754_nan | S754_infinity _ => None
  | S754_zero _ => Some 0
  | S754_finite s m e =>
      Some (cond_Zopp s (if 0 <=? e then Z.pos m * 2 ^ e
                         else Z.pos m / 2 ^ (- e)))
  end.
End F64.

Module F32.
Definition prec : Z := 24.
Definition emax : Z := 128.

(** The number a 32-bit pattern stands for, canonical for precision 24. *)
Definition of_bits (w : Z) : spec_float :=
  let s := Z.testbit w 31 in
  let ex := Z.land (Z.shiftr w 23) 255 in
  let fr := Z.land w (2 ^ 23 - 1) in
  if ex =? 255 then (if fr =? 0 then S754_infinity s else S754_nan)
  else if ex =? 0 then
    match fr with
    | Z.pos m => S754_finite s m (-149)
    | _ => S754_zero s
    end
  else
    match fr + 2 ^ 23 with
    | Z.pos m => S754_finite s m (ex - 150)
    | _ => S754_nan
    end.

(** [spec_float] has a single NaN, where a NaN of Python has a sign and a
    fraction, which the C conversion to [float] carries over.  They are
    given beside the number, in [nan]: bit 31 is the sign and the low 23
    bits are the fraction of the binary32 NaN, where no fraction bit stands
    for the quiet bit alone.  Every binary32 NaN is [nan_bits] of some
    [nan]; [nan_bits 0] is [0x7fc00000], the NaN of [float('nan')]. *)
Definition nan_bits (nan : Z) : Z :=
  let fr := Z.land nan (2 ^ 23 - 1) in
  (if Z.testbit nan 31 then 2 ^ 31 else 0) + 255 * 2 ^ 23
  + (if fr =? 0 then 2 ^ 22 else fr).

(** The 32-bit pattern of a number that is canonical for precision 24, and
    of the NaN with the bits [nan]. *)
Definition to_bits (nan : Z) (x : spec_float) : Z :=
  let sign (s : bool) : Z := if s then 2 ^ 31 else 0 in
  match x with
  | S754_zero s => sign s
  | S754_infinity s => sign s + 255 * 2 ^ 23
  | S754_nan => nan_bits nan
  | S754_finite s m e =>
      if Z.pos (digits2_pos m) =? prec
      then sign s + (e + 150) * 2 ^ 23 + (Z.pos m - 2 ^ 23)
      else sign s + Z.pos m
  end.

(** The C conversions between [float] and [double]. *)
Definition to_double (x : spec_float) : spec_float :=
  match x with
  | S754_finite s m e => binary_round F64.prec F64.emax s m e
  | _ => x
  end.

Definition of_double (x : spec_float) : spec_float :=
  match x with
  | S754_finite s m e => binary_round prec emax s m e
  | _ => x
  end.
End F32.

(** ** The [struct] formats the program uses *)

Module Struct.
Definition le_word (b0 b1 b2 b3 : Byte.byte) : Z :=
  byte_val b0 + 2 ^ 8 * byte_val b1 + 2 ^ 16 * byte_val b2
  + 2 ^ 24 * byte_val b3.

Definition le_bytes (w : Z) : bytes :=
  [byte_of_Z w; byte_of_Z (w / 2 ^ 8); byte_of_Z (w / 2 ^ 16);
   byte_of_Z (w / 2 ^ 24)].

(** [struct.unpack('<I', b)[0]]; [struct.error] unless [b] has 4 bytes. *)
Definition unpack_I (b : bytes) : option Z :=
  match b with
  | [b0; b1; b2; b3] => Some (le_word b0 b1 b2 b3)
  | _ => None
  end.

(** [struct.unpack('<i', b)[0]]: the same word read in two's complement. *)
Definition unpack_i (b : bytes) : option Z :=
  w ← unpack_I b;
  Some (if w <? 2 ^ 31 then w else w - 2 ^ 32).

(** [struct.unpack('<f', b)[0]]: a binary32, widened to a Python float. *)
Definition unpack_f (b : bytes) : option spec_float :=
  w ← unpack_I b;
  Some (F32.to_double (F32.of_bits w)).

(** [struct.unpack('<II', b)]. *)
Definition unpack_II (b : bytes) : option (Z * Z) :=
  match b with
  | [b0; b1; b2; b3; b4; b5; b6; b7] =>
      Some (le_word b0 b1 b2 b3, le_word b4 b5 b6 b7)
  | _ => None
  end.

(** [struct.pack('<I', v)]; [struct.error] outside [0 .. 2^32 - 1]. *)
Definition pack_I (v : Z) : option bytes :=
  if (0 <=? v) && (v <? 2 ^ 32) then Some (le_bytes v) else None.

(** [struct.pack('<i', v)]; [struct.error] outside [-2^31 .. 2^31 - 1]. *)
Definition pack_i (v : Z) : option bytes :=
  if (- 2 ^ 31 <=? v) && (v <? 2 ^ 31) then Some (le_bytes (v mod 2 ^ 32))
  else None.

(** [struct.pack('<f', x)]: [x] rounded to binary32; [OverflowError] when a
    finite [x] rounds to an infinity.  [nan] holds the sign and the fraction
    of [x] when it is a NaN. *)
Definition pack_f (nan : Z) (x : spec_float) : option bytes :=
  let y := F32.of_double x in
  match y with
  | S754_infinity _ =>
      if F64.is_finite x then None else Some (le_bytes (F32.to_bits nan y))
  | _ => Some (le_bytes (F32.to_bits nan y))
  end.
End Struct.

(** ** Python values *)

(** A [str] is the list of its code points. *)
Abbreviation str := (list Z).

Definition str_lit (s : string) : str :=
  (λ a, Z.of_nat (Ascii.nat_of_ascii a)) <$> String.list_ascii_of_string s.

#[local] Unset Elimination Schemes.
Inductive pyval :=
  | VNone
  | VBool (b : bool)
  | VInt (i : Z)
  | VFloat (x : spec_float)
  | VStr (s : str)
  | VList (l : list pyval).
#[local] Set Elimination Schemes.

(** A [dict] with string keys; [d.update(new)] lets the keys of [new] win. *)
Abbreviation dict := (gmap string pyval).

Definition dict_update (d new : dict) : dict := new ∪ d.

(** Truth value of what [parse] returns: [None] and [{}] are false. *)
Definition truthy (r : option dict) : bool :=
  match r with
  | None => false
  | Some d => negb (Nat.eqb (size d) 0)
  end.

(** ** [bytes.decode('utf-8', errors=...)] and [str.rstrip] *)

Module Utf8.
(** What the decoder meets, left to right: a well-formed sequence, with
    its code point, or a maximal ill-formed run of [n] bytes, on which the
    error handler is called. *)
Inductive item :=
  | Char (cp : Z)
  | Malformed (n : nat).

Definition is_cont (c : Z) : bool := (0x80 <=? c) && (c <=? 0xBF).

(** The second byte of a 3-byte sequence: no overlong form after [E0], no
    surrogate after [ED]. *)
Definition second_of_3 (c0 c1 : Z) : bool :=
  is_cont c1 && negb ((c0 =? 0xE0) && (c1 <? 0xA0))
  && negb ((c0 =? 0xED) && (0xA0 <=? c1)).

(** The second byte of a 4-byte sequence: no overlong form after [F0],
    nothing above U+10FFFF after [F4]. *)
Definition second_of_4 (c0 c1 : Z) : bool :=
  is_cont c1 && negb ((c0 =? 0xF0) && (c1 <? 0x90))
  && negb ((c0 =? 0xF4) && (0x90 <=? c1)).

Fixpoint scan (bs : bytes) : list item :=
  match bs with
  | [] => []
  | b0 :: r1 =>
      let c0 := byte_val b0 in
      if c0 <? 0x80 then Char c0 :: scan r1
      else if c0 <? 0xC2 then Malformed 1 :: scan r1
      else if c0 <? 0xE0 then
        match r1 with
        | [] => [Malformed 1]
        | b1 :: r2 =>
            let c1 := byte_val b1 in
            if is_cont c1
            then Char ((c0 - 0xC0) * 2 ^ 6 + (c1 - 0x80)) :: scan r2
            else Malformed 1 :: scan r1
        end
      else if c0 <? 0xF0 then
        match r1 with
        | [] => [Malformed 1]
        | b1 :: r2 =>
            let c1 := byte_val b1 in
            if second_of_3 c0 c1 then
              match r2 with
              | [] => [Malformed 2]
              | b2 :: r3 =>
                  let c2 := byte_val b2 in
                  if is_cont c2
                  then Char ((c0 - 0xE0) * 2 ^ 12 + (c1 - 0x80) * 2 ^ 6
                             + (c2 - 0x80)) :: scan r3
                  else Malformed 2 :: scan r2
              end
            else Malformed 1 :: scan r1
        end
      else if c0 <? 0xF5 then
        match r1 with
        | [] => [Malformed 1]
        | b1 :: r2 =>
            let c1 := byte_val b1 in
            if second_of_4 c0 c1 then
              match r2 with
              | [] => [Malformed 2]
              | b2 :: r3 =>
                  let c2 := byte_val b2 in
                  if is_cont c2 then
                    match r3 with
                    | [] => [Malformed 3]
                    | b3 :: r4 =>
                        let c3 := byte_val b3 in
                        if is_cont c3
                        then Char ((c0 - 0xF0) * 2 ^ 18 + (c1 - 0x80) * 2 ^ 12
                                   + (c2 - 0x80) * 2 ^ 6 + (c3 - 0x80))
                             :: scan r4
                        else Malformed 3 :: scan r3
                    end
                  else Malformed 2 :: scan r2
              end
            else Malformed 1 :: scan r1
        end
      else Malformed 1 :: scan r1
  end.

(** The error handlers: ['ignore'] drops an ill-formed run, ['replace']
    puts U+FFFD in its place. *)
Inductive errors := Ignore | Replace.

Definition replacement_character : Z := 0xFFFD.

Definition handle (h : errors) (i : item) : str :=
  match i, h with
  | Char cp, _ => [cp]
  | Malformed _, Ignore => []
  | Malformed _, Replace => [replacement_character]
  end.

Definition decode (h : errors) (bs : bytes) : str := scan bs ≫= handle h.
End Utf8.

(** [s.rstrip('\x00')] *)
Fixpoint rstrip_nul (s : str) : str :=
  match s with
  | [] => []
  | c :: r =>
      match rstrip_nul r with
      | [] => if c =? 0 then [] else [c]
      | r' => c :: r'
      end
  end.

(** ** [dashboard/telemetry_parser.py] *)

Module ACUDPType.
Definition HANDSHAKER : Z := 0.
Definition UPDATE : Z := 1.
Definition SPOT : Z := 2.
Definition DISMISS : Z := 3.
End ACUDPType.

Module TelemetryParser.

(** The parser object.  Its [last_data] field is written once by
    [__init__] and never read, so only the packet counter is kept. *)
Record t := { packet_count : Z }.

Definition __init__ : t := {| packet_count := 0 |}.

(** *** Sequential reads

    [_parse_update] walks the payload with a local [offset]; a step is a
    computation over the payload and the offset that may raise. *)
Definition reader (A : Type) : Type := bytes → nat → option (A * nat).

#[global] Instance reader_ret : MRet reader := λ A a _ off, Some (a, off).
#[global] Instance reader_bind : MBind reader := λ A B k m data off,
  match m data off with
  | Some (a, off') => k a data off'
  | None => None
  end.

(** [v = struct.unpack(fmt, data[offset:offset+4])[0]; offset += 4] *)
Definition unpack_next {A} (fmt : bytes → option A) : reader A :=
  λ data off, v ← fmt (slice off (off + 4) data); Some (v, (off + 4)%nat).

(** [offset += n] *)
Definition skip (n : nat) : reader unit := λ _ off, Some (tt, (off + n)%nat).

(** A Python expression that may raise. *)
Definition eval {A} (o : option A) : reader A :=
  λ _ off, a ← o; Some (a, off).

(** [l = []; for i in range(n): l.append(m)] *)
Fixpoint repeat_read {A} (n : nat) (m : reader A) : reader (list A) :=
  match n with
  | O => mret []
  | S n' => a ← m; l ← repeat_read n' m; mret (a :: l)
  end.

(** *** [_calculate_derived_values]

    The values read from [data] are of the types [_parse_update] stores
    (lists of floats, integers, floats); a value of another type counts as
    raising.  An exception leaves the function through its [except]
    clause, which returns the entries computed so far. *)
Section Parser.
(** [x ** y] on floats is the platform's C [pow]. *)
Variable pow : spec_float → spec_float → spec_float.

Definition as_float (v : pyval) : option spec_float :=
  match v with
  | VFloat x => Some x
  | VInt i =>
      let x := F64.of_Z i in if F64.is_finite x then Some x else None
  | _ => None
  end.

Definition as_int (v : pyval) : option Z :=
  match v with
  | VInt i => Some i
  | _ => None
  end.

(** [data.get(key, default)] *)
Definition get (key : string) (dflt : pyval) (data : dict) : pyval :=
  default dflt (data !! key).

Definition items (v : pyval) : option (list pyval) :=
  match v with
  | VList l => Some l
  | _ => None
  end.

Definition zeros4 : pyval := VList (replicate 4 (VInt 0)).

(** [abs(slip) > 0.1 and abs(angular_speed) < 1.0] for wheel [i] *)
Definition wheel_lock_at (data : dict) (i : nat) : option bool :=
  ws ← items (get "wheel_angular_speed" zeros4 data);
  angular_speed ← ws !! i ≫= as_float;
  sl ← items (get "wheel_slip" zeros4 data);
  slip ← sl !! i ≫= as_float;
  Some (F64.gtb (F64.abs slip) (F64.literal 1 10)
        && F64.ltb (F64.abs angular_speed) (F64.of_Z 1)).

Definition optimal_pressure : spec_float := F64.literal 1896 1000.

(** [for pressure in ...: tire_pressure_delta.append(pressure - optimal_pressure)] *)
Definition tire_pressure_delta (data : dict) : option (list spec_float) :=
  ps ← items (get "tire_pressure" zeros4 data);
  mapM (λ v, pressure ← as_float v; Some (F64.sub pressure optimal_pressure)) ps.

(** The [if]/[elif]/[else] on [rpm] and [max_rpm]; [max_rpm * 0.85]
    first converts the integer to a float. *)
Definition gear_recommendation (rpm max_rpm : Z) : option str :=
  m ← as_float (VInt max_rpm);
  if F64.int_gt rpm (F64.mul m (F64.literal 85 100)) then Some (str_lit "SHIFT UP")
  else if F64.int_lt rpm (F64.mul m (F64.literal 3 10)) then Some (str_lit "SHIFT DOWN")
  else Some (str_lit "OPTIMAL").

(** [(g_lat**2 + g_lon**2)**0.5] *)
Definition g_force_total (data : dict) : option spec_float :=
  g_lat ← as_float (get "g_force_lateral" (VInt 0) data);
  g_lon ← as_float (get "g_force_longitudinal" (VInt 0) data);
  Some (pow (F64.add (pow g_lat (F64.of_Z 2)) (pow g_lon (F64.of_Z 2)))
            (F64.literal 1 2)).

Definition _calculate_derived_values (data : dict) : dict :=
  let derived : dict := ∅ in
  match mapM (wheel_lock_at data) (seq 0 4) with
  | None => derived
  | Some wheel_lock =>
  let derived := <["wheel_lock" := VList (VBool <$> wheel_lock)]> derived in
  let derived := <["abs_in_action" := VBool (existsb id wheel_lock)]> derived in
  match tire_pressure_delta data with
  | None => derived
  | Some delta =>
  let derived := <["tire_pressure_delta" := VList (VFloat <$> delta)]> derived in
  match rpm ← as_int (get "rpm" (VInt 0) data);
        max_rpm ← as_int (get "max_rpm" (VInt 8000) data);
        gear_recommendation rpm max_rpm with
  | None => derived
  | Some recommendation =>
  let derived := <["gear_recommendation" := VStr recommendation]> derived in
  match g_force_total data with
  | None => derived
  | Some total => <["g_force_total" := VFloat total]> derived
  end end end end.

(** *** [_parse_update] *)

Definition ms_to_seconds (i : Z) : spec_float :=
  F64.div (F64.of_Z i) (F64.of_Z 1000).

Definition floats (l : list spec_float) : pyval := VList (VFloat <$> l).

(** The body of the [try] after the length test, up to the result
    dictionary.  [None] is any exception. *)
Definition read_update : reader dict :=
  speed_kmh ← unpack_next Struct.unpack_f;
  _ ← skip 8;
  rpm ← unpack_next Struct.unpack_f;
  max_rpm ← unpack_next Struct.unpack_f;
  gear ← unpack_next Struct.unpack_i;
  g_force_x ← unpack_next Struct.unpack_f;
  g_force_y ← unpack_next Struct.unpack_f;
  g_force_z ← unpack_next Struct.unpack_f;
  lap_time ← unpack_next (λ b, ms_to_seconds <$> Struct.unpack_i b);
  last_lap ← unpack_next (λ b, ms_to_seconds <$> Struct.unpack_i b);
  best_lap ← unpack_next (λ b, ms_to_seconds <$> Struct.unpack_i b);
  lap_count ← unpack_next Struct.unpack_i;
  fuel ← unpack_next Struct.unpack_f;
  _ ← skip 12;
  velocity_x ← unpack_next Struct.unpack_f;
  velocity_y ← unpack_next Struct.unpack_f;
  velocity_z ← unpack_next Struct.unpack_f;
  accel_x ← unpack_next Struct.unpack_f;
  accel_y ← unpack_next Struct.unpack_f;
  accel_z ← unpack_next Struct.unpack_f;
  wheel_angular_speed ← repeat_read 4 (unpack_next Struct.unpack_f);
  wheel_slip ← repeat_read 4 (unpack_next Struct.unpack_f);
  wheel_load ← repeat_read 4 (unpack_next Struct.unpack_f);
  tire_pressure ← repeat_read 4 (unpack_next Struct.unpack_f);
  tire_temp_core ← repeat_read 4 (unpack_next Struct.unpack_f);
  suspension_travel ← repeat_read 4 (unpack_next Struct.unpack_f);
  let speed_mph := F64.mul speed_kmh (F64.literal 621371 1000000) in
  rpm_int ← eval (F64.to_int rpm);
  max_rpm_int ← eval (F64.to_int max_rpm);
  let result : dict :=
    <["speed_kmh" := VFloat speed_kmh]> $
    <["speed_mph" := VFloat speed_mph]> $
    <["rpm" := VInt rpm_int]> $
    <["max_rpm" := VInt max_rpm_int]> $
    <["gear" := VInt gear]> $
    <["g_force_lateral" := VFloat g_force_x]> $
    <["g_force_longitudinal" := VFloat g_force_y]> $
    <["g_force_vertical" := VFloat g_force_z]> $
    <["lap_time" := VFloat lap_time]> $
    <["last_lap" := VFloat last_lap]> $
    <["best_lap" := VFloat best_lap]> $
    <["lap_count" := VInt lap_count]> $
    <["fuel" := VFloat fuel]> $
    <["car_velocity" := floats [velocity_x; velocity_y; velocity_z]]> $
    <["car_acceleration" := floats [accel_x; accel_y; accel_z]]> $
    <["wheel_angular_speed" := floats wheel_angular_speed]> $
    <["wheel_slip" := floats wheel_slip]> $
    <["wheel_load" := floats wheel_load]> $
    <["tire_pressure" := floats tire_pressure]> $
    <["tire_temperature_core" := floats tire_temp_core]> $
    <["suspension_travel" := floats suspension_travel]> $
    <["packet_type" := VStr (str_lit "update")]> ∅ in
  mret (dict_update result (_calculate_derived_values result)).

Definition _parse_update (data : bytes) (self : t) : dict * t :=
  if (length data <? 328)%nat then (∅, self)
  else
    match read_update data 0%nat with
    | Some (result, _) =>
        (result, {| packet_count := packet_count self + 1 |})
    | None => (∅, self)
    end.

(** *** [_parse_handshaker] and [_parse_spot] *)

Definition _parse_handshaker (data : bytes) : dict :=
  if (length data <? 8)%nat then ∅
  else
    match Struct.unpack_II (slice 0 8 data) with
    | None => ∅
    | Some (car_name_len, driver_name_len) =>
        let offset := 8%nat in
        let car_name :=
          rstrip_nul (Utf8.decode Utf8.Ignore
            (slice offset (offset + Z.to_nat car_name_len) data)) in
        let offset := (offset + Z.to_nat car_name_len)%nat in
        let driver_name :=
          rstrip_nul (Utf8.decode Utf8.Ignore
            (slice offset (offset + Z.to_nat driver_name_len) data)) in
        <["car_name" := VStr car_name]> $
        <["driver_name" := VStr driver_name]> $
        <["packet_type" := VStr (str_lit "handshaker")]> ∅
    end.

Definition _parse_spot (data : bytes) : dict :=
  <["packet_type" := VStr (str_lit "spot")]> ∅.

(** *** [parse] *)

Definition parse (data : bytes) (self : t) : option dict * t :=
  if (length data <? 4)%nat then (None, self)
  else
    match Struct.unpack_I (slice 0 4 data) with
    | None => (None, self)
    | Some packet_type =>
        if packet_type =? ACUDPType.HANDSHAKER
        then (Some (_parse_handshaker (drop 4 data)), self)
        else if packet_type =? ACUDPType.UPDATE
        then let '(r, self') := _parse_update (drop 4 data) self in
             (Some r, self')
        else if packet_type =? ACUDPType.SPOT
        then (Some (_parse_spot (drop 4 data)), self)
        else (None, self)
    end.
End Parser.
End TelemetryParser.

(** ** [dashboard/main.py]: the receiver *)

Module ACTelemetryDashboard.

(** The fields of the dashboard object that the receive loop reads or
    writes.  [udp_socket] tells whether the socket is set; [last_update]
    is the clock reading of the last merge.  The logger, the CSV writer
    and the GUI only consume the state and are left out. *)
Record t := {
  udp_socket : bool;
  running : bool;
  connected : bool;
  current_data : dict;
  last_update : option Z;
  telemetry_parser : TelemetryParser.t
}.

Definition __init__ : t :=
  {| udp_socket := false; running := false; connected := false;
     current_data := ∅; last_update := None;
     telemetry_parser := TelemetryParser.__init__ |}.

(** What one call of [recvfrom] does: it returns a datagram (the clock
    then reads [now]), raises [socket.timeout], or raises another error. *)
Inductive recv :=
  | Datagram (data : bytes) (now : Z)
  | Timeout
  | Failure.

Section Receiver.
Variable pow : spec_float → spec_float → spec_float.

Definition process_telemetry_data (data : bytes) (now : Z) (self : t) : t :=
  let '(parsed_data, parser) :=
    TelemetryParser.parse pow data (telemetry_parser self) in
  if truthy parsed_data then
    {| udp_socket := udp_socket self; running := running self;
       connected := connected self;
       current_data := dict_update (current_data self) (default ∅ parsed_data);
       last_update := Some now;
       telemetry_parser := parser |}
  else
    {| udp_socket := udp_socket self; running := running self;
       connected := connected self;
       current_data := current_data self;
       last_update := last_update self;
       telemetry_parser := parser |}.

Definition set_connected (b : bool) (self : t) : t :=
  {| udp_socket := udp_socket self; running := running self;
     connected := b;
     current_data := current_data self; last_update := last_update self;
     telemetry_parser := telemetry_parser self |}.

(** One pass through the body of [while self.running]. *)
Definition loop_body (r : recv) (self : t) : t :=
  if udp_socket self then
    match r with
    | Datagram data now =>
        let self := process_telemetry_data data now self in
        if negb (connected self) then set_connected true self else self
    | Timeout =>
        if connected self then set_connected false self else self
    | Failure => self
    end
  else self.

(** [telemetry_loop], over the outcomes of the successive receives. *)
Fixpoint telemetry_loop (rs : list recv) (self : t) : t :=
  match rs with
  | [] => self
  | r :: rs' =>
      if running self then telemetry_loop rs' (loop_body r self) else self
  end.
End Receiver.
End ACTelemetryDashboard.

(** ** Numbers and truth values of Python

    The arithmetic of the control helpers: [bool], [int] and [float]
    operands, a [bool] counting as the integer 0 or 1.  An operand of
    another type is [None]: in this program the other operand is always a
    number, and Python raises [TypeError]. *)

Module Py.
Inductive num :=
  | Int (i : Z)
  | Float (x : spec_float).

Definition as_num (v : pyval) : option num :=
  match v with
  | VBool b => Some (Int (if b then 1 else 0))
  | VInt i => Some (Int i)
  | VFloat x => Some (Float x)
  | _ => None
  end.

Definition of_num (n : num) : pyval :=
  match n with
  | Int i => VInt i
  | Float x => VFloat x
  end.

(** [float(i)], with [OverflowError] for an integer out of range. *)
Definition to_float (n : num) : option spec_float :=
  match n with
  | Int i => let x := F64.of_Z i in if F64.is_finite x then Some x else None
  | Float x => Some x
  end.

(** [a < b]; an integer and a float are compared exactly. *)
Definition num_lt (a b : num) : bool :=
  match a, b with
  | Int i, Int j => i <? j
  | Int i, Float y => F64.int_lt i y
  | Float x, Int j => F64.int_gt j x
  | Float x, Float y => F64.ltb x y
  end.

Definition num_add (a b : num) : option num :=
  match a, b with
  | Int i, Int j => Some (Int (i + j))
  | _, _ => x ← to_float a; y ← to_float b; Some (Float (F64.add x y))
  end.

Definition num_mul (a b : num) : option num :=
  match a, b with
  | Int i, Int j => Some (Int (i * j))
  | _, _ => x ← to_float a; y ← to_float b; Some (Float (F64.mul x y))
  end.

(** [a < b], [a + b] and [a * b] on values. *)
Definition __lt__ (a b : pyval) : option bool :=
  x ← as_num a; y ← as_num b; Some (num_lt x y).

Definition __add__ (a b : pyval) : option pyval :=
  x ← as_num a; y ← as_num b; of_num <$> num_add x y.

Definition __mul__ (a b : pyval) : option pyval :=
  x ← as_num a; y ← as_num b; of_num <$> num_mul x y.

(** [min(a, b)] keeps [a] unless [b < a]; [max(a, b)] keeps [a] unless
    [b > a].  The object returned is the argument itself. *)
Definition builtin_min (a b : pyval) : option pyval :=
  smaller ← __lt__ b a; Some (if smaller : bool then b else a).

Definition builtin_max (a b : pyval) : option pyval :=
  greater ← __lt__ a b; Some (if greater : bool then b else a).

(** [bool(v)] *)
Definition __bool__ (v : pyval) : bool :=
  match v with
  | VNone => false
  | VBool b => b
  | VInt i => negb (i =? 0)
  | VFloat (S754_zero _) => false
  | VFloat _ => true
  | VStr s => negb (Nat.eqb (length s) 0)
  | VList l => negb (Nat.eqb (length l) 0)
  end.

(** [v == 'literal'] for a string literal. *)
Definition eq_str (v : pyval) (literal : string) : bool :=
  match v with
  | VStr s => bool_decide (s = str_lit literal)
  | _ => false
  end.

(** [isinstance(v, (int, float))]; a [bool] is an [int]. *)
Definition is_int_or_float (v : pyval) : bool :=
  match v with
  | VBool _ | VInt _ | VFloat _ => true
  | _ => false
  end.
End Py.

(** ** [dashboard/controls/vehicle_controls.py] *)

Module ACControlCommand.
Definition TC_LEVEL : Z := 1.
Definition ABS_LEVEL : Z := 2.
Definition BRAKE_BIAS : Z := 3.
Definition TURBO_PRESSURE : Z := 4.
Definition HEADLIGHTS : Z := 5.
Definition LEFT_INDICATOR : Z := 6.
Definition RIGHT_INDICATOR : Z := 7.
Definition HAZARD_LIGHTS : Z := 8.
Definition WIPERS : Z := 9.
Definition PIT_LIMITER : Z := 10.
Definition OPEN_PIT_MENU : Z := 11.
Definition ENGINE_MAP : Z := 12.
Definition IGNITION : Z := 13.
End ACControlCommand.

Module VehicleControls.

(** [control_socket] tells whether the socket is set; [sent] lists the
    datagrams handed to [sendto], oldest first; a record of
    [last_commands] is the dictionary with the keys ['value'] and
    ['timestamp']. *)
Record t := {
  control_socket : bool;
  last_commands : gmap string dict;
  sent : list bytes
}.

Definition command_map : gmap string Z :=
  list_to_map
    [("tc_level", ACControlCommand.TC_LEVEL);
     ("abs_level", ACControlCommand.ABS_LEVEL);
     ("brake_bias", ACControlCommand.BRAKE_BIAS);
     ("turbo_pressure", ACControlCommand.TURBO_PRESSURE);
     ("headlights", ACControlCommand.HEADLIGHTS);
     ("left_indicator", ACControlCommand.LEFT_INDICATOR);
     ("right_indicator", ACControlCommand.RIGHT_INDICATOR);
     ("hazard_lights", ACControlCommand.HAZARD_LIGHTS);
     ("wipers", ACControlCommand.WIPERS);
     ("pit_limiter", ACControlCommand.PIT_LIMITER);
     ("open_pit_menu", ACControlCommand.OPEN_PIT_MENU);
     ("engine_map", ACControlCommand.ENGINE_MAP);
     ("ignition", ACControlCommand.IGNITION)].

Definition _get_command_type (command : string) : option Z :=
  command_map !! command.

(** [None] is both the explicit [return None] and the [except] clause;
    [nan] holds the sign and the fraction of [value] when it is a NaN. *)
Definition _build_command_packet (nan : Z) (command_type : Z) (value : pyval)
  : option bytes :=
  packet ← Struct.pack_I command_type;
  match value with
  | VBool b =>
      tag ← Struct.pack_I 1;
      v ← Struct.pack_I (if b then 1 else 0);
      Some (packet ++ tag ++ v)
  | VInt i =>
      tag ← Struct.pack_I 2;
      v ← Struct.pack_i i;
      Some (packet ++ tag ++ v)
  | VFloat x =>
      tag ← Struct.pack_I 3;
      v ← Struct.pack_f nan x;
      Some (packet ++ tag ++ v)
  | _ => None
  end.

(** [send_command]; [nan] holds the sign and the fraction of [value] when
    it is a NaN, [sendto_ok] tells whether [sendto] returns rather than
    raises, [now] is [time.time()]. *)
Definition send_command (nan : Z) (sendto_ok : bool) (now : spec_float)
    (command : string) (value : pyval) (self : t) : bool * t :=
  if negb (control_socket self) then (false, self)
  else
    match _get_command_type command with
    | None => (false, self)
    | Some command_type =>
        match _build_command_packet nan command_type value with
        | None | Some [] => (false, self)
        | Some packet =>
            if sendto_ok then
              (true,
               {| control_socket := control_socket self;
                  last_commands :=
                    <[command := <["value" := value]>
                                 (<["timestamp" := VFloat now]> ∅)]>
                      (last_commands self);
                  sent := sent self ++ [packet] |})
            else (false, self)
        end
    end.

Definition get_last_command (command : string) (self : t) : option dict :=
  last_commands self !! command.

(** *** The bounded and the boolean helpers

    An oracle [(nan, sendto_ok, now)] goes with every send.  The clamps of the
    bounded helpers stand outside any [try]: [None] is the [TypeError] that
    escapes to the caller. *)
Definition oracle : Type := Z * bool * spec_float.

Definition send_with (o : oracle) (command : string) (value : pyval) (self : t)
  : bool * t :=
  send_command o.1.1 o.1.2 o.2 command value self.

(** [max(lo, min(hi, x))] *)
Definition clamp (lo hi x : pyval) : option pyval :=
  m ← Py.builtin_min hi x; Py.builtin_max lo m.

Definition send_tc_level (o : oracle) (level : pyval) (self : t)
  : option (bool * t) :=
  v ← clamp (VInt 0) (VInt 10) level; Some (send_with o "tc_level" v self).

Definition send_abs_level (o : oracle) (level : pyval) (self : t)
  : option (bool * t) :=
  v ← clamp (VInt 0) (VInt 10) level; Some (send_with o "abs_level" v self).

Definition send_brake_bias (o : oracle) (bias : pyval) (self : t)
  : option (bool * t) :=
  v ← clamp (VFloat (F64.of_Z 0)) (VFloat (F64.of_Z 1)) bias;
  Some (send_with o "brake_bias" v self).

Definition send_turbo_pressure (o : oracle) (pressure : pyval) (self : t)
  : option (bool * t) :=
  v ← clamp (VFloat (F64.of_Z 0)) (VFloat (F64.of_Z 3)) pressure;
  Some (send_with o "turbo_pressure" v self).

Definition toggle_headlights (o : oracle) (on : pyval) (self : t) : bool * t :=
  send_with o "headlights" on self.

(** [success = True; success &= send(left); success &= send(right)] *)
Definition set_indicator (o1 o2 : oracle) (left right : pyval) (self : t)
  : bool * t :=
  let success := true in
  let '(sent_left, self) := send_with o1 "left_indicator" left self in
  let success := success && sent_left in
  let '(sent_right, self) := send_with o2 "right_indicator" right self in
  let success := success && sent_right in
  (success, self).

Definition toggle_hazards (o : oracle) (on : pyval) (self : t) : bool * t :=
  send_with o "hazard_lights" on self.

Definition toggle_wipers (o : oracle) (on : pyval) (self : t) : bool * t :=
  send_with o "wipers" on self.

Definition toggle_pit_limiter (o : oracle) (on : pyval) (self : t) : bool * t :=
  send_with o "pit_limiter" on self.

Definition open_pit_menu (o : oracle) (self : t) : bool * t :=
  send_with o "open_pit_menu" (VBool true) self.

Definition set_engine_map (o : oracle) (map_number : pyval) (self : t)
  : option (bool * t) :=
  v ← clamp (VInt 1) (VInt 8) map_number;
  Some (send_with o "engine_map" v self).

Definition toggle_ignition (o : oracle) (on : pyval) (self : t) : bool * t :=
  send_with o "ignition" on self.

Definition cleanup (self : t) : t :=
  if control_socket self
  then {| control_socket := false; last_commands := last_commands self;
          sent := sent self |}
  else self.
End VehicleControls.

(** *** Keyboard shortcuts

    [KeyboardControls] holds a reference to the [VehicleControls] object;
    the session is passed to a key press and returned by it. *)

Module KeyboardControls.

(** A binding is the pair of a command name and an action: one of the
    strings ['toggle'], ['adjust'], ['trigger'], ['increase'], ['decrease'],
    or a number to send as it is. *)
Definition load_key_bindings : gmap string (string * pyval) :=
  list_to_map
    [("F1", ("tc_level", VStr (str_lit "toggle")));
     ("F2", ("abs_level", VStr (str_lit "toggle")));
     ("F3", ("brake_bias", VStr (str_lit "adjust")));
     ("F4", ("turbo_pressure", VStr (str_lit "adjust")));
     ("F5", ("headlights", VStr (str_lit "toggle")));
     ("F6", ("left_indicator", VStr (str_lit "toggle")));
     ("F7", ("right_indicator", VStr (str_lit "toggle")));
     ("F8", ("hazard_lights", VStr (str_lit "toggle")));
     ("F9", ("wipers", VStr (str_lit "toggle")));
     ("F10", ("pit_limiter", VStr (str_lit "toggle")));
     ("F11", ("open_pit_menu", VStr (str_lit "trigger")));
     ("F12", ("ignition", VStr (str_lit "toggle")));
     ("Up", ("brake_bias", VStr (str_lit "increase")));
     ("Down", ("brake_bias", VStr (str_lit "decrease")));
     ("Left", ("tc_level", VStr (str_lit "decrease")));
     ("Right", ("tc_level", VStr (str_lit "increase")));
     ("0", ("tc_level", VInt 0));
     ("1", ("tc_level", VInt 1));
     ("2", ("tc_level", VInt 2));
     ("3", ("tc_level", VInt 3));
     ("4", ("tc_level", VInt 4));
     ("5", ("tc_level", VInt 5));
     ("6", ("tc_level", VInt 6));
     ("7", ("tc_level", VInt 7));
     ("8", ("tc_level", VInt 8));
     ("9", ("tc_level", VInt 9))].

(** The commands that ['toggle'] flips as booleans, and those it switches
    between 0 and 1. *)
Definition boolean_commands : list string :=
  ["headlights"; "left_indicator"; "right_indicator"; "hazard_lights";
   "wipers"; "pit_limiter"; "ignition"].

Definition level_commands : list string := ["tc_level"; "abs_level"].

(** [last_cmd['value'] if last_cmd else default]; [None] is [KeyError]. *)
Definition last_value (dflt : pyval) (command : string)
    (controls : VehicleControls.t) : option pyval :=
  match VehicleControls.get_last_command command controls with
  | Some last_cmd =>
      if truthy (Some last_cmd) then last_cmd !! "value" else Some dflt
  | None => Some dflt
  end.

(** [_adjust_value]; [None] is an exception, which the caller catches. *)
Definition _adjust_value (o : VehicleControls.oracle) (command : string)
    (delta : Z) (controls : VehicleControls.t)
  : option (bool * VehicleControls.t) :=
  current_value ← last_value (VInt 0) command controls;
  if bool_decide (command = "tc_level") then
    moved ← Py.__add__ current_value (VInt delta);
    new_value ← VehicleControls.clamp (VInt 0) (VInt 10) moved;
    Some (VehicleControls.send_with o command new_value controls)
  else if bool_decide (command = "abs_level") then
    moved ← Py.__add__ current_value (VInt delta);
    new_value ← VehicleControls.clamp (VInt 0) (VInt 10) moved;
    Some (VehicleControls.send_with o command new_value controls)
  else if bool_decide (command = "brake_bias") then
    step ← Py.__mul__ (VInt delta) (VFloat (F64.literal 5 1000));
    moved ← Py.__add__ current_value step;
    new_value ← VehicleControls.clamp (VFloat (F64.literal 4 10))
                   (VFloat (F64.literal 7 10)) moved;
    Some (VehicleControls.send_with o command new_value controls)
  else if bool_decide (command = "turbo_pressure") then
    step ← Py.__mul__ (VInt delta) (VFloat (F64.literal 1 10));
    moved ← Py.__add__ current_value step;
    new_value ← VehicleControls.clamp (VFloat (F64.of_Z 0))
                   (VFloat (F64.of_Z 3)) moved;
    Some (VehicleControls.send_with o command new_value controls)
  else Some (false, controls).

(** The body of the [try] of [handle_key_press]. *)
Definition dispatch (o : VehicleControls.oracle) (command : string)
    (action : pyval) (controls : VehicleControls.t)
  : option (bool * VehicleControls.t) :=
  if Py.eq_str action "toggle" then
    if bool_decide (command ∈ boolean_commands) then
      current_state ← last_value (VBool false) command controls;
      Some (VehicleControls.send_with o command
              (VBool (negb (Py.__bool__ current_state))) controls)
    else if bool_decide (command ∈ level_commands) then
      current_level ← last_value (VInt 0) command controls;
      is_on ← Py.__lt__ (VInt 0) current_level;
      let new_level := if is_on : bool then 0 else 1 in
      Some (VehicleControls.send_with o command (VInt new_level) controls)
    else Some (false, controls)
  else if Py.eq_str action "trigger" then
    Some (VehicleControls.send_with o command (VBool true) controls)
  else if Py.eq_str action "increase" then
    _adjust_value o command 1 controls
  else if Py.eq_str action "decrease" then
    _adjust_value o command (-1) controls
  else if Py.is_int_or_float action then
    Some (VehicleControls.send_with o command action controls)
  else Some (false, controls).

Definition handle_key_press (key_bindings : gmap string (string * pyval))
    (o : VehicleControls.oracle) (key : string) (controls : VehicleControls.t)
  : bool * VehicleControls.t :=
  match key_bindings !! key with
  | None => (false, controls)
  | Some (command, action) =>
      default (false, controls) (dispatch o command action controls)
  end.

(** [self.key_bindings.update(bindings)] *)
Definition save_key_bindings (bindings key_bindings : gmap string (string * pyval))
  : gmap string (string * pyval) :=
  bindings ∪ key_bindings.

(** A sequence of key presses, each with the oracle of its send. *)
Fixpoint press_all (key_bindings : gmap string (string * pyval))
    (presses : list (string * VehicleControls.oracle))
    (controls : VehicleControls.t) : VehicleControls.t :=
  match presses with
  | [] => controls
  | (key, o) :: rest =>
      press_all key_bindings rest (handle_key_press key_bindings o key controls).2
  end.
End KeyboardControls.

(** ** Sample inputs

    Concrete datagrams and arguments at which the statements below are
    instantiated. *)

Module Sample.
Definition zeros (n : nat) : bytes := replicate n Byte.x00.

Definition tag (b : Byte.byte) : bytes := [b; Byte.x00; Byte.x00; Byte.x00].

(** The statements hold for any [pow]; closed instances take the correctly
    rounded product for it. *)
Definition pow (x y : spec_float) : spec_float := F64.mul x y.

(** An Update payload with [rpm = 5000.0], every other field zero. *)
Definition payload_rpm_5000 : bytes :=
  zeros 12 ++ [Byte.x00; Byte.x40; Byte.x9c; Byte.x45] ++ zeros 312.

(** An Update payload whose [rpm] field is a NaN. *)
Definition payload_rpm_nan : bytes :=
  zeros 12 ++ [Byte.x00; Byte.x00; Byte.xc0; Byte.x7f] ++ zeros 312.

(** An Update payload with [speed_kmh = 120.0], [rpm = 7200.0],
    [max_rpm = 8000.0] and [gear = 4]. *)
Definition payload_120_kmh : bytes :=
  [Byte.x00; Byte.x00; Byte.xf0; Byte.x42] ++ zeros 8
  ++ [Byte.x00; Byte.x00; Byte.xe1; Byte.x45]
  ++ [Byte.x00; Byte.x00; Byte.xfa; Byte.x45]
  ++ [Byte.x04; Byte.x00; Byte.x00; Byte.x00] ++ zeros 304.

Definition update_120_kmh : bytes := tag Byte.x01 ++ payload_120_kmh.

(** A Handshake payload: car name [A\xffB], driver name [C\x00]. *)
Definition payload_handshake_AB : bytes :=
  tag Byte.x03 ++ tag Byte.x02
  ++ [Byte.x41; Byte.xff; Byte.x42; Byte.x43; Byte.x00].

Definition handshake_AB : bytes := tag Byte.x00 ++ payload_handshake_AB.

Definition controls : VehicleControls.t :=
  {| VehicleControls.control_socket := true;
     VehicleControls.last_commands := ∅;
     VehicleControls.sent := [] |}.

Definition dashboard : ACTelemetryDashboard.t :=
  {| ACTelemetryDashboard.udp_socket := true;
     ACTelemetryDashboard.running := true;
     ACTelemetryDashboard.connected := false;
     ACTelemetryDashboard.current_data := ∅;
     ACTelemetryDashboard.last_update := None;
     ACTelemetryDashboard.telemetry_parser := TelemetryParser.__init__ |}.
End Sample.

(** ** Vocabulary of the statements

    The bytes, words and numbers found at an offset of a payload, read
    without the parser. *)

Definition byte_at (data : bytes) (i : nat) : Byte.byte := nth i data Byte.x00.

Definition word_at (data : bytes) (off : nat) : Z :=
  Struct.le_word (byte_at data off) (byte_at data (off + 1))
    (byte_at data (off + 2)) (byte_at data (off + 3)).

Definition i32_at (data : bytes) (off : nat) : Z :=
  let w := word_at data off in if w <? 2 ^ 31 then w else w - 2 ^ 32.

Definition f32_at (data : bytes) (off : nat) : spec_float :=
  F32.to_double (F32.of_bits (word_at data off)).

(** Four consecutive binary32 values from an offset on: the wheels in the
    order FL, FR, RL, RR. *)
Definition wheels_at (data : bytes) (off : nat) : list spec_float :=
  [f32_at data off; f32_at data (off + 4); f32_at data (off + 8);
   f32_at data (off + 12)].

Definition km_to_miles : spec_float := F64.literal 621371 1000000.

(** The decoded fields of an Update payload by the offset table of the
    specification; [rpm] and [max_rpm] are the integer parts of the numbers
    at offsets 12 and 16. *)
Definition update_table (data : bytes) (rpm max_rpm : Z) : dict :=
  <["speed_kmh" := VFloat (f32_at data 0)]> $
  <["speed_mph" := VFloat (F64.mul (f32_at data 0) km_to_miles)]> $
  <["rpm" := VInt rpm]> $
  <["max_rpm" := VInt max_rpm]> $
  <["gear" := VInt (i32_at data 20)]> $
  <["g_force_lateral" := VFloat (f32_at data 24)]> $
  <["g_force_longitudinal" := VFloat (f32_at data 28)]> $
  <["g_force_vertical" := VFloat (f32_at data 32)]> $
  <["lap_time" := VFloat (TelemetryParser.ms_to_seconds (i32_at data 36))]> $
  <["last_lap" := VFloat (TelemetryParser.ms_to_seconds (i32_at data 40))]> $
  <["best_lap" := VFloat (TelemetryParser.ms_to_seconds (i32_at data 44))]> $
  <["lap_count" := VInt (i32_at data 48)]> $
  <["fuel" := VFloat (f32_at data 52)]> $
  <["car_velocity" :=
      TelemetryParser.floats [f32_at data 68; f32_at data 72; f32_at data 76]]> $
  <["car_acceleration" :=
      TelemetryParser.floats [f32_at data 80; f32_at data 84; f32_at data 88]]> $
  <["wheel_angular_speed" := TelemetryParser.floats (wheels_at data 92)]> $
  <["wheel_slip" := TelemetryParser.floats (wheels_at data 108)]> $
  <["wheel_load" := TelemetryParser.floats (wheels_at data 124)]> $
  <["tire_pressure" := TelemetryParser.floats (wheels_at data 140)]> $
  <["tire_temperature_core" := TelemetryParser.floats (wheels_at data 156)]> $
  <["suspension_travel" := TelemetryParser.floats (wheels_at data 172)]> $
  <["packet_type" := VStr (str_lit "update")]> ∅.

(** The keys that [_calculate_derived_values] may write. *)
Definition derived_keys : list string :=
  ["wheel_lock"; "abs_in_action"; "tire_pressure_delta";
   "gear_recommendation"; "g_force_total"].

(** The integers next to a finite float: the greatest one not above it and
    the least one not below it. *)
Definition floor (x : spec_float) : option Z :=
  match x with
  | S754_zero _ => Some 0
  | S754_finite s m e => let '(n, k) := F64.scaled s m e in Some (n / 2 ^ k)
  | _ => None
  end.

Definition ceil (x : spec_float) : option Z :=
  match x with
  | S754_zero _ => Some 0
  | S754_finite s m e => let '(n, k) := F64.scaled s m e in Some (- (- n / 2 ^ k))
  | _ => None
  end.

(** *** Rounding, in integers

    What [binary_round_aux] of the Standard Library computes on a positive
    mantissa, written with quotients and remainders. *)

(** The record that [n] steps of [shr_1] make of the mantissa [p]. *)
Definition shifted (p n : Z) : shr_record :=
  {| shr_m := p / 2 ^ n;
     shr_r := 2 ^ n <=? 2 * (p mod 2 ^ n);
     shr_s := negb ((2 * (p mod 2 ^ n)) mod 2 ^ n =? 0) |}.

(** [p / 2^n] rounded to the nearest integer, ties to even. *)
Definition rne (p n : Z) : Z :=
  let q := p / 2 ^ n in
  let r := p mod 2 ^ n in
  if 2 * r <? 2 ^ n then q
  else if 2 ^ n <? 2 * r then q + 1
  else if Z.even q then q else q + 1.

(** A mantissa [p] of more than [prec] digits, rounded to [prec] digits:
    the rounded mantissa and the number of digits dropped. *)
Definition normal_round (prec p : Z) : Z * Z :=
  let n := Z.log2 p + 1 - prec in
  let q := rne p n in
  if q =? 2 ^ prec then (2 ^ (prec - 1), n + 1) else (q, n).

(** The integers that [int(x)] gives for a binary32 [x]: they have at most
    24 significant bits. *)
Definition is_f32_int (i : Z) : Prop :=
  ∃ a j : Z, 0 ≤ a < 2 ^ 24 ∧ 0 ≤ j ≤ 104 ∧ Z.abs i = a * 2 ^ j.

(** The least magnitude that rounds to no finite binary32:
    [(2^24 - 1/2) * 2^104], halfway between the largest binary32 and
    [2^128]. *)
Definition binary32_limit : spec_float := S754_finite false 9007198986305536 75.

(** [x] is finite and [abs(x) >= binary32_limit]. *)
Definition overflows_binary32 (x : spec_float) : bool :=
  F64.is_finite x && SFleb binary32_limit (SFabs x).

(** The recommendation in exact arithmetic. *)
Definition exact_recommendation (rpm max_rpm : Z) : str :=
  if 17 * max_rpm <? 20 * rpm then str_lit "SHIFT UP"
  else if 10 * rpm <? 3 * max_rpm then str_lit "SHIFT DOWN"
  else str_lit "OPTIMAL".

(** Bytes of a name: an ASCII byte is a character of its own; a byte
    that can start no well-formed sequence is ill-formed wherever it
    stands. *)
Definition is_ascii (b : Byte.byte) : Prop := byte_val b < 0x80.

Definition is_invalid_start (b : Byte.byte) : Prop :=
  0x80 ≤ byte_val b < 0xC2 ∨ 0xF5 ≤ byte_val b.

(** The wheel-lock test of [_calculate_derived_values] on the slip and the
    angular speed of wheel [i], read at their offsets. *)
Definition wheel_locked (data : bytes) (i : nat) : bool :=
  F64.gtb (F64.abs (f32_at data (108 + 4 * i))) (F64.literal 1 10)
  && F64.ltb (F64.abs (f32_at data (92 + 4 * i))) (F64.of_Z 1).

Definition pressure_delta_at (data : bytes) (off : nat) : spec_float :=
  F64.sub (f32_at data off) (F64.literal 1896 1000).

(** The keys of a decoded handshake. *)
Definition handshake_keys : list string :=
  ["car_name"; "driver_name"; "packet_type"].

Definition is_datagram (r : ACTelemetryDashboard.recv) : bool :=
  match r with
  | ACTelemetryDashboard.Datagram _ _ => true
  | _ => false
  end.

(** Two dashboards that differ at most in the connection flag. *)
Definition same_but_connected (s1 s2 : ACTelemetryDashboard.t) : Prop :=
  ACTelemetryDashboard.udp_socket s1 = ACTelemetryDashboard.udp_socket s2
  ∧ ACTelemetryDashboard.running s1 = ACTelemetryDashboard.running s2
  ∧ ACTelemetryDashboard.current_data s1 = ACTelemetryDashboard.current_data s2
  ∧ ACTelemetryDashboard.last_update s1 = ACTelemetryDashboard.last_update s2
  ∧ ACTelemetryDashboard.telemetry_parser s1
    = ACTelemetryDashboard.telemetry_parser s2.

(** [x <= y] on floats. *)
Definition float_le (x y : spec_float) : bool := SFleb x y.

(** The record that a successful send stores in [last_commands]. *)
Definition command_record (value : pyval) (now : spec_float) : dict :=
  <["value" := value]> (<["timestamp" := VFloat now]> ∅).

(** The value-type tag of a value that has a wire format. *)
Definition value_type_tag (value : pyval) : Z :=
  match value with
  | VBool _ => 1
  | VInt _ => 2
  | _ => 3
  end.

(** The levels that the keyboard steers stay within their ranges: a
    recorded traction-control level is an integer of 0 .. 10, a recorded
    brake bias a float of 0.4 .. 0.7. *)
Definition levels_in_range (controls : VehicleControls.t) : Prop :=
  (∀ record, VehicleControls.get_last_command "tc_level" controls = Some record →
     ∃ v : Z, record !! "value" = Some (VInt v) ∧ 0 ≤ v ≤ 10)
  ∧ (∀ record, VehicleControls.get_last_command "brake_bias" controls = Some record →
       ∃ x : spec_float,
         record !! "value" = Some (VFloat x)
         ∧ float_le (F64.literal 4 10) x = true
         ∧ float_le x (F64.literal 7 10) = true).

(** A value that keeps [levels_in_range] when it is sent for [command]. *)
Definition level_value (command : string) (value : pyval) : Prop :=
  (command = "tc_level" → ∃ v : Z, value = VInt v ∧ 0 ≤ v ≤ 10)
  ∧ (command = "brake_bias" →
     ∃ x : spec_float,
       value = VFloat x
       ∧ float_le (F64.literal 4 10) x = true
       ∧ float_le x (F64.literal 7 10) = true).

(** The connection monitor in the words of the specification: two states,
    Disconnected at first; a received datagram takes Disconnected to
    Connected, a receive timeout takes Connected to Disconnected, and there
    is no other transition. *)
Module ConnectionMonitor.
Inductive state := Disconnected | Connected.

Definition initial : state := Disconnected.

Definition step (s : state) (r : ACTelemetryDashboard.recv) : state :=
  match s, r with
  | Disconnected, ACTelemetryDashboard.Datagram _ _ => Connected
  | Connected, ACTelemetryDashboard.Timeout => Disconnected
  | _, _ => s
  end.

Definition of_flag (connected : bool) : state :=
  if connected then Connected else Disconnected.
End ConnectionMonitor.

(** The names of the command registry. *)
Definition known_commands : list string :=
  ["tc_level"; "abs_level"; "brake_bias"; "turbo_pressure"; "headlights";
   "left_indicator"; "right_indicator"; "hazard_lights"; "wipers";
   "pit_limiter"; "open_pit_menu"; "engine_map"; "ignition"].

(** A value that [_build_command_packet] has a wire format for. *)
Definition is_bool_int_or_float (v : pyval) : bool :=
  match v with
  | VBool _ | VInt _ | VFloat _ => true
  | _ => false
  end.

(** * Properties *)

(** ** Bytes, words and slices *)

Ltac word_arith :=
  change (2 ^ 8) with 256 in *; change (2 ^ 16) with 65536 in *;
  change (2 ^ 24) with 16777216 in *; change (2 ^ 31) with 2147483648 in *;
  change (2 ^ 32) with 4294967296 in *;
  Z.div_mod_to_equations; lia.

Lemma byte_val_range (b : Byte.byte) : 0 ≤ byte_val b < 256.
Proof.
  unfold byte_val. pose proof (Byte.to_N_bounded b). lia.
Qed.

Lemma byte_of_Z_val (b : Byte.byte) : byte_of_Z (byte_val b) = b.
Proof.
  unfold byte_of_Z, byte_val.
  rewrite Z.mod_small by (pose proof (Byte.to_N_bounded b); lia).
  by rewrite N2Z.id, Byte.of_to_N.
Qed.

Lemma byte_val_of_Z (z : Z) : byte_val (byte_of_Z z) = z mod 256.
Proof.
  unfold byte_of_Z, byte_val.
  pose proof (Z.mod_pos_bound z 256 ltac:(lia)) as Hr.
  pose proof (Byte.to_of_N_option_map (Z.to_N (z mod 256))) as Ho.
  destruct (Byte.of_N (Z.to_N (z mod 256))) as [b|] eqn:Hb;
    destruct (N.leb_spec (Z.to_N (z mod 256)) 255); simplify_eq/=; lia.
Qed.

Lemma le_word_range b0 b1 b2 b3 : 0 ≤ Struct.le_word b0 b1 b2 b3 < 2 ^ 32.
Proof.
  unfold Struct.le_word.
  pose proof (byte_val_range b0). pose proof (byte_val_range b1).
  pose proof (byte_val_range b2). pose proof (byte_val_range b3). lia.
Qed.

(** [le_bytes] is the little-endian layout that [unpack_I] reads back. *)
Lemma unpack_I_le_bytes (w : Z) :
  0 ≤ w < 2 ^ 32 → Struct.unpack_I (Struct.le_bytes w) = Some w.
Proof.
  intros Hw. unfold Struct.le_bytes, Struct.unpack_I, Struct.le_word.
  rewrite !byte_val_of_Z. f_equal. word_arith.
Qed.

Lemma byte_of_Z_eq (z : Z) (b : Byte.byte) :
  z mod 256 = byte_val b → byte_of_Z z = b.
Proof.
  intros H. rewrite <- (byte_of_Z_val b). unfold byte_of_Z. rewrite H.
  by rewrite (Z.mod_small (byte_val b)) by apply byte_val_range.
Qed.

Lemma le_bytes_le_word b0 b1 b2 b3 :
  Struct.le_bytes (Struct.le_word b0 b1 b2 b3) = [b0; b1; b2; b3].
Proof.
  unfold Struct.le_bytes, Struct.le_word.
  pose proof (byte_val_range b0). pose proof (byte_val_range b1).
  pose proof (byte_val_range b2). pose proof (byte_val_range b3).
  repeat f_equal; apply byte_of_Z_eq; word_arith.
Qed.

(** The number formats on known values. *)
Example unpack_f_5000 :
  Struct.unpack_f [Byte.x00; Byte.x40; Byte.x9c; Byte.x45] = Some (F64.of_Z 5000).
Proof. vm_compute. reflexivity. Qed.

Example pack_f_half :
  Struct.pack_f 0 (F64.literal 1 2) = Some [Byte.x00; Byte.x00; Byte.x00; Byte.x3f].
Proof. vm_compute. reflexivity. Qed.

Example literal_085 :
  F64.literal 85 100 = S754_finite false 7656119366529843 (-53).
Proof. vm_compute. reflexivity. Qed.

Example f32_bits_round_trip :
  Forall (λ w, F32.to_bits 0 (F32.of_double (F32.to_double (F32.of_bits w))) = w)
    [0x00000000; 0x80000000; 0x00000001; 0x807fffff; 0x00800000;
     0x3f800000; 0xc2f00000; 0x7f7fffff; 0x7f800000; 0xff800000; 0x7fc00000].
Proof. repeat constructor. Qed.

Example int_of_float_truncates :
  F64.to_int (F64.literal (-7) 2) = Some (-3)
  ∧ F64.to_int (F64.literal 7 2) = Some 3
  ∧ F64.to_int S754_nan = None.
Proof. vm_compute. done. Qed.

Example pack_f_too_large :
  Struct.pack_f 0 (F64.of_Z (2 ^ 128)) = None
  ∧ Struct.pack_i (2 ^ 31) = None.
Proof. vm_compute. done. Qed.

(** ** Slices of a long enough payload *)

Lemma drop_byte_at (data : bytes) (i : nat) :
  (i < length data)%nat → drop i data = byte_at data i :: drop (S i) data.
Proof.
  intros Hi. apply drop_S. unfold byte_at.
  destruct (nth_lookup_or_length data i Byte.x00); [done | lia].
Qed.

Lemma slice_4 (data : bytes) (off : nat) :
  (off + 4 ≤ length data)%nat →
  slice off (off + 4) data =
    [byte_at data off; byte_at data (off + 1); byte_at data (off + 2);
     byte_at data (off + 3)].
Proof.
  intros H. unfold slice. replace (off + 4 - off)%nat with 4%nat by lia.
  rewrite (drop_byte_at data off) by lia.
  rewrite (drop_byte_at data (S off)) by lia.
  rewrite (drop_byte_at data (S (S off))) by lia.
  rewrite (drop_byte_at data (S (S (S off)))) by lia.
  cbn [take]. by replace (S off) with (off + 1)%nat by lia;
    replace (S (off + 1)) with (off + 2)%nat by lia;
    replace (S (off + 2)) with (off + 3)%nat by lia.
Qed.

Lemma unpack_I_slice (data : bytes) (off : nat) :
  (off + 4 ≤ length data)%nat →
  Struct.unpack_I (slice off (off + 4) data) = Some (word_at data off).
Proof. intros H. by rewrite slice_4. Qed.

Lemma unpack_i_slice (data : bytes) (off : nat) :
  (off + 4 ≤ length data)%nat →
  Struct.unpack_i (slice off (off + 4) data) = Some (i32_at data off).
Proof. intros H. unfold Struct.unpack_i. by rewrite unpack_I_slice. Qed.

Lemma unpack_f_slice (data : bytes) (off : nat) :
  (off + 4 ≤ length data)%nat →
  Struct.unpack_f (slice off (off + 4) data) = Some (f32_at data off).
Proof. intros H. unfold Struct.unpack_f. by rewrite unpack_I_slice. Qed.

Lemma unpack_I_length (b : bytes) (w : Z) :
  Struct.unpack_I b = Some w → length b = 4%nat.
Proof.
  destruct b as [|? [|? [|? [|? [|? ?]]]]]; by cbn.
Qed.

Lemma take_4_length (data : bytes) (w : Z) :
  Struct.unpack_I (take 4 data) = Some w → (4 ≤ length data)%nat.
Proof.
  intros H%unpack_I_length. rewrite length_take in H. lia.
Qed.

(** ** Rounding of binary floating-point numbers *)

Lemma digits2_log2 (p : positive) :
  Z.pos (digits2_pos p) = Z.log2 (Z.pos p) + 1.
Proof.
  induction p as [p IH|p IH|]; cbn [digits2_pos]; [| |reflexivity].
  - rewrite Pos2Z.inj_succ, IH, Pos2Z.inj_xI, Z.log2_succ_double by lia. lia.
  - rewrite Pos2Z.inj_succ, IH, Pos2Z.inj_xO, Z.log2_double by lia. lia.
Qed.

Lemma digits2_bounds (p : positive) :
  2 ^ (Z.pos (digits2_pos p) - 1) ≤ Z.pos p < 2 ^ Z.pos (digits2_pos p).
Proof.
  rewrite digits2_log2.
  replace (Z.log2 (Z.pos p) + 1 - 1) with (Z.log2 (Z.pos p)) by lia.
  apply (Z.log2_spec (Z.pos p)). lia.
Qed.

Lemma digits2_unique (p : positive) (d : Z) :
  2 ^ (d - 1) ≤ Z.pos p < 2 ^ d → Z.pos (digits2_pos p) = d.
Proof.
  intros H. rewrite digits2_log2.
  assert (0 ≤ d - 1).
  { destruct (Z.le_gt_cases 0 (d - 1)) as [|Hneg]; [done|].
    destruct (Z.le_gt_cases 0 d).
    - replace d with 0 in H by lia. cbn in H. lia.
    - rewrite (Z.pow_neg_r 2 d) in H by lia. lia. }
  rewrite (Z.log2_unique (Z.pos p) (d - 1)); [lia | done |].
  by replace (Z.succ (d - 1)) with d by lia.
Qed.

Lemma shr_1_div (m : Z) (r s : bool) :
  0 ≤ m →
  shr_1 {| shr_m := m; shr_r := r; shr_s := s |}
  = {| shr_m := m / 2; shr_r := Z.odd m; shr_s := r || s |}.
Proof.
  intros Hm. destruct m as [|[p|p|]|]; try lia; cbn [shr_1].
  - reflexivity.
  - f_equal. rewrite Pos2Z.inj_xI.
    apply (Z.div_unique _ _ _ 1); lia.
  - f_equal. rewrite Pos2Z.inj_xO.
    apply (Z.div_unique _ _ _ 0); lia.
  - reflexivity.
Qed.

Lemma shifted_0 (p : Z) :
  shifted p 0 = {| shr_m := p; shr_r := false; shr_s := false |}.
Proof.
  unfold shifted. change (2 ^ 0) with 1.
  rewrite Z.div_1_r, Z.mod_1_r. reflexivity.
Qed.

Lemma shifted_succ (p n : Z) :
  0 ≤ p → 0 ≤ n → shr_1 (shifted p n) = shifted p (n + 1).
Proof.
  intros Hp Hn. unfold shifted.
  assert (Hpow : 0 < 2 ^ n) by (apply Z.pow_pos_nonneg; lia).
  assert (Hsucc : 2 ^ (n + 1) = 2 * 2 ^ n) by (rewrite Z.pow_add_r; lia).
  rewrite shr_1_div by (apply Z.div_pos; lia).
  rewrite Hsucc.
  pose proof (Z.div_mod p (2 ^ n) ltac:(lia)) as Hdm.
  pose proof (Z.mod_pos_bound p (2 ^ n) ltac:(lia)) as Hb.
  pose proof (Z.div_mod (p / 2 ^ n) 2 ltac:(lia)) as Hdm2.
  pose proof (Z.mod_pos_bound (p / 2 ^ n) 2 ltac:(lia)) as Hb2.
  assert (Hq : p / (2 * 2 ^ n) = p / 2 ^ n / 2).
  { rewrite (Z.mul_comm 2). symmetry. apply Z.div_div; lia. }
  assert (Hr : p mod (2 * 2 ^ n) = (p / 2 ^ n) mod 2 * 2 ^ n + p mod 2 ^ n).
  { symmetry. apply (Z.mod_unique _ _ (p / 2 ^ n / 2)); [nia | nia]. }
  rewrite Hq, Hr.
  assert (Hodd : Z.odd (p / 2 ^ n) = ((p / 2 ^ n) mod 2 =? 1)).
  { rewrite Zmod_odd. by destruct (Z.odd _). }
  f_equal.
  - rewrite Hodd.
    destruct (Z.eqb_spec ((p / 2 ^ n) mod 2) 1) as [He|He];
      destruct (Z.leb_spec (2 * 2 ^ n)
                  (2 * ((p / 2 ^ n) mod 2 * 2 ^ n + p mod 2 ^ n))); try done; nia.
  - set (b := (p / 2 ^ n) mod 2) in *. set (r := p mod 2 ^ n) in *.
    assert (Hmod : (2 * (b * 2 ^ n + r)) mod (2 * 2 ^ n) = 2 * r).
    { symmetry. apply (Z.mod_unique _ _ b); [nia | nia]. }
    rewrite Hmod.
    destruct (Z.leb_spec (2 ^ n) (2 * r)) as [Hge|Hlt]; cbn [orb].
    + destruct (Z.eqb_spec (2 * r) 0); [lia | done].
    + rewrite (Z.mod_small (2 * r)) by lia. reflexivity.
Qed.

Lemma iter_pos_shifted (k : positive) (p n : Z) :
  0 ≤ p → 0 ≤ n →
  SpecFloat.iter_pos shr_1 k (shifted p n) = shifted p (n + Z.pos k).
Proof.
  intros Hp. revert n.
  induction k as [k IH|k IH|]; intros n Hn; cbn [SpecFloat.iter_pos].
  - rewrite shifted_succ, !IH by lia. f_equal. lia.
  - rewrite !IH by lia. f_equal. lia.
  - by apply shifted_succ.
Qed.

Lemma round_shifted (p n : Z) :
  0 ≤ p → 0 ≤ n →
  round_nearest_even (shr_m (shifted p n)) (loc_of_shr_record (shifted p n))
  = rne p n.
Proof.
  intros Hp Hn. unfold shifted, rne. cbn [shr_m loc_of_shr_record].
  assert (Hpow : 0 < 2 ^ n) by (apply Z.pow_pos_nonneg; lia).
  pose proof (Z.mod_pos_bound p (2 ^ n) ltac:(lia)) as Hb.
  set (r := p mod 2 ^ n) in *.
  destruct (Z.leb_spec (2 ^ n) (2 * r)) as [Hge|Hlt].
  - destruct (Z.ltb_spec (2 * r) (2 ^ n)); [lia|].
    destruct (Z.ltb_spec (2 ^ n) (2 * r)) as [Hgt|Heq].
    + replace ((2 * r) mod 2 ^ n) with (2 * r - 2 ^ n).
      * destruct (Z.eqb_spec (2 * r - 2 ^ n) 0); [lia|]. reflexivity.
      * apply (Z.mod_unique _ _ 1); lia.
    + replace (2 * r) with (2 ^ n) by lia. rewrite Z.mod_same by lia.
      reflexivity.
  - destruct (Z.ltb_spec (2 * r) (2 ^ n)); [|lia].
    destruct (negb _); reflexivity.
Qed.

Section Round.
Variables prec emax : Z.

Lemma shr_fexp_shift (p : positive) (e n : Z) :
  n = fexp prec emax (Z.pos (digits2_pos p) + e) - e → 0 < n →
  shr_fexp prec emax (Z.pos p) e loc_Exact = (shifted (Z.pos p) n, e + n).
Proof.
  intros Hn Hpos. unfold shr_fexp. cbn [Zdigits2 shr_record_of_loc].
  rewrite <- Hn. destruct n as [|k|k]; try lia.
  cbn [shr]. rewrite <- shifted_0.
  rewrite iter_pos_shifted by lia. reflexivity.
Qed.

Lemma shr_fexp_keep (p : positive) (e : Z) :
  fexp prec emax (Z.pos (digits2_pos p) + e) - e ≤ 0 →
  shr_fexp prec emax (Z.pos p) e loc_Exact
  = ({| shr_m := Z.pos p; shr_r := false; shr_s := false |}, e).
Proof.
  intros Hn. unfold shr_fexp. cbn [Zdigits2 shr_record_of_loc].
  destruct (fexp _ _ _ - e) as [|k|k]; try lia; reflexivity.
Qed.

(** A mantissa that needs no shift is kept. *)
Lemma binary_round_aux_keep (s : bool) (p : positive) (e : Z) :
  fexp prec emax (Z.pos (digits2_pos p) + e) - e ≤ 0 →
  binary_round_aux prec emax s (Z.pos p) e loc_Exact
  = if e <=? emax - prec then S754_finite s p e else S754_infinity s.
Proof.
  intros Hn. unfold binary_round_aux.
  rewrite shr_fexp_keep by done.
  cbn [shr_m loc_of_shr_record round_nearest_even].
  rewrite shr_fexp_keep by done. reflexivity.
Qed.

(** A mantissa that is shifted by [n] places is rounded to the nearest,
    ties to even; the rounded mantissa is kept when it needs no further
    shift. *)
Lemma binary_round_aux_shift (s : bool) (p q : positive) (e n : Z) :
  n = fexp prec emax (Z.pos (digits2_pos p) + e) - e → 0 < n →
  rne (Z.pos p) n = Z.pos q →
  fexp prec emax (Z.pos (digits2_pos q) + (e + n)) - (e + n) ≤ 0 →
  binary_round_aux prec emax s (Z.pos p) e loc_Exact
  = if e + n <=? emax - prec then S754_finite s q (e + n)
    else S754_infinity s.
Proof.
  intros Hn Hpos Hq Hkeep. unfold binary_round_aux.
  rewrite (shr_fexp_shift p e n) by done.
  rewrite round_shifted, Hq by lia.
  rewrite shr_fexp_keep by done. reflexivity.
Qed.

Lemma binary_round_aux_zero (s : bool) (p : positive) (e n : Z) :
  n = fexp prec emax (Z.pos (digits2_pos p) + e) - e → 0 < n →
  rne (Z.pos p) n = 0 →
  binary_round_aux prec emax s (Z.pos p) e loc_Exact = S754_zero s.
Proof.
  intros Hn Hpos Hq. unfold binary_round_aux.
  rewrite (shr_fexp_shift p e n) by done.
  rewrite round_shifted, Hq by lia.
  unfold shr_fexp. cbn [Zdigits2 shr_record_of_loc].
  destruct (fexp _ _ _ - (e + n)) as [|k|k]; cbn [shr]; try reflexivity.
  rewrite <- shifted_0, iter_pos_shifted by lia.
  unfold shifted. cbn [shr_m]. rewrite Z.div_0_l; [reflexivity|].
  apply Z.pow_nonzero; lia.
Qed.

(** The rounded mantissa may reach [2^prec]; it is then shifted once
    more. *)
Lemma binary_round_aux_carry (s : bool) (p : positive) (e n : Z) :
  0 < prec →
  n = fexp prec emax (Z.pos (digits2_pos p) + e) - e → 0 < n →
  rne (Z.pos p) n = 2 ^ prec →
  3 - emax - prec ≤ e + n + 1 →
  binary_round_aux prec emax s (Z.pos p) e loc_Exact
  = if e + n + 1 <=? emax - prec
    then S754_finite s (Z.to_pos (2 ^ (prec - 1))) (e + n + 1)
    else S754_infinity s.
Proof.
  intros Hprec Hn Hpos Hq Hmin. unfold binary_round_aux.
  rewrite (shr_fexp_shift p e n) by done.
  rewrite round_shifted, Hq by lia.
  assert (Hpow : 0 < 2 ^ prec) by (apply Z.pow_pos_nonneg; lia).
  assert (Hpow' : 0 < 2 ^ (prec - 1)) by (apply Z.pow_pos_nonneg; lia).
  assert (Hdouble : 2 ^ prec = 2 * 2 ^ (prec - 1)).
  { rewrite <- Z.pow_succ_r by lia. f_equal. lia. }
  destruct (2 ^ prec) as [|t|t] eqn:Ht; try lia.
  assert (Hd : Z.pos (digits2_pos t) = prec + 1).
  { apply digits2_unique. rewrite Z.add_simpl_r, Z.pow_add_r by lia. lia. }
  rewrite (shr_fexp_shift t (e + n) 1).
  - unfold shifted. cbn [shr_m]. change (2 ^ 1) with 2.
    replace (Z.pos t / 2) with (2 ^ (prec - 1))
      by (apply (Z.div_unique _ _ _ 0); lia).
    destruct (2 ^ (prec - 1)) as [|u|u] eqn:Hu; try lia.
    cbn [Z.to_pos]. replace (e + n + 1) with (e + n + 1) by lia. reflexivity.
  - rewrite Hd. unfold fexp, SpecFloat.emin. lia.
  - lia.
Qed.
End Round.

Lemma pos_iter_xO (m k : positive) :
  Z.pos (Pos.iter xO m k) = Z.pos m * 2 ^ Z.pos k.
Proof.
  induction k as [|k IH] using Pos.peano_ind.
  - cbn. lia.
  - rewrite Pos.iter_succ, Pos2Z.inj_xO, IH, Pos2Z.inj_succ, Z.pow_succ_r by lia.
    lia.
Qed.

Lemma rne_exact (q n : Z) : 0 ≤ n → rne (q * 2 ^ n) n = q.
Proof.
  intros Hn. assert (0 < 2 ^ n) by (apply Z.pow_pos_nonneg; lia).
  unfold rne. rewrite Z.div_mul, Z.mod_mul by lia.
  destruct (Z.ltb_spec (2 * 0) (2 ^ n)); [reflexivity | lia].
Qed.

Section Exact.
Variables prec emax : Z.
Hypothesis prec_pos : 0 < prec.

Lemma binary_round_no_align (s : bool) (p : positive) (e : Z) :
  0 ≤ fexp prec emax (Z.pos (digits2_pos p) + e) - e →
  binary_round prec emax s p e
  = binary_round_aux prec emax s (Z.pos p) e loc_Exact.
Proof.
  intros H. unfold binary_round, shl_align.
  destruct (fexp _ _ _ - e) as [|k|k]; try lia; reflexivity.
Qed.

(** A mantissa of fewer than [prec] digits, not in the subnormal range, is
    shifted left to [prec] digits. *)
Lemma binary_round_short (s : bool) (p : positive) (e : Z) :
  let d := Z.pos (digits2_pos p) in
  d ≤ prec → 3 - emax - prec ≤ d + e - prec → d + e ≤ emax →
  ∃ m : positive,
    Z.pos m = Z.pos p * 2 ^ (prec - d)
    ∧ Z.pos (digits2_pos m) = prec
    ∧ binary_round prec emax s p e = S754_finite s m (e - (prec - d)).
Proof.
  intros d Hd Hmin Hmax.
  pose proof (digits2_bounds p) as Hb. fold d in Hb.
  assert (Hfexp : fexp prec emax (d + e) = d + e - prec)
    by (unfold fexp, SpecFloat.emin; lia).
  destruct (Z.eq_dec d prec) as [Heq|Hne].
  - exists p. rewrite Heq, Z.sub_diag, Z.mul_1_r, Z.sub_0_r.
    split; [reflexivity|]. split; [exact Heq|].
    rewrite binary_round_no_align by (fold d; lia).
    rewrite binary_round_aux_keep by (fold d; lia).
    destruct (Z.leb_spec e (emax - prec)); [reflexivity | lia].
  - unfold binary_round, shl_align. fold d. rewrite Hfexp.
    destruct (d + e - prec - e) as [|k|k] eqn:Hk; try lia.
    exists (Pos.iter xO p k).
    assert (Hshift : Z.pos (Pos.iter xO p k) = Z.pos p * 2 ^ (prec - d)).
    { rewrite pos_iter_xO. do 2 f_equal. lia. }
    assert (Hdigits : Z.pos (digits2_pos (Pos.iter xO p k)) = prec).
    { apply digits2_unique. rewrite Hshift.
      assert (H1 : 2 ^ (prec - 1) = 2 ^ (d - 1) * 2 ^ (prec - d))
        by (rewrite <- Z.pow_add_r by lia; f_equal; lia).
      assert (H2 : 2 ^ prec = 2 ^ d * 2 ^ (prec - d))
        by (rewrite <- Z.pow_add_r by lia; f_equal; lia).
      assert (0 < 2 ^ (prec - d)) by (apply Z.pow_pos_nonneg; lia).
      rewrite H1, H2. nia. }
    split; [exact Hshift|]. split; [exact Hdigits|].
    rewrite binary_round_aux_keep
      by (rewrite Hdigits; unfold fexp, SpecFloat.emin; lia).
    replace (e - (prec - d)) with (d + e - prec) by lia.
    destruct (Z.leb_spec (d + e - prec) (emax - prec)); [reflexivity | lia].
Qed.

(** A mantissa [q * 2^n] whose last [n] digits are to go is rounded to
    [q]. *)
Lemma binary_round_trailing (s : bool) (p q : positive) (e n : Z) :
  0 < n → Z.pos p = Z.pos q * 2 ^ n →
  fexp prec emax (Z.pos (digits2_pos q) + (e + n)) = e + n →
  e + n ≤ emax - prec →
  binary_round prec emax s p e = S754_finite s q (e + n).
Proof.
  intros Hn Hp Hcanon Hmax.
  pose proof (digits2_bounds q) as Hq.
  assert (Hd : Z.pos (digits2_pos p) = Z.pos (digits2_pos q) + n).
  { apply digits2_unique. rewrite Hp.
    replace (Z.pos (digits2_pos q) + n - 1)
      with (Z.pos (digits2_pos q) - 1 + n) by lia.
    rewrite !Z.pow_add_r by lia.
    assert (0 < 2 ^ n) by (apply Z.pow_pos_nonneg; lia). nia. }
  assert (Hshift : fexp prec emax (Z.pos (digits2_pos p) + e) - e = n).
  { rewrite Hd. replace (Z.pos (digits2_pos q) + n + e)
      with (Z.pos (digits2_pos q) + (e + n)) by lia. lia. }
  rewrite binary_round_no_align by lia.
  rewrite (binary_round_aux_shift prec emax s p q e n).
  - destruct (Z.leb_spec (e + n) (emax - prec)); [reflexivity | lia].
  - lia.
  - lia.
  - rewrite Hp. apply rne_exact. lia.
  - lia.
Qed.
End Exact.

Lemma rne_spec (p n : Z) :
  p / 2 ^ n ≤ rne p n ≤ p / 2 ^ n + 1
  ∧ (2 ^ n < 2 * (p mod 2 ^ n) → rne p n = p / 2 ^ n + 1)
  ∧ (2 * (p mod 2 ^ n) < 2 ^ n → rne p n = p / 2 ^ n).
Proof.
  unfold rne.
  destruct (Z.ltb_spec (2 * (p mod 2 ^ n)) (2 ^ n));
    destruct (Z.ltb_spec (2 ^ n) (2 * (p mod 2 ^ n)));
    destruct (Z.even (p / 2 ^ n)); lia.
Qed.

Lemma digits2_le (p : positive) (d : Z) :
  Z.pos p < 2 ^ d → Z.pos (digits2_pos p) ≤ d.
Proof.
  intros Hp. pose proof (digits2_bounds p) as Hb.
  destruct (Z.le_gt_cases (Z.pos (digits2_pos p)) d); [done|].
  assert (2 ^ d ≤ 2 ^ (Z.pos (digits2_pos p) - 1)); [|lia].
  destruct (Z.le_gt_cases 0 d).
  - apply Z.pow_le_mono_r; lia.
  - rewrite (Z.pow_neg_r 2 d) by lia. apply Z.pow_nonneg. lia.
Qed.

Lemma normal_round_cases (prec p : Z) :
  let n := Z.log2 p + 1 - prec in
  normal_round prec p = (rne p n, n)
  ∨ (rne p n = 2 ^ prec ∧ normal_round prec p = (2 ^ (prec - 1), n + 1)).
Proof.
  intros n. unfold normal_round. fold n.
  destruct (Z.eqb_spec (rne p n) (2 ^ prec)); [right | left]; done.
Qed.

Section Rounded.
Variables prec emax : Z.
Hypothesis prec_pos : 0 < prec.

(** The result for a mantissa of more than [prec] digits above the
    subnormal range, overflow included. *)
Lemma binary_round_aux_rounded (s : bool) (p : positive) (e : Z) :
  let n := Z.pos (digits2_pos p) - prec in
  let r := normal_round prec (Z.pos p) in
  0 < n → 3 - emax - prec ≤ e + n →
  Z.pos (digits2_pos (Z.to_pos r.1)) = prec
  ∧ 0 < r.1
  ∧ binary_round_aux prec emax s (Z.pos p) e loc_Exact
    = if e + r.2 <=? emax - prec
      then S754_finite s (Z.to_pos r.1) (e + r.2)
      else S754_infinity s.
Proof.
  intros n r Hn Hmin.
  pose proof (digits2_bounds p) as Hb.
  assert (Hlog : Z.log2 (Z.pos p) + 1 - prec = n)
    by (unfold n; rewrite digits2_log2; lia).
  assert (Hshift : n = fexp prec emax (Z.pos (digits2_pos p) + e) - e)
    by (unfold fexp, SpecFloat.emin; lia).
  assert (Hpow : 0 < 2 ^ n) by (apply Z.pow_pos_nonneg; lia).
  assert (Hprec : 2 ^ prec = 2 * 2 ^ (prec - 1)).
  { rewrite <- Z.pow_succ_r by lia. f_equal. lia. }
  assert (Hpp : 0 < 2 ^ (prec - 1)) by (apply Z.pow_pos_nonneg; lia).
  assert (Hq : 2 ^ (prec - 1) ≤ Z.pos p / 2 ^ n < 2 ^ prec).
  { assert (H1 : 2 ^ (Z.pos (digits2_pos p) - 1) = 2 ^ (prec - 1) * 2 ^ n)
      by (rewrite <- Z.pow_add_r by lia; f_equal; lia).
    assert (H2 : 2 ^ Z.pos (digits2_pos p) = 2 ^ prec * 2 ^ n)
      by (rewrite <- Z.pow_add_r by lia; f_equal; lia).
    rewrite H1, H2 in Hb. split.
    - apply Z.div_le_lower_bound; lia.
    - apply Z.div_lt_upper_bound; lia. }
  destruct (rne_spec (Z.pos p) n) as (Hr & _).
  unfold r, normal_round. rewrite Hlog.
  destruct (Z.eqb_spec (rne (Z.pos p) n) (2 ^ prec)) as [Hcarry|Hno]; cbn [fst snd].
  - split; [|split; [lia|]].
    + apply digits2_unique. rewrite Z2Pos.id by lia. lia.
    + rewrite (binary_round_aux_carry prec emax s p e n) by (done || lia).
      replace (e + n + 1) with (e + (n + 1)) by lia. reflexivity.
  - destruct (rne (Z.pos p) n) as [|q|q] eqn:Hrne; try lia.
    assert (Hd : Z.pos (digits2_pos q) = prec).
    { apply digits2_unique. lia. }
    split; [exact Hd|]. split; [lia|].
    rewrite (binary_round_aux_shift prec emax s p q e n); try done.
    rewrite Hd. unfold fexp, SpecFloat.emin. lia.
Qed.

(** The same where the result is in range: the mantissa of a normal
    result. *)
Lemma binary_round_aux_normal (s : bool) (p : positive) (e : Z) :
  let n := Z.pos (digits2_pos p) - prec in
  0 < n → 3 - emax - prec ≤ e + n → e + n + 1 ≤ emax - prec →
  binary_round_aux prec emax s (Z.pos p) e loc_Exact
  = S754_finite s (Z.to_pos (normal_round prec (Z.pos p)).1)
      (e + (normal_round prec (Z.pos p)).2).
Proof.
  intros n Hn Hmin Hmax.
  destruct (binary_round_aux_rounded s p e Hn Hmin) as (_ & _ & ->).
  assert (Hlog : Z.log2 (Z.pos p) + 1 - prec = n)
    by (unfold n; rewrite digits2_log2; lia).
  destruct (normal_round_cases prec (Z.pos p)) as [Hr | [_ Hr]];
    rewrite Hr, Hlog; cbn [fst snd].
  - destruct (Z.leb_spec (e + n) (emax - prec)); [reflexivity | lia].
  - destruct (Z.leb_spec (e + (n + 1)) (emax - prec)); [reflexivity | lia].
Qed.

(** The result in the subnormal range. *)
Lemma binary_round_aux_subnormal (s : bool) (p : positive) (e : Z) :
  let n := 3 - emax - prec - e in
  let q := rne (Z.pos p) n in
  0 < n → Z.pos (digits2_pos p) - prec < n → 3 - emax - prec ≤ emax - prec →
  0 ≤ q < 2 ^ prec
  ∧ binary_round_aux prec emax s (Z.pos p) e loc_Exact
    = match q with
      | Z.pos m => S754_finite s m (3 - emax - prec)
      | _ => S754_zero s
      end.
Proof.
  intros n q Hn Hd Hrange.
  pose proof (digits2_bounds p) as Hb.
  assert (Hshift : n = fexp prec emax (Z.pos (digits2_pos p) + e) - e)
    by (unfold fexp, SpecFloat.emin, n; lia).
  assert (Hpow : 0 < 2 ^ n) by (apply Z.pow_pos_nonneg; lia).
  assert (Hpp : 0 < 2 ^ (prec - 1)) by (apply Z.pow_pos_nonneg; lia).
  assert (Hprec : 2 ^ prec = 2 * 2 ^ (prec - 1)).
  { rewrite <- Z.pow_succ_r by lia. f_equal. lia. }
  assert (Hquot : 0 ≤ Z.pos p / 2 ^ n < 2 ^ (prec - 1)).
  { split; [apply Z.div_pos; lia|].
    apply Z.div_lt_upper_bound; [lia|].
    assert (2 ^ Z.pos (digits2_pos p) ≤ 2 ^ (prec - 1 + n))
      by (apply Z.pow_le_mono_r; lia).
    rewrite Z.pow_add_r in * by lia. lia. }
  destruct (rne_spec (Z.pos p) n) as (Hr & _). fold q in Hr.
  split; [lia|].
  destruct q as [|m|m] eqn:Hq; try lia.
  - by apply (binary_round_aux_zero prec emax s p e n).
  - rewrite (binary_round_aux_shift prec emax s p m e n); try done.
    + replace (e + n) with (3 - emax - prec) by (unfold n; lia).
      destruct (Z.leb_spec (3 - emax - prec) (emax - prec)); [reflexivity | lia].
    + pose proof (digits2_le m prec ltac:(lia)).
      unfold fexp, SpecFloat.emin, n. lia.
Qed.
End Rounded.

(** ** Binary32 numbers *)

Lemma land_255 (x : Z) : 0 ≤ Z.land x 255 < 256.
Proof.
  change 255 with (Z.ones 8). rewrite Z.land_ones by lia.
  apply Z.mod_pos_bound. lia.
Qed.

Lemma land_fraction (x : Z) : 0 ≤ Z.land x (2 ^ 23 - 1) < 2 ^ 23.
Proof.
  change (2 ^ 23 - 1) with (Z.ones 23). rewrite Z.land_ones by lia.
  apply Z.mod_pos_bound. lia.
Qed.

(** The finite numbers that [of_bits] gives are canonical for precision
    24. *)
Lemma of_bits_finite (w : Z) (s : bool) (m : positive) (e : Z) :
  F32.of_bits w = S754_finite s m e →
  Z.pos m < 2 ^ 24 ∧ - 149 ≤ e ≤ 104 ∧ (2 ^ 23 ≤ Z.pos m ∨ e = - 149).
Proof.
  unfold F32.of_bits.
  pose proof (land_255 (Z.shiftr w 23)) as Hex.
  pose proof (land_fraction w) as Hfr.
  set (ex := Z.land (Z.shiftr w 23) 255) in *.
  set (fr := Z.land w (2 ^ 23 - 1)) in *.
  destruct (Z.eqb_spec ex 255); [by destruct (fr =? 0)|].
  destruct (Z.eqb_spec ex 0).
  - destruct fr as [|t|t] eqn:Ht; try done.
    intros [= _ <- <-]. lia.
  - destruct (fr + 2 ^ 23) as [|t|t] eqn:Ht; try done.
    intros [= _ <- <-]. lia.
Qed.

(** Widening a binary32 to a binary64 is exact. *)
Lemma to_double_finite (s : bool) (m : positive) (e : Z) :
  let d := Z.pos (digits2_pos m) in
  Z.pos m < 2 ^ 24 → - 149 ≤ e ≤ 104 →
  ∃ m' : positive,
    Z.pos m' = Z.pos m * 2 ^ (53 - d)
    ∧ Z.pos (digits2_pos m') = 53
    ∧ F32.to_double (S754_finite s m e) = S754_finite s m' (e - (53 - d)).
Proof.
  intros d Hm He. pose proof (digits2_le m 24 Hm) as Hd. fold d in Hd.
  assert (1 ≤ d) by (unfold d; lia).
  unfold F32.to_double, F64.prec, F64.emax.
  apply (binary_round_short 53 1024 ltac:(lia) s m e); fold d; lia.
Qed.

(** The three fields of a 32-bit pattern. *)
Lemma word_fields (sign : bool) (ex fr : Z) :
  0 ≤ ex < 256 → 0 ≤ fr < 2 ^ 23 →
  let w := (if sign then 2 ^ 31 else 0) + ex * 2 ^ 23 + fr in
  0 ≤ w < 2 ^ 32
  ∧ Z.testbit w 31 = sign
  ∧ Z.land (Z.shiftr w 23) 255 = ex
  ∧ Z.land w (2 ^ 23 - 1) = fr.
Proof.
  intros Hex Hfr w.
  assert (Hw : 0 ≤ w < 2 ^ 32) by (unfold w; destruct sign; lia).
  split; [exact Hw|]. split; [|split].
  - rewrite Z.testbit_odd, Z.shiftr_div_pow2 by lia.
    replace (w / 2 ^ 31) with (if sign then 1 else 0); [by destruct sign|].
    apply (Z.div_unique _ _ _ (ex * 2 ^ 23 + fr)); unfold w; destruct sign; lia.
  - change 255 with (Z.ones 8). rewrite Z.land_ones, Z.shiftr_div_pow2 by lia.
    replace (w / 2 ^ 23) with ((if sign then 256 else 0) + ex)
      by (apply (Z.div_unique _ _ _ fr); unfold w; destruct sign; lia).
    symmetry. apply (Z.mod_unique _ _ (if sign then 1 else 0));
      destruct sign; lia.
  - change (2 ^ 23 - 1) with (Z.ones 23). rewrite Z.land_ones by lia.
    symmetry.
    apply (Z.mod_unique _ _ ((if sign then 256 else 0) + ex));
      unfold w; destruct sign; lia.
Qed.

Lemma word_split (w : Z) :
  0 ≤ w < 2 ^ 32 →
  w = (if Z.testbit w 31 then 2 ^ 31 else 0)
      + Z.land (Z.shiftr w 23) 255 * 2 ^ 23 + Z.land w (2 ^ 23 - 1).
Proof.
  intros Hw.
  change 255 with (Z.ones 8). change (2 ^ 23 - 1) with (Z.ones 23).
  rewrite !Z.land_ones, Z.shiftr_div_pow2, Z.testbit_odd, Z.shiftr_div_pow2 by lia.
  assert (Hhigh : w / 2 ^ 31 = 0 ∨ w / 2 ^ 31 = 1).
  { assert (0 ≤ w / 2 ^ 31 < 2); [|lia]. split.
    - apply Z.div_pos; lia.
    - apply Z.div_lt_upper_bound; lia. }
  assert (Hdiv : w / 2 ^ 31 = w / 2 ^ 23 / 2 ^ 8)
    by (rewrite Z.div_div by lia; reflexivity).
  pose proof (Z.div_mod w (2 ^ 23) ltac:(lia)) as H1.
  pose proof (Z.div_mod (w / 2 ^ 23) (2 ^ 8) ltac:(lia)) as H2.
  rewrite <- Hdiv in H2.
  destruct Hhigh as [H0 | H0]; rewrite H0 in *; cbn [Z.odd]; lia.
Qed.

Lemma digits2_24 (m : positive) :
  (Z.pos (digits2_pos m) =? 24) = (2 ^ 23 <=? Z.pos m) && (Z.pos m <? 2 ^ 24).
Proof.
  pose proof (digits2_bounds m) as Hb.
  destruct (Z.eqb_spec (Z.pos (digits2_pos m)) 24) as [He|Hne].
  - rewrite He in Hb. change (24 - 1) with 23 in Hb.
    destruct (Z.leb_spec (2 ^ 23) (Z.pos m)), (Z.ltb_spec (Z.pos m) (2 ^ 24));
      try done; lia.
  - destruct (Z.leb_spec (2 ^ 23) (Z.pos m)), (Z.ltb_spec (Z.pos m) (2 ^ 24));
      try done.
    destruct Hne. apply digits2_unique. change (24 - 1) with 23. lia.
Qed.

(** A pattern that is no NaN is the pattern of its number. *)
Lemma to_bits_of_bits (nan w : Z) :
  0 ≤ w < 2 ^ 32 → F32.of_bits w ≠ S754_nan →
  F32.to_bits nan (F32.of_bits w) = w.
Proof.
  intros Hw. rewrite (word_split w Hw) at 3.
  unfold F32.of_bits.
  pose proof (land_255 (Z.shiftr w 23)) as Hex.
  pose proof (land_fraction w) as Hfr.
  set (ex := Z.land (Z.shiftr w 23) 255) in *.
  set (fr := Z.land w (2 ^ 23 - 1)) in *.
  set (s := Z.testbit w 31).
  destruct (Z.eqb_spec ex 255) as [He|He].
  { destruct (Z.eqb_spec fr 0); [|done]. intros _. cbn [F32.to_bits]. lia. }
  destruct (Z.eqb_spec ex 0) as [He0|He0].
  - destruct fr as [|m|m] eqn:Hm; try lia; intros _; cbn [F32.to_bits].
    + lia.
    + unfold F32.prec. rewrite digits2_24.
      destruct (Z.leb_spec (2 ^ 23) (Z.pos m)); [lia|]. cbn [andb]. lia.
  - destruct (fr + 2 ^ 23) as [|m|m] eqn:Hm; try lia; intros _;
      cbn [F32.to_bits].
    unfold F32.prec. rewrite digits2_24.
    destruct (Z.leb_spec (2 ^ 23) (Z.pos m)); [|lia].
    destruct (Z.ltb_spec (Z.pos m) (2 ^ 24)); [|lia]. cbn [andb]. lia.
Qed.

(** The shape of a number that is canonical for precision 24. *)
Lemma valid_binary32 (s : bool) (m : positive) (e : Z) :
  valid_binary F32.prec F32.emax (S754_finite s m e) = true →
  Z.pos m < 2 ^ 24 ∧ - 149 ≤ e ≤ 104 ∧ (2 ^ 23 ≤ Z.pos m ∨ e = - 149).
Proof.
  unfold valid_binary, bounded, canonical_mantissa, fexp, SpecFloat.emin,
    F32.prec, F32.emax.
  intros [He%Z.eqb_eq Hmax%Z.leb_le]%andb_true_iff.
  pose proof (digits2_bounds m) as Hb.
  set (d := Z.pos (digits2_pos m)) in *.
  assert (Hd : d ≤ 24) by lia.
  assert (2 ^ d ≤ 2 ^ 24) by (apply Z.pow_le_mono_r; lia).
  split; [lia|]. split; [lia|].
  destruct (Z.eq_dec d 24) as [Heq|Hne].
  - left. rewrite Heq in Hb. change (24 - 1) with 23 in Hb. lia.
  - right. lia.
Qed.

(** The pattern of a binary32 number has 32 bits and stands for the
    number; the pattern of a NaN stands for a NaN. *)
Lemma of_bits_to_bits (nan : Z) (y : spec_float) :
  valid_binary F32.prec F32.emax y = true →
  0 ≤ F32.to_bits nan y < 2 ^ 32 ∧ F32.of_bits (F32.to_bits nan y) = y.
Proof.
  destruct y as [s|s| |s m e]; intros Hvalid; cbn [F32.to_bits].
  - destruct (word_fields s 0 0 ltac:(lia) ltac:(lia)) as (Hw & Hs & Hex & Hfr).
    rewrite Z.mul_0_l, !Z.add_0_r in *. split; [exact Hw|].
    unfold F32.of_bits. rewrite Hs, Hex, Hfr. reflexivity.
  - destruct (word_fields s 255 0 ltac:(lia) ltac:(lia)) as (Hw & Hs & Hex & Hfr).
    rewrite !Z.add_0_r in *. split; [exact Hw|].
    unfold F32.of_bits. rewrite Hs, Hex, Hfr. reflexivity.
  - unfold F32.nan_bits.
    pose proof (land_fraction nan) as Hfr'.
    set (fr := if Z.land nan (2 ^ 23 - 1) =? 0 then 2 ^ 22
               else Z.land nan (2 ^ 23 - 1)).
    assert (Hrange : 0 < fr < 2 ^ 23).
    { unfold fr. destruct (Z.eqb_spec (Z.land nan (2 ^ 23 - 1)) 0); lia. }
    destruct (word_fields (Z.testbit nan 31) 255 fr ltac:(lia) ltac:(lia))
      as (Hw & Hs & Hex & Hfr).
    split; [exact Hw|].
    unfold F32.of_bits. rewrite Hex, Hfr.
    destruct (Z.eqb_spec fr 0); [lia | reflexivity].
  - destruct (valid_binary32 s m e Hvalid) as (Hm & He & Hcanon).
    unfold F32.prec. rewrite digits2_24.
    destruct (Z.ltb_spec (Z.pos m) (2 ^ 24)); [|lia]. rewrite andb_true_r.
    destruct (Z.leb_spec (2 ^ 23) (Z.pos m)) as [Hnormal|Hsub].
    + destruct (word_fields s (e + 150) (Z.pos m - 2 ^ 23) ltac:(lia) ltac:(lia))
        as (Hw & Hs & Hex & Hfr).
      split; [exact Hw|].
      unfold F32.of_bits. rewrite Hs, Hex, Hfr.
      destruct (Z.eqb_spec (e + 150) 255); [lia|].
      destruct (Z.eqb_spec (e + 150) 0); [lia|].
      replace (Z.pos m - 2 ^ 23 + 2 ^ 23) with (Z.pos m) by lia.
      f_equal. lia.
    + destruct Hcanon as [?| ->]; [lia|].
      destruct (word_fields s 0 (Z.pos m) ltac:(lia) ltac:(lia))
        as (Hw & Hs & Hex & Hfr).
      rewrite Z.mul_0_l, Z.add_0_r in *.
      split; [exact Hw|].
      unfold F32.of_bits. rewrite Hs, Hex, Hfr. reflexivity.
Qed.

(** Narrowing undoes widening. *)
Lemma of_double_to_double (y : spec_float) :
  valid_binary F32.prec F32.emax y = true →
  F32.of_double (F32.to_double y) = y.
Proof.
  destruct y as [s|s| |s m e]; try done. intros Hvalid.
  destruct (valid_binary32 s m e Hvalid) as (Hm & He & Hcanon).
  destruct (to_double_finite s m e Hm He) as (m' & Hm' & _ & ->).
  pose proof (digits2_le m 24 Hm) as Hd.
  set (d := Z.pos (digits2_pos m)) in *.
  unfold F32.of_double.
  rewrite (binary_round_trailing F32.prec F32.emax s m' m (e - (53 - d)) (53 - d)).
  - f_equal. lia.
  - lia.
  - exact Hm'.
  - replace (e - (53 - d) + (53 - d)) with e by lia.
    unfold valid_binary, bounded, canonical_mantissa in Hvalid.
    apply andb_true_iff in Hvalid as [Hc%Z.eqb_eq _]. exact Hc.
  - unfold F32.prec, F32.emax. lia.
Qed.

(** The shape of a number that is canonical for precision 53. *)
Lemma valid_binary64 (s : bool) (m : positive) (e : Z) :
  valid_binary F64.prec F64.emax (S754_finite s m e) = true →
  (Z.pos (digits2_pos m) = 53 ∧ - 1074 ≤ e ≤ 971)
  ∨ (Z.pos (digits2_pos m) < 53 ∧ e = - 1074).
Proof.
  unfold valid_binary, bounded, canonical_mantissa, fexp, SpecFloat.emin,
    F64.prec, F64.emax.
  intros [He%Z.eqb_eq Hmax%Z.leb_le]%andb_true_iff. lia.
Qed.

(** The mantissas of binary64 that round to [2^24]. *)
Lemma rne_carry (m : Z) :
  0 ≤ m < 2 ^ 53 → rne m 29 = 2 ^ 24 ↔ 2 ^ 53 - 2 ^ 28 ≤ m.
Proof.
  intros Hm. unfold rne.
  pose proof (Z.div_mod m (2 ^ 29) ltac:(lia)) as Hdm.
  pose proof (Z.mod_pos_bound m (2 ^ 29) ltac:(lia)) as Hr.
  assert (Hq : 0 ≤ m / 2 ^ 29 < 2 ^ 24).
  { split; [apply Z.div_pos; lia | apply Z.div_lt_upper_bound; lia]. }
  set (q := m / 2 ^ 29) in *. set (r := m mod 2 ^ 29) in *.
  destruct (Z.ltb_spec (2 * r) (2 ^ 29)); [lia|].
  destruct (Z.ltb_spec (2 ^ 29) (2 * r)); [lia|].
  destruct (Z.eq_dec q (2 ^ 24 - 1)) as [->|Hne].
  - change (Z.even (2 ^ 24 - 1)) with false. lia.
  - destruct (Z.even q); lia.
Qed.

Lemma limit_compare (m : positive) (e : Z) :
  SFleb binary32_limit (S754_finite false m e)
  = (75 <? e) || ((e =? 75) && (2 ^ 53 - 2 ^ 28 <=? Z.pos m)).
Proof.
  unfold SFleb, SFcompare, binary32_limit.
  destruct (Z.compare_spec 75 e) as [<-|Hlt|Hgt].
  - change (75 <? 75) with false. change (75 =? 75) with true. cbn [orb andb].
    change (2 ^ 53 - 2 ^ 28) with (Z.pos 9007198986305536).
    change (Pos.compare_cont Eq 9007198986305536 m)
      with (Z.pos 9007198986305536 ?= Z.pos m).
    destruct (Z.compare_spec (Z.pos 9007198986305536) (Z.pos m)),
      (Z.leb_spec (Z.pos 9007198986305536) (Z.pos m)); try done; lia.
  - destruct (Z.ltb_spec 75 e); [done | lia].
  - destruct (Z.ltb_spec 75 e); [lia|].
    destruct (Z.eqb_spec e 75); [lia | done].
Qed.

(** Narrowing a binary64: the result is a binary32, an infinity exactly
    from [binary32_limit] on. *)
Lemma of_double_finite (s : bool) (m : positive) (e : Z) :
  valid_binary F64.prec F64.emax (S754_finite s m e) = true →
  let y := F32.of_double (S754_finite s m e) in
  valid_binary F32.prec F32.emax y = true
  ∧ (if SFleb binary32_limit (S754_finite false m e)
     then y = S754_infinity s
     else F64.is_finite y = true).
Proof.
  intros Hvalid y.
  pose proof (digits2_bounds m) as Hb.
  rewrite limit_compare.
  assert (Hround : y = binary_round_aux F32.prec F32.emax s (Z.pos m) e loc_Exact).
  { unfold y, F32.of_double. apply binary_round_no_align.
    destruct (valid_binary64 s m e Hvalid) as [[Hd He] | [Hd He]];
      unfold fexp, SpecFloat.emin, F32.prec, F32.emax; lia. }
  destruct (valid_binary64 s m e Hvalid) as [[Hd He] | [Hd He]].
  - rewrite Hd in Hb. change (53 - 1) with 52 in Hb.
    destruct (Z.le_gt_cases (- 178) e) as [Hnormal|Hsub].
    + destruct (binary_round_aux_rounded F32.prec F32.emax ltac:(done) s m e)
        as (Hdr & Hpos & Hy);
        [unfold F32.prec; lia | unfold F32.prec, F32.emax; lia |].
      rewrite <- Hround in Hy.
      destruct (normal_round_cases F32.prec (Z.pos m)) as [Hr | [Hcarry Hr]];
        rewrite Hr in *; cbn [fst snd] in *;
        rewrite digits2_log2 in Hd;
        replace (Z.log2 (Z.pos m) + 1 - F32.prec) with 29 in *
          by (unfold F32.prec; lia).
      * assert (Hno : ¬ 2 ^ 53 - 2 ^ 28 ≤ Z.pos m).
        { intros Hge%rne_carry; [|lia].
          pose proof (digits2_bounds (Z.to_pos (rne (Z.pos m) 29))) as Hbr.
          rewrite Hdr, Z2Pos.id in Hbr by lia. unfold F32.prec in Hbr. lia. }
        rewrite Hy.
        destruct (Z.leb_spec (e + 29) (F32.emax - F32.prec)) as [Hfit|Hfit];
          unfold F32.emax, F32.prec in Hfit.
        -- split.
           ++ unfold valid_binary, bounded, canonical_mantissa.
              rewrite Hdr. unfold fexp, SpecFloat.emin, F32.prec, F32.emax.
              apply andb_true_iff. split; [apply Z.eqb_eq | apply Z.leb_le]; lia.
           ++ destruct (Z.ltb_spec 75 e); [lia|].
              destruct (Z.eqb_spec e 75); [|done].
              destruct (Z.leb_spec (2 ^ 53 - 2 ^ 28) (Z.pos m)); [lia | done].
        -- split; [done|].
           destruct (Z.ltb_spec 75 e); [done | lia].
      * assert (Hge : 2 ^ 53 - 2 ^ 28 ≤ Z.pos m) by (apply rne_carry; [lia|done]).
        rewrite Hy.
        destruct (Z.leb_spec (e + (29 + 1)) (F32.emax - F32.prec))
          as [Hfit|Hfit]; unfold F32.emax, F32.prec in Hfit.
        -- split.
           ++ unfold valid_binary, bounded, canonical_mantissa.
              rewrite Hdr. unfold fexp, SpecFloat.emin, F32.prec, F32.emax.
              apply andb_true_iff. split; [apply Z.eqb_eq | apply Z.leb_le]; lia.
           ++ destruct (Z.ltb_spec 75 e); [lia|].
              destruct (Z.eqb_spec e 75); [lia | done].
        -- split; [done|].
           destruct (Z.ltb_spec 75 e); [done|].
           destruct (Z.eqb_spec e 75); [|lia].
           by destruct (Z.leb_spec (2 ^ 53 - 2 ^ 28) (Z.pos m)); [|lia].
    + destruct (binary_round_aux_subnormal F32.prec F32.emax ltac:(done) s m e)
        as (Hq & Hy); try (unfold F32.prec, F32.emax; lia).
      rewrite <- Hround in Hy.
      destruct (Z.ltb_spec 75 e); [lia|].
      destruct (Z.eqb_spec e 75); [lia|]. cbn [orb andb].
      rewrite Hy.
      destruct (rne (Z.pos m) (3 - F32.emax - F32.prec - e)) as [|q|q] eqn:Hrne;
        try done.
      split; [|done].
      pose proof (digits2_le q 24 ltac:(unfold F32.prec in Hq; lia)).
      unfold valid_binary, bounded, canonical_mantissa, fexp, SpecFloat.emin,
        F32.prec, F32.emax.
      apply andb_true_iff. split; [apply Z.eqb_eq | apply Z.leb_le]; lia.
  - destruct (binary_round_aux_subnormal F32.prec F32.emax ltac:(done) s m e)
      as (Hq & Hy); try (unfold F32.prec, F32.emax; lia).
    rewrite <- Hround in Hy.
    destruct (Z.ltb_spec 75 e); [lia|].
    destruct (Z.eqb_spec e 75); [lia|]. cbn [orb andb].
    rewrite Hy.
    destruct (rne (Z.pos m) (3 - F32.emax - F32.prec - e)) as [|q|q] eqn:Hrne;
      try done.
    split; [|done].
    pose proof (digits2_le q 24 ltac:(unfold F32.prec in Hq; lia)).
    unfold valid_binary, bounded, canonical_mantissa, fexp, SpecFloat.emin,
      F32.prec, F32.emax.
    apply andb_true_iff. split; [apply Z.eqb_eq | apply Z.leb_le]; lia.
Qed.

(** [struct.pack('<f', x)] in full: [OverflowError] exactly for the
    finite numbers from [binary32_limit] on; otherwise four bytes, the
    pattern of [x] rounded to binary32. *)
Lemma pack_f_cases (nan : Z) (x : spec_float) :
  valid_binary F64.prec F64.emax x = true →
  valid_binary F32.prec F32.emax (F32.of_double x) = true
  ∧ if overflows_binary32 x then Struct.pack_f nan x = None
    else Struct.pack_f nan x
         = Some (Struct.le_bytes (F32.to_bits nan (F32.of_double x))).
Proof.
  intros Hvalid. unfold overflows_binary32, Struct.pack_f.
  destruct x as [s|s| |s m e]; try done.
  destruct (of_double_finite s m e Hvalid) as [Hy Hcases].
  cbv zeta in Hy, Hcases. split; [exact Hy|].
  cbn [F64.is_finite SFabs andb].
  destruct (SFleb binary32_limit (S754_finite false m e)).
  - by rewrite Hcases.
  - by destruct (F32.of_double (S754_finite s m e)).
Qed.

(** ** Dispatch on the packet type *)

Section Parse.
Variable pow : spec_float → spec_float → spec_float.

Lemma parse_dispatch (data : bytes) (self : TelemetryParser.t) (w : Z) :
  Struct.unpack_I (take 4 data) = Some w →
  TelemetryParser.parse pow data self =
    if w =? ACUDPType.HANDSHAKER
    then (Some (TelemetryParser._parse_handshaker (drop 4 data)), self)
    else if w =? ACUDPType.UPDATE
    then let '(r, self') := TelemetryParser._parse_update pow (drop 4 data) self in
         (Some r, self')
    else if w =? ACUDPType.SPOT
    then (Some (TelemetryParser._parse_spot (drop 4 data)), self)
    else (None, self).
Proof.
  intros Hw. pose proof (take_4_length _ _ Hw) as Hlen.
  unfold TelemetryParser.parse.
  destruct (Nat.ltb_spec (length data) 4); [lia|].
  change (slice 0 4 data) with (take 4 data). by rewrite Hw.
Qed.

Lemma process_no_data (data : bytes) (now : Z) (self : ACTelemetryDashboard.t) r :
  TelemetryParser.parse pow data (ACTelemetryDashboard.telemetry_parser self)
    = (r, ACTelemetryDashboard.telemetry_parser self) →
  truthy r = false →
  ACTelemetryDashboard.process_telemetry_data pow data now self = self.
Proof.
  intros Hp Ht. unfold ACTelemetryDashboard.process_telemetry_data.
  rewrite Hp, Ht. by destruct self.
Qed.

(** C2.  A datagram tagged Update whose payload has fewer than 328 bytes
    decodes to the empty dictionary, the parser's failure value for an
    update (it is false for the receiver), the packet counter is not
    advanced, and [process_telemetry_data] returns the dashboard as it
    was: no key of [current_data] is written and [last_update] stays. *)
Theorem truncated_update_is_discarded
    (data : bytes) (now : Z) (self : ACTelemetryDashboard.t) :
  Struct.unpack_I (take 4 data) = Some ACUDPType.UPDATE →
  (length (drop 4 data) < 328)%nat →
  TelemetryParser.parse pow data (ACTelemetryDashboard.telemetry_parser self)
    = (Some ∅, ACTelemetryDashboard.telemetry_parser self)
  ∧ truthy (Some (∅ : dict)) = false
  ∧ ACTelemetryDashboard.process_telemetry_data pow data now self = self.
Proof.
  intros Htag Hshort.
  assert (Hp : TelemetryParser.parse pow data
                 (ACTelemetryDashboard.telemetry_parser self)
               = (Some ∅, ACTelemetryDashboard.telemetry_parser self)).
  { rewrite (parse_dispatch _ _ _ Htag). cbn.
    unfold TelemetryParser._parse_update.
    by destruct (Nat.ltb_spec (length (drop 4 data)) 328); [|lia]. }
  split; [done|]. split; [done|].
  by eapply process_no_data.
Qed.
End Parse.

Lemma truncated_update_is_discarded_witness :
  let data := Sample.tag Byte.x01 ++ Sample.zeros 327 in
  TelemetryParser.parse Sample.pow data
      (ACTelemetryDashboard.telemetry_parser Sample.dashboard)
    = (Some ∅, ACTelemetryDashboard.telemetry_parser Sample.dashboard)
  ∧ truthy (Some (∅ : dict)) = false
  ∧ ACTelemetryDashboard.process_telemetry_data Sample.pow data 7 Sample.dashboard
    = Sample.dashboard.
Proof.
  apply (truncated_update_is_discarded Sample.pow
           (Sample.tag Byte.x01 ++ Sample.zeros 327) 7 Sample.dashboard).
  - reflexivity.
  - vm_compute. lia.
Defined.

(** ** Spot, Dismiss and short Handshake datagrams *)

Section Inert.
Variable pow : spec_float → spec_float → spec_float.

(** C3, as amended.  A datagram tagged Spot (2) decodes to the dictionary
    that holds the packet type ['spot'] and nothing else, whatever its
    payload; a datagram tagged Dismiss (3) takes the [else] branch of
    [parse] and is rejected with [None], like an unknown tag.  Neither
    changes the parser. *)
Theorem spot_decodes_dismiss_is_rejected
    (data : bytes) (self : TelemetryParser.t) (w : Z) :
  Struct.unpack_I (take 4 data) = Some w →
  w = ACUDPType.SPOT ∨ w = ACUDPType.DISMISS →
  TelemetryParser.parse pow data self =
    (if w =? ACUDPType.SPOT
     then Some (<["packet_type" := VStr (str_lit "spot")]> ∅)
     else None, self)
  ∧ truthy (TelemetryParser.parse pow data self).1 = (w =? ACUDPType.SPOT).
Proof.
  intros Htag Hw. rewrite (parse_dispatch pow _ _ _ Htag).
  by destruct Hw as [-> | ->].
Qed.

(** C7, as amended.  A Handshake datagram whose payload has fewer than 8
    bytes decodes to the empty dictionary: it has no ['car_name'], no
    ['driver_name'] and no ['packet_type'] entry, it is false for the
    receiver, and [process_telemetry_data] leaves the dashboard as it was. *)
Theorem short_handshake_is_empty
    (data : bytes) (now : Z) (self : ACTelemetryDashboard.t) :
  Struct.unpack_I (take 4 data) = Some ACUDPType.HANDSHAKER →
  (length (drop 4 data) < 8)%nat →
  TelemetryParser.parse pow data (ACTelemetryDashboard.telemetry_parser self)
    = (Some ∅, ACTelemetryDashboard.telemetry_parser self)
  ∧ (∀ key, (TelemetryParser.parse pow data
                (ACTelemetryDashboard.telemetry_parser self)).1
             ≫= (.!! key) = None)
  ∧ truthy (Some (∅ : dict)) = false
  ∧ ACTelemetryDashboard.process_telemetry_data pow data now self = self.
Proof.
  intros Htag Hshort.
  assert (Hp : TelemetryParser.parse pow data
                 (ACTelemetryDashboard.telemetry_parser self)
               = (Some ∅, ACTelemetryDashboard.telemetry_parser self)).
  { rewrite (parse_dispatch pow _ _ _ Htag). cbn.
    unfold TelemetryParser._parse_handshaker.
    by destruct (Nat.ltb_spec (length (drop 4 data)) 8); [|lia]. }
  split; [done|]. split; [|split; [done | by eapply process_no_data]].
  intros key. rewrite Hp. cbn. apply lookup_empty.
Qed.
End Inert.

(** C3, refuted as stated: the 4-byte datagram [03 00 00 00] is tagged
    Dismiss and [parse] returns [None] for it. *)
Lemma dismiss_datagram_is_rejected :
  ¬ (∀ (data : bytes) (self : TelemetryParser.t),
       Struct.unpack_I (take 4 data) = Some ACUDPType.SPOT
       ∨ Struct.unpack_I (take 4 data) = Some ACUDPType.DISMISS →
       is_Some (TelemetryParser.parse Sample.pow data self).1).
Proof.
  intros H.
  destruct (H (Sample.tag Byte.x03) TelemetryParser.__init__
              (or_intror eq_refl)) as [d Hd].
  vm_compute in Hd. discriminate.
Qed.

Lemma spot_decodes_dismiss_is_rejected_witness :
  TelemetryParser.parse Sample.pow (Sample.tag Byte.x02 ++ Sample.zeros 3)
      TelemetryParser.__init__
    = (Some (<["packet_type" := VStr (str_lit "spot")]> ∅),
       TelemetryParser.__init__)
  ∧ truthy (TelemetryParser.parse Sample.pow
              (Sample.tag Byte.x02 ++ Sample.zeros 3)
              TelemetryParser.__init__).1 = true.
Proof.
  apply (spot_decodes_dismiss_is_rejected Sample.pow
           (Sample.tag Byte.x02 ++ Sample.zeros 3) TelemetryParser.__init__
           ACUDPType.SPOT).
  - reflexivity.
  - left. reflexivity.
Defined.

(** C7, refuted as stated: for the Handshake datagram [00 00 00 00] with an
    empty payload, the result of [parse] has no name entry at all. *)
Lemma short_handshake_has_no_names :
  ¬ (∀ (data : bytes) (self : TelemetryParser.t),
       Struct.unpack_I (take 4 data) = Some ACUDPType.HANDSHAKER →
       (length (drop 4 data) < 8)%nat →
       ∃ d, (TelemetryParser.parse Sample.pow data self).1 = Some d
            ∧ d !! "car_name" = Some (VStr [])
            ∧ d !! "driver_name" = Some (VStr [])).
Proof.
  intros H.
  assert (Hlen : (length (drop 4 (Sample.tag Byte.x00)) < 8)%nat)
    by (vm_compute; lia).
  destruct (H (Sample.tag Byte.x00) TelemetryParser.__init__ eq_refl Hlen)
    as (d & Hd & Hcar & _).
  vm_compute in Hd. injection Hd as <-. vm_compute in Hcar. discriminate.
Qed.

Lemma short_handshake_is_empty_witness :
  let data := Sample.tag Byte.x00 ++ Sample.zeros 7 in
  TelemetryParser.parse Sample.pow data
      (ACTelemetryDashboard.telemetry_parser Sample.dashboard)
    = (Some ∅, ACTelemetryDashboard.telemetry_parser Sample.dashboard)
  ∧ (∀ key, (TelemetryParser.parse Sample.pow data
                (ACTelemetryDashboard.telemetry_parser Sample.dashboard)).1
             ≫= (.!! key) = None)
  ∧ truthy (Some (∅ : dict)) = false
  ∧ ACTelemetryDashboard.process_telemetry_data Sample.pow data 7
      Sample.dashboard = Sample.dashboard.
Proof.
  apply (short_handshake_is_empty Sample.pow
           (Sample.tag Byte.x00 ++ Sample.zeros 7) 7 Sample.dashboard).
  - reflexivity.
  - vm_compute. lia.
Defined.

(** ** The connection monitor *)

Section Monitor.
Variable pow : spec_float → spec_float → spec_float.

Lemma process_keeps_flags (data : bytes) (now : Z) (self : ACTelemetryDashboard.t) :
  let self' := ACTelemetryDashboard.process_telemetry_data pow data now self in
  ACTelemetryDashboard.udp_socket self' = ACTelemetryDashboard.udp_socket self
  ∧ ACTelemetryDashboard.running self' = ACTelemetryDashboard.running self
  ∧ ACTelemetryDashboard.connected self' = ACTelemetryDashboard.connected self.
Proof.
  unfold ACTelemetryDashboard.process_telemetry_data.
  destruct (TelemetryParser.parse _ _ _) as [r parser].
  by destruct (truthy r).
Qed.

Lemma loop_body_flags (r : ACTelemetryDashboard.recv) (self : ACTelemetryDashboard.t) :
  let self' := ACTelemetryDashboard.loop_body pow r self in
  ACTelemetryDashboard.udp_socket self' = ACTelemetryDashboard.udp_socket self
  ∧ ACTelemetryDashboard.running self' = ACTelemetryDashboard.running self
  ∧ ConnectionMonitor.of_flag (ACTelemetryDashboard.connected self') =
      if ACTelemetryDashboard.udp_socket self
      then ConnectionMonitor.step
             (ConnectionMonitor.of_flag (ACTelemetryDashboard.connected self)) r
      else ConnectionMonitor.of_flag (ACTelemetryDashboard.connected self).
Proof.
  unfold ACTelemetryDashboard.loop_body.
  destruct (ACTelemetryDashboard.udp_socket self) eqn:Hs; [|by rewrite Hs].
  destruct r as [data now| |]; cbn zeta.
  - destruct (process_keeps_flags data now self) as (Hu & Hr & Hc).
    rewrite Hs in Hu. destruct (ACTelemetryDashboard.connected self) eqn:Hconn.
    + rewrite Hc. cbn. by rewrite Hu, Hr, Hc.
    + rewrite Hc. cbn. by rewrite Hu, Hr.
  - by destruct (ACTelemetryDashboard.connected self) eqn:Hconn;
      cbn; rewrite ?Hs, ?Hconn.
  - by destruct (ACTelemetryDashboard.connected self).
Qed.

(** C4.  The [connected] flag of the receiver is the specification's
    monitor.  It is Disconnected at construction; one pass of the loop body
    over a socket moves it as [ConnectionMonitor.step] does: to Connected on
    a received datagram, to Disconnected on a timeout, and nowhere on
    another error, so a datagram received while Connected keeps it
    Connected; and over any sequence of receive outcomes the flag after
    [telemetry_loop] is the monitor's state after the same sequence. *)
Theorem connection_monitor_refines_spec :
  ConnectionMonitor.of_flag
      (ACTelemetryDashboard.connected ACTelemetryDashboard.__init__)
    = ConnectionMonitor.initial
  ∧ (∀ r self,
       ConnectionMonitor.of_flag
         (ACTelemetryDashboard.connected (ACTelemetryDashboard.loop_body pow r self))
       = if ACTelemetryDashboard.udp_socket self
         then ConnectionMonitor.step
                (ConnectionMonitor.of_flag (ACTelemetryDashboard.connected self)) r
         else ConnectionMonitor.of_flag (ACTelemetryDashboard.connected self))
  ∧ (∀ rs self,
       ConnectionMonitor.of_flag
         (ACTelemetryDashboard.connected (ACTelemetryDashboard.telemetry_loop pow rs self))
       = if ACTelemetryDashboard.running self && ACTelemetryDashboard.udp_socket self
         then fold_left ConnectionMonitor.step rs
                (ConnectionMonitor.of_flag (ACTelemetryDashboard.connected self))
         else ConnectionMonitor.of_flag (ACTelemetryDashboard.connected self)).
Proof.
  split; [done|]. split.
  - intros r self. apply loop_body_flags.
  - induction rs as [|r rs IH]; intros self; cbn [ACTelemetryDashboard.telemetry_loop fold_left].
    + by destruct (_ && _).
    + destruct (loop_body_flags r self) as (Hu & Hr & Hc).
      destruct (ACTelemetryDashboard.running self) eqn:Hrun; [|done].
      rewrite IH, Hu, Hr, Hc.
      by destruct (ACTelemetryDashboard.udp_socket self) eqn:Hs.
Qed.
End Monitor.

(** ** The control session *)

Lemma get_command_type_known (command : string) :
  is_Some (VehicleControls._get_command_type command) ↔ command ∈ known_commands.
Proof.
  unfold VehicleControls._get_command_type, VehicleControls.command_map.
  split.
  - intros [code H%elem_of_list_to_map_2].
    by apply (list_elem_of_fmap_2 fst) in H.
  - intros H.
    match goal with |- is_Some ?o => destruct o eqn:E end; [by eexists|].
    by apply not_elem_of_list_to_map in E.
Qed.

Lemma get_command_type_code (command : string) (code : Z) :
  VehicleControls._get_command_type command = Some code → 1 ≤ code ≤ 13.
Proof.
  unfold VehicleControls._get_command_type, VehicleControls.command_map.
  intros H%elem_of_list_to_map_2.
  repeat (apply elem_of_cons in H as [[= -> ->] | H]; [by vm_compute|]).
  by apply elem_of_nil in H.
Qed.

Lemma length_le_bytes (w : Z) : length (Struct.le_bytes w) = 4%nat.
Proof. done. Qed.

Lemma pack_I_small (w : Z) :
  0 ≤ w < 2 ^ 32 → Struct.pack_I w = Some (Struct.le_bytes w).
Proof.
  intros Hw. unfold Struct.pack_I.
  destruct (Z.leb_spec 0 w); [|lia]. by destruct (Z.ltb_spec w (2 ^ 32)); [|lia].
Qed.

Lemma pack_f_length (nan : Z) (x : spec_float) (v : bytes) :
  Struct.pack_f nan x = Some v →
  v = Struct.le_bytes (F32.to_bits nan (F32.of_double x)) ∧ length v = 4%nat.
Proof.
  unfold Struct.pack_f. intros H.
  destruct (F32.of_double x); try destruct (F64.is_finite x); by simplify_eq.
Qed.

(** C6.  For a command name outside the registry [send_command] returns
    [False] at once and returns the session as it was: nothing is handed to
    [sendto] and [last_commands] is unchanged. *)
Theorem unknown_command_is_refused
    (nan : Z) (sendto_ok : bool) (now : spec_float) (command : string) (value : pyval)
    (self : VehicleControls.t) :
  command ∉ known_commands →
  VehicleControls._get_command_type command = None
  ∧ VehicleControls.send_command nan sendto_ok now command value self = (false, self)
  ∧ VehicleControls.sent
      (VehicleControls.send_command nan sendto_ok now command value self).2
    = VehicleControls.sent self
  ∧ VehicleControls.last_commands
      (VehicleControls.send_command nan sendto_ok now command value self).2
    = VehicleControls.last_commands self.
Proof.
  intros Hunknown.
  assert (Hnone : VehicleControls._get_command_type command = None).
  { apply eq_None_not_Some. by rewrite get_command_type_known. }
  assert (Hsend : VehicleControls.send_command nan sendto_ok now command value self
                  = (false, self)).
  { unfold VehicleControls.send_command. rewrite Hnone.
    by destruct (negb _). }
  by rewrite Hsend.
Qed.

Lemma unknown_command_is_refused_witness :
  VehicleControls._get_command_type "drs" = None
  ∧ VehicleControls.send_command 0 true (F64.of_Z 10) "drs" (VBool true)
      Sample.controls = (false, Sample.controls)
  ∧ VehicleControls.sent
      (VehicleControls.send_command 0 true (F64.of_Z 10) "drs" (VBool true)
         Sample.controls).2 = VehicleControls.sent Sample.controls
  ∧ VehicleControls.last_commands
      (VehicleControls.send_command 0 true (F64.of_Z 10) "drs" (VBool true)
         Sample.controls).2 = VehicleControls.last_commands Sample.controls.
Proof.
  apply (unknown_command_is_refused 0 true (F64.of_Z 10) "drs" (VBool true)
           Sample.controls).
  unfold known_commands. intros H.
  repeat (apply elem_of_cons in H as [H | H]; [discriminate H|]).
  by apply elem_of_nil in H.
Defined.

(** C10.  For a registered command name and a value that is neither a
    boolean, an integer nor a float, [_build_command_packet] returns
    [None], so [send_command] returns [False] and returns the session as it
    was: nothing is handed to [sendto], [last_commands] is unchanged, and
    [get_last_command] answers as before. *)
Theorem unsupported_value_is_refused
    (nan : Z) (sendto_ok : bool) (now : spec_float) (command : string) (value : pyval)
    (self : VehicleControls.t) :
  command ∈ known_commands →
  is_bool_int_or_float value = false →
  VehicleControls.send_command nan sendto_ok now command value self = (false, self)
  ∧ VehicleControls.sent
      (VehicleControls.send_command nan sendto_ok now command value self).2
    = VehicleControls.sent self
  ∧ VehicleControls.get_last_command command
      (VehicleControls.send_command nan sendto_ok now command value self).2
    = VehicleControls.get_last_command command self.
Proof.
  intros [code Hcode]%get_command_type_known Hvalue.
  assert (Hsend : VehicleControls.send_command nan sendto_ok now command value self
                  = (false, self)).
  { unfold VehicleControls.send_command. rewrite Hcode.
    destruct (negb _); [done|].
    unfold VehicleControls._build_command_packet.
    by destruct (Struct.pack_I code), value. }
  by rewrite Hsend.
Qed.

Lemma unsupported_value_is_refused_witness :
  VehicleControls.send_command 0 true (F64.of_Z 10) "tc_level"
      (VStr (str_lit "3")) Sample.controls = (false, Sample.controls)
  ∧ VehicleControls.sent
      (VehicleControls.send_command 0 true (F64.of_Z 10) "tc_level"
         (VStr (str_lit "3")) Sample.controls).2
    = VehicleControls.sent Sample.controls
  ∧ VehicleControls.get_last_command "tc_level"
      (VehicleControls.send_command 0 true (F64.of_Z 10) "tc_level"
         (VStr (str_lit "3")) Sample.controls).2
    = VehicleControls.get_last_command "tc_level" Sample.controls.
Proof.
  apply (unsupported_value_is_refused 0 true (F64.of_Z 10) "tc_level"
           (VStr (str_lit "3")) Sample.controls).
  - unfold known_commands. apply elem_of_cons. by left.
  - reflexivity.
Defined.

Lemma unpack_i_le_bytes (i : Z) :
  - 2 ^ 31 ≤ i < 2 ^ 31 → Struct.unpack_i (Struct.le_bytes (i mod 2 ^ 32)) = Some i.
Proof.
  intros Hi. unfold Struct.unpack_i.
  rewrite unpack_I_le_bytes by word_arith. cbn. f_equal.
  destruct (Z.ltb_spec (i mod 2 ^ 32) (2 ^ 31)); word_arith.
Qed.

Lemma build_command_packet_nonempty (nan code : Z) (value : pyval) (packet : bytes) :
  VehicleControls._build_command_packet nan code value = Some packet →
  ∃ b rest, packet = b :: rest.
Proof.
  unfold VehicleControls._build_command_packet.
  intros (p0 & Hp0 & H)%bind_Some.
  assert (Hp : p0 = Struct.le_bytes code).
  { unfold Struct.pack_I in Hp0. by destruct (_ && _); simplify_eq. }
  subst p0.
  destruct value; try done;
    apply bind_Some in H as (tag & _ & H);
    apply bind_Some in H as (v & _ & H); simplify_eq; by eexists _, _.
Qed.

(** C5.  For a registered command name, whose code is one of 1 .. 13, the
    packet built for a value is the 4-byte little-endian code, then the
    4-byte little-endian value-type tag, then the 4-byte little-endian
    value: tag 1 and the integer 0 or 1 for a boolean; tag 2 and the two's
    complement word for an integer of 32 bits; tag 3 and the binary32
    pattern for a float.  Every binary32 number is packed as its own
    pattern [w], which [unpack_f] reads back.  Any other float, a canonical
    binary64 as every float of Python is, is rounded: the word packed is
    the pattern of the binary32 that [x] rounds to, and the pattern of a
    NaN carries the sign and the fraction of the NaN; a finite float of
    magnitude [binary32_limit] or more, which rounds to no finite binary32,
    has no packet.  [le_bytes] is the layout that [unpack_I] and [unpack_i]
    read back.  Over a socket whose [sendto] returns, [send_command]
    appends exactly this packet to the datagrams sent and records the value
    and the time under the command name. *)
Theorem control_datagram_layout (command : string) (code : Z) :
  VehicleControls._get_command_type command = Some code →
  (1 ≤ code ≤ 13 ∧ Struct.unpack_I (Struct.le_bytes code) = Some code)
  ∧ (∀ (nan : Z) (b : bool),
       VehicleControls._build_command_packet nan code (VBool b) =
         Some (Struct.le_bytes code ++ Struct.le_bytes 1
               ++ Struct.le_bytes (if b then 1 else 0)))
  ∧ (∀ nan i : Z, - 2 ^ 31 ≤ i < 2 ^ 31 →
       VehicleControls._build_command_packet nan code (VInt i) =
         Some (Struct.le_bytes code ++ Struct.le_bytes 2
               ++ Struct.le_bytes (i mod 2 ^ 32))
       ∧ Struct.unpack_i (Struct.le_bytes (i mod 2 ^ 32)) = Some i)
  ∧ (∀ nan w : Z, 0 ≤ w < 2 ^ 32 → F32.of_bits w ≠ S754_nan →
       VehicleControls._build_command_packet nan code
         (VFloat (F32.to_double (F32.of_bits w))) =
         Some (Struct.le_bytes code ++ Struct.le_bytes 3 ++ Struct.le_bytes w)
       ∧ Struct.unpack_f (Struct.le_bytes w)
         = Some (F32.to_double (F32.of_bits w)))
  ∧ (∀ (nan : Z) (x : spec_float),
       valid_binary F64.prec F64.emax x = true →
       overflows_binary32 x = false →
       ∃ w : Z,
         0 ≤ w < 2 ^ 32
         ∧ VehicleControls._build_command_packet nan code (VFloat x) =
             Some (Struct.le_bytes code ++ Struct.le_bytes 3
                   ++ Struct.le_bytes w)
         ∧ valid_binary F32.prec F32.emax (F32.of_double x) = true
         ∧ F32.of_bits w = F32.of_double x
         ∧ (x = S754_nan → w = F32.nan_bits nan))
  ∧ (∀ (nan : Z) (x : spec_float),
       valid_binary F64.prec F64.emax x = true →
       overflows_binary32 x = true →
       VehicleControls._build_command_packet nan code (VFloat x) = None)
  ∧ (∀ (nan : Z) (value : pyval) (packet : bytes) (now : spec_float)
       (self : VehicleControls.t),
       VehicleControls.control_socket self = true →
       VehicleControls._build_command_packet nan code value = Some packet →
       VehicleControls.send_command nan true now command value self =
         (true,
          {| VehicleControls.control_socket := true;
             VehicleControls.last_commands :=
               <[command := <["value" := value]>
                            (<["timestamp" := VFloat now]> ∅)]>
                 (VehicleControls.last_commands self);
             VehicleControls.sent := VehicleControls.sent self ++ [packet] |})).
Proof.
  intros Hcode. pose proof (get_command_type_code _ _ Hcode) as Hrange.
  assert (Hpack : Struct.pack_I code = Some (Struct.le_bytes code))
    by (apply pack_I_small; lia).
  assert (Hfloat : ∀ nan x v, Struct.pack_f nan x = Some v →
            VehicleControls._build_command_packet nan code (VFloat x)
            = Some (Struct.le_bytes code ++ Struct.le_bytes 3 ++ v)).
  { intros nan x v Hv. unfold VehicleControls._build_command_packet.
    rewrite Hpack. cbn. by rewrite Hv. }
  split; [split; [done | apply unpack_I_le_bytes; lia]|].
  split; [|split; [|split; [|split; [|split]]]].
  - intros nan b. unfold VehicleControls._build_command_packet.
    rewrite Hpack. by destruct b.
  - intros nan i Hi. split; [|by apply unpack_i_le_bytes].
    unfold VehicleControls._build_command_packet. rewrite Hpack. cbn.
    unfold Struct.pack_i.
    destruct (Z.leb_spec (- 2 ^ 31) i); [|lia].
    by destruct (Z.ltb_spec i (2 ^ 31)); [|lia].
  - intros nan w Hw Hnan.
    split; [|unfold Struct.unpack_f; by rewrite unpack_I_le_bytes].
    apply Hfloat. unfold Struct.pack_f.
    assert (Hvalid : valid_binary F32.prec F32.emax (F32.of_bits w) = true).
    { destruct (F32.of_bits w) as [s|s| |s m e] eqn:Hy; try done.
      destruct (of_bits_finite _ _ _ _ Hy) as (Hm & He & Hcanon).
      pose proof (digits2_bounds m) as Hb.
      pose proof (digits2_le m 24 Hm) as Hd.
      unfold valid_binary, bounded, canonical_mantissa, fexp, SpecFloat.emin,
        F32.prec, F32.emax.
      apply andb_true_iff. split; [apply Z.eqb_eq | apply Z.leb_le]; [|lia].
      destruct Hcanon as [Hnormal | ->]; [|lia].
      assert (Z.pos (digits2_pos m) = 24); [|lia].
      apply digits2_unique. change (24 - 1) with 23. lia. }
    rewrite of_double_to_double by exact Hvalid.
    rewrite to_bits_of_bits by done.
    by destruct (F32.of_bits w).
  - intros nan x Hvalid Hfit.
    destruct (pack_f_cases nan x Hvalid) as [Hy Hp]. rewrite Hfit in Hp.
    destruct (of_bits_to_bits nan _ Hy) as [Hw Hback].
    exists (F32.to_bits nan (F32.of_double x)).
    split; [exact Hw|]. split; [by apply Hfloat|]. split; [exact Hy|].
    split; [exact Hback|]. by intros ->.
  - intros nan x Hvalid Hover.
    destruct (pack_f_cases nan x Hvalid) as [_ Hp]. rewrite Hover in Hp.
    unfold VehicleControls._build_command_packet. rewrite Hpack. cbn.
    by rewrite Hp.
  - intros nan value packet now self Hsock Hbuild.
    unfold VehicleControls.send_command. rewrite Hsock, Hcode, Hbuild. cbn.
    by destruct (build_command_packet_nonempty _ _ _ _ Hbuild)
      as (b & rest & ->).
Qed.

Lemma control_datagram_layout_witness :
  let build := VehicleControls._build_command_packet in
  let head (tag : Z) := Struct.le_bytes 3 ++ Struct.le_bytes tag in
  build 0 3 (VBool true) = Some (head 1 ++ Struct.le_bytes 1)
  ∧ build 0 3 (VInt (- 1)) = Some (head 2 ++ Struct.le_bytes (2 ^ 32 - 1))
  ∧ build 0 3 (VFloat (F64.literal 1 2))
    = Some (head 3 ++ Struct.le_bytes 0x3f000000)
  ∧ (∃ w : Z,
       0 ≤ w < 2 ^ 32
       ∧ build 0 3 (VFloat (F64.literal 505 1000))
         = Some (head 3 ++ Struct.le_bytes w)
       ∧ F32.of_bits w = F32.of_double (F64.literal 505 1000))
  ∧ build (2 ^ 31) 3 (VFloat S754_nan)
    = Some (head 3 ++ Struct.le_bytes 0xffc00000)
  ∧ build 0 3 (VFloat (F64.of_Z (2 ^ 128))) = None
  ∧ VehicleControls.send_command 0 true (F64.of_Z 10) "brake_bias"
      (VFloat (F64.literal 1 2)) Sample.controls
    = (true,
       {| VehicleControls.control_socket := true;
          VehicleControls.last_commands :=
            <["brake_bias" := <["value" := VFloat (F64.literal 1 2)]>
                              (<["timestamp" := VFloat (F64.of_Z 10)]> ∅)]>
              (VehicleControls.last_commands Sample.controls);
          VehicleControls.sent :=
            VehicleControls.sent Sample.controls
            ++ [head 3 ++ Struct.le_bytes 0x3f000000] |}).
Proof.
  pose proof (control_datagram_layout "brake_bias" 3) as H.
  destruct H as (_ & Hbool & Hint & Hword & Hfloat & Hover & Hsend);
    [reflexivity|].
  assert (Hhalf :
    VehicleControls._build_command_packet 0 3 (VFloat (F64.literal 1 2))
    = Some (Struct.le_bytes 3 ++ Struct.le_bytes 3
            ++ Struct.le_bytes 0x3f000000)).
  { apply (Hword 0 0x3f000000); [lia|]. vm_compute. discriminate. }
  cbv zeta. repeat apply conj.
  - apply (Hbool 0 true).
  - apply (Hint 0 (- 1)). lia.
  - exact Hhalf.
  - destruct (Hfloat 0 (F64.literal 505 1000)) as (w & Hw & Hp & _ & Hb & _);
      [vm_compute; reflexivity | vm_compute; reflexivity |].
    exists w. repeat apply conj; [lia | lia | exact Hp | exact Hb].
  - destruct (Hfloat (2 ^ 31) S754_nan) as (w & _ & Hp & _ & _ & Hw);
      [reflexivity | reflexivity |].
    rewrite Hp, (Hw eq_refl). reflexivity.
  - apply (Hover 0 (F64.of_Z (2 ^ 128))); vm_compute; reflexivity.
  - apply (Hsend 0 (VFloat (F64.literal 1 2)) _ (F64.of_Z 10) Sample.controls);
      [reflexivity | exact Hhalf].
Defined.

(** Rounding to binary32 on known values: 0.505 and 0.1; the largest
    binary64 below [binary32_limit], which packs as the largest binary32,
    and the limit itself; [2^-149], the least binary32, and [2^-150], the
    tie that goes to zero. *)
Example pack_f_rounds :
  Struct.pack_f 0 (F64.literal 505 1000)
    = Some [Byte.xae; Byte.x47; Byte.x01; Byte.x3f]
  ∧ Struct.pack_f 0 (F64.literal 1 10)
    = Some [Byte.xcd; Byte.xcc; Byte.xcc; Byte.x3d]
  ∧ Struct.pack_f 0 (S754_finite false 9007198986305535 75)
    = Some [Byte.xff; Byte.xff; Byte.x7f; Byte.x7f]
  ∧ Struct.pack_f 0 binary32_limit = None
  ∧ Struct.pack_f 0 (S754_finite false 4503599627370496 (- 201))
    = Some [Byte.x01; Byte.x00; Byte.x00; Byte.x00]
  ∧ Struct.pack_f 0 (S754_finite false 4503599627370496 (- 202))
    = Some [Byte.x00; Byte.x00; Byte.x00; Byte.x00].
Proof. vm_compute. done. Qed.

Example binary32_limit_value :
  F64.to_int binary32_limit = Some ((2 ^ 25 - 1) * 2 ^ 103)
  ∧ valid_binary F64.prec F64.emax binary32_limit = true.
Proof. vm_compute. done. Qed.

(** The bytes of a NaN: [float('nan')] and its opposite. *)
Example pack_f_nan :
  Struct.pack_f 0 S754_nan = Some [Byte.x00; Byte.x00; Byte.xc0; Byte.x7f]
  ∧ Struct.pack_f (2 ^ 31) S754_nan
    = Some [Byte.x00; Byte.x00; Byte.xc0; Byte.xff].
Proof. vm_compute. done. Qed.

(** The datagrams of three sends, byte for byte. *)
Example send_brake_bias_half :
  VehicleControls.sent
    (VehicleControls.send_command 0 true (F64.of_Z 10) "brake_bias"
       (VFloat (F64.literal 1 2)) Sample.controls).2
  = [[Byte.x03; Byte.x00; Byte.x00; Byte.x00;
      Byte.x03; Byte.x00; Byte.x00; Byte.x00;
      Byte.x00; Byte.x00; Byte.x00; Byte.x3f]].
Proof. vm_compute. reflexivity. Qed.

Example send_tc_level_minus_one :
  VehicleControls.sent
    (VehicleControls.send_command 0 true (F64.of_Z 10) "tc_level"
       (VInt (-1)) Sample.controls).2
  = [[Byte.x01; Byte.x00; Byte.x00; Byte.x00;
      Byte.x02; Byte.x00; Byte.x00; Byte.x00;
      Byte.xff; Byte.xff; Byte.xff; Byte.xff]].
Proof. vm_compute. reflexivity. Qed.

Example send_ignition_on :
  VehicleControls.sent
    (VehicleControls.send_command 0 true (F64.of_Z 10) "ignition"
       (VBool true) Sample.controls).2
  = [[Byte.x0d; Byte.x00; Byte.x00; Byte.x00;
      Byte.x01; Byte.x00; Byte.x00; Byte.x00;
      Byte.x01; Byte.x00; Byte.x00; Byte.x00]].
Proof. vm_compute. reflexivity. Qed.

(** ** The Update payload: sequential reads against the offset table *)

Ltac table_lookup :=
  unfold update_table;
  repeat (rewrite lookup_insert_ne by done);
  first [ apply lookup_insert_eq | apply lookup_empty ].

Section Update.
Variable pow : spec_float → spec_float → spec_float.

Lemma reader_bind_eq {A B} (m : TelemetryParser.reader A)
    (k : A → TelemetryParser.reader B) (data : bytes) (off : nat) :
  (m ≫= k) data off =
    match m data off with
    | Some (a, off') => k a data off'
    | None => None
    end.
Proof. done. Qed.

Lemma unpack_next_f (data : bytes) (off : nat) :
  (off + 4 ≤ length data)%nat →
  TelemetryParser.unpack_next Struct.unpack_f data off
    = Some (f32_at data off, (off + 4)%nat).
Proof.
  intros H. unfold TelemetryParser.unpack_next. by rewrite unpack_f_slice.
Qed.

Lemma unpack_next_i (data : bytes) (off : nat) :
  (off + 4 ≤ length data)%nat →
  TelemetryParser.unpack_next Struct.unpack_i data off
    = Some (i32_at data off, (off + 4)%nat).
Proof.
  intros H. unfold TelemetryParser.unpack_next. by rewrite unpack_i_slice.
Qed.

Lemma unpack_next_ms (data : bytes) (off : nat) :
  (off + 4 ≤ length data)%nat →
  TelemetryParser.unpack_next
      (λ b, TelemetryParser.ms_to_seconds <$> Struct.unpack_i b) data off
    = Some (TelemetryParser.ms_to_seconds (i32_at data off), (off + 4)%nat).
Proof.
  intros H. unfold TelemetryParser.unpack_next. by rewrite unpack_i_slice.
Qed.

Lemma repeat_read_wheels (data : bytes) (off : nat) :
  (off + 16 ≤ length data)%nat →
  TelemetryParser.repeat_read 4 (TelemetryParser.unpack_next Struct.unpack_f)
      data off
    = Some (wheels_at data off, (off + 16)%nat).
Proof.
  intros H. cbn [TelemetryParser.repeat_read].
  repeat (first [ rewrite reader_bind_eq | rewrite unpack_next_f by lia ];
          cbv beta iota).
  unfold wheels_at, mret, TelemetryParser.reader_ret.
  by rewrite <- !Nat.add_assoc.
Qed.

Ltac read_step :=
  rewrite reader_bind_eq;
  first [ rewrite unpack_next_f by lia
        | rewrite unpack_next_i by lia
        | rewrite unpack_next_ms by lia
        | rewrite repeat_read_wheels by lia
        | unfold TelemetryParser.skip at 1 ];
  cbv beta iota; cbn [Nat.add].

(** The walk of [_parse_update] through the payload reads exactly the
    offsets of the table; it raises only in [int(rpm)] or [int(max_rpm)]. *)
Lemma read_update_table (data : bytes) :
  (328 ≤ length data)%nat →
  TelemetryParser.read_update pow data 0%nat =
    rpm ← F64.to_int (f32_at data 12);
    max_rpm ← F64.to_int (f32_at data 16);
    Some (dict_update (update_table data rpm max_rpm)
            (TelemetryParser._calculate_derived_values pow
               (update_table data rpm max_rpm)), 188%nat).
Proof.
  intros Hlen. unfold TelemetryParser.read_update.
  do 26 read_step.
  rewrite reader_bind_eq. unfold TelemetryParser.eval at 1.
  destruct (F64.to_int (f32_at data 12)) as [rpm|]; [|reflexivity].
  cbn [mbind option_bind]. cbv beta iota.
  rewrite reader_bind_eq. unfold TelemetryParser.eval at 1.
  destruct (F64.to_int (f32_at data 16)) as [max_rpm|]; reflexivity.
Qed.

Lemma parse_update_decoded (data : bytes) (self : TelemetryParser.t) (rpm max_rpm : Z) :
  (328 ≤ length data)%nat →
  F64.to_int (f32_at data 12) = Some rpm →
  F64.to_int (f32_at data 16) = Some max_rpm →
  TelemetryParser._parse_update pow data self =
    (dict_update (update_table data rpm max_rpm)
       (TelemetryParser._calculate_derived_values pow
          (update_table data rpm max_rpm)),
     {| TelemetryParser.packet_count := TelemetryParser.packet_count self + 1 |}).
Proof.
  intros Hlen Hrpm Hmax. unfold TelemetryParser._parse_update.
  destruct (Nat.ltb_spec (length data) 328); [lia|].
  rewrite read_update_table by exact Hlen. rewrite Hrpm, Hmax. reflexivity.
Qed.

Lemma to_int_not_finite (x : spec_float) :
  F64.is_finite x = false → F64.to_int x = None.
Proof. by destruct x. Qed.

Lemma to_int_finite (x : spec_float) :
  F64.is_finite x = true → is_Some (F64.to_int x).
Proof. destruct x; by eauto. Qed.

(** A payload whose [rpm] or [max_rpm] is a NaN or an infinity makes
    [int()] raise: the update is discarded whole. *)
Lemma parse_update_not_finite (data : bytes) (self : TelemetryParser.t) :
  (328 ≤ length data)%nat →
  F64.is_finite (f32_at data 12) && F64.is_finite (f32_at data 16) = false →
  TelemetryParser._parse_update pow data self = (∅, self).
Proof.
  intros Hlen Hnf. unfold TelemetryParser._parse_update.
  destruct (Nat.ltb_spec (length data) 328); [lia|].
  rewrite read_update_table by exact Hlen.
  apply andb_false_iff in Hnf as [Hnf%to_int_not_finite | Hnf%to_int_not_finite].
  - rewrite Hnf. reflexivity.
  - rewrite Hnf. destruct (F64.to_int (f32_at data 12)); reflexivity.
Qed.

(** A decoded update, that is a non-empty result, is the table of a long
    enough payload together with its derived values. *)
Lemma parse_update_inv (data : bytes) (self self' : TelemetryParser.t) (d : dict) :
  TelemetryParser._parse_update pow data self = (d, self') →
  d ≠ ∅ →
  ∃ rpm max_rpm,
    (328 ≤ length data)%nat
    ∧ F64.to_int (f32_at data 12) = Some rpm
    ∧ F64.to_int (f32_at data 16) = Some max_rpm
    ∧ d = dict_update (update_table data rpm max_rpm)
            (TelemetryParser._calculate_derived_values pow
               (update_table data rpm max_rpm)).
Proof.
  unfold TelemetryParser._parse_update.
  destruct (Nat.ltb_spec (length data) 328) as [|Hlen].
  { intros [= <- _] Hne. by destruct Hne. }
  rewrite read_update_table by exact Hlen.
  destruct (F64.to_int (f32_at data 12)) as [rpm|];
    [|intros [= <- _] Hne; by destruct Hne].
  destruct (F64.to_int (f32_at data 16)) as [max_rpm|];
    [|intros [= <- _] Hne; by destruct Hne].
  cbn [mbind option_bind]. intros Heq _. exists rpm, max_rpm.
  split; [exact Hlen|]. split; [reflexivity|]. split; [reflexivity|].
  exact (eq_sym (f_equal fst Heq)).
Qed.

Lemma update_table_scalars (data : bytes) (rpm max_rpm : Z) :
  let t := update_table data rpm max_rpm in
  t !! "speed_kmh" = Some (VFloat (f32_at data 0))
  ∧ t !! "speed_mph" = Some (VFloat (F64.mul (f32_at data 0) km_to_miles))
  ∧ t !! "rpm" = Some (VInt rpm)
  ∧ t !! "max_rpm" = Some (VInt max_rpm)
  ∧ t !! "g_force_lateral" = Some (VFloat (f32_at data 24))
  ∧ t !! "g_force_longitudinal" = Some (VFloat (f32_at data 28)).
Proof. cbv zeta. repeat split; table_lookup. Qed.

Lemma update_table_wheels (data : bytes) (rpm max_rpm : Z) :
  let t := update_table data rpm max_rpm in
  t !! "wheel_angular_speed" = Some (TelemetryParser.floats (wheels_at data 92))
  ∧ t !! "wheel_slip" = Some (TelemetryParser.floats (wheels_at data 108))
  ∧ t !! "wheel_load" = Some (TelemetryParser.floats (wheels_at data 124))
  ∧ t !! "tire_pressure" = Some (TelemetryParser.floats (wheels_at data 140))
  ∧ t !! "tire_temperature_core"
      = Some (TelemetryParser.floats (wheels_at data 156))
  ∧ t !! "suspension_travel" = Some (TelemetryParser.floats (wheels_at data 172)).
Proof. cbv zeta. repeat split; table_lookup. Qed.

Lemma update_table_no_derived (data : bytes) (rpm max_rpm : Z) (key : string) :
  key ∈ derived_keys → update_table data rpm max_rpm !! key = None.
Proof.
  unfold derived_keys. intros H.
  repeat (apply elem_of_cons in H as [-> | H]; [table_lookup|]).
  by apply elem_of_nil in H.
Qed.

(** [_calculate_derived_values] writes no other key than the five derived
    ones. *)
Lemma derived_values_keys (data : dict) (key : string) :
  key ∉ derived_keys →
  TelemetryParser._calculate_derived_values pow data !! key = None.
Proof.
  unfold derived_keys. intros H.
  repeat (apply not_elem_of_cons in H as [? H]).
  unfold TelemetryParser._calculate_derived_values.
  repeat case_match;
    repeat (rewrite lookup_insert_ne by done); apply lookup_empty.
Qed.

(** On the decoded fields, the first two derived computations do not
    raise, and the recommendation entry is the [if]/[elif]/[else] on the two
    integers. *)
Lemma derived_gear_recommendation (data : bytes) (rpm max_rpm : Z) :
  TelemetryParser._calculate_derived_values pow (update_table data rpm max_rpm)
    !! "gear_recommendation"
  = VStr <$> TelemetryParser.gear_recommendation rpm max_rpm.
Proof.
  destruct (update_table_wheels data rpm max_rpm) as (Hw & Hs & _ & Hp & _).
  destruct (update_table_scalars data rpm max_rpm) as (_ & _ & Hr & Hm & _).
  cbv zeta in *.
  unfold TelemetryParser._calculate_derived_values.
  assert (Hlock : is_Some (mapM (TelemetryParser.wheel_lock_at
                    (update_table data rpm max_rpm)) (seq 0 4))).
  { cbn [seq mapM]. unfold TelemetryParser.wheel_lock_at, TelemetryParser.get.
    rewrite Hw, Hs. by cbn -[F64.gtb F64.ltb F64.abs F64.literal F64.of_Z]. }
  destruct Hlock as [wheel_lock ->].
  assert (Hdelta : is_Some (TelemetryParser.tire_pressure_delta
                              (update_table data rpm max_rpm))).
  { unfold TelemetryParser.tire_pressure_delta, TelemetryParser.get.
    rewrite Hp. by cbn -[F64.sub TelemetryParser.optimal_pressure]. }
  destruct Hdelta as [delta ->].
  unfold TelemetryParser.get. rewrite Hr, Hm.
  cbn [from_option id TelemetryParser.as_int mbind option_bind].
  destruct (TelemetryParser.gear_recommendation rpm max_rpm) as [g|];
    cbn [fmap option_fmap option_map]; cbv beta iota zeta.
  - destruct (TelemetryParser.g_force_total _ _).
    + rewrite lookup_insert_ne by done. apply lookup_insert_eq.
    + apply lookup_insert_eq.
  - repeat (rewrite lookup_insert_ne by done). apply lookup_empty.
Qed.
End Update.

(** ** The shift thresholds in exact arithmetic *)

Lemma scaled_exponent (s : bool) (m : positive) (e n k : Z) :
  F64.scaled s m e = (n, k) → 0 ≤ k.
Proof.
  unfold F64.scaled. destruct (Z.leb_spec 0 e); intros [= <- <-]; lia.
Qed.

Lemma lt_mul_pow2_floor (n i k : Z) :
  0 ≤ k → (n <? i * 2 ^ k) = (n / 2 ^ k <? i).
Proof.
  intros Hk. assert (0 < 2 ^ k) by (apply Z.pow_pos_nonneg; lia).
  pose proof (Z.div_mod n (2 ^ k) ltac:(lia)).
  pose proof (Z.mod_pos_bound n (2 ^ k) ltac:(lia)).
  destruct (Z.ltb_spec n (i * 2 ^ k)), (Z.ltb_spec (n / 2 ^ k) i);
    try done; nia.
Qed.

Lemma mul_pow2_lt_ceil (n i k : Z) :
  0 ≤ k → (i * 2 ^ k <? n) = (i <? - (- n / 2 ^ k)).
Proof.
  intros Hk. assert (0 < 2 ^ k) by (apply Z.pow_pos_nonneg; lia).
  pose proof (Z.div_mod (- n) (2 ^ k) ltac:(lia)).
  pose proof (Z.mod_pos_bound (- n) (2 ^ k) ltac:(lia)).
  destruct (Z.ltb_spec (i * 2 ^ k) n), (Z.ltb_spec i (- (- n / 2 ^ k)));
    try done; nia.
Qed.

(** An integer is above a finite float exactly when it is above its floor,
    and below it exactly when it is below its ceiling. *)
Lemma int_gt_floor (i f : Z) (x : spec_float) :
  floor x = Some f → F64.int_gt i x = (f <? i).
Proof.
  destruct x as [s|s| |s m e]; try done; cbn.
  - by intros [= <-].
  - destruct (F64.scaled s m e) as [n k] eqn:Hs. intros [= <-].
    apply lt_mul_pow2_floor. by eapply scaled_exponent.
Qed.

Lemma int_lt_ceil (i c : Z) (x : spec_float) :
  ceil x = Some c → F64.int_lt i x = (i <? c).
Proof.
  destruct x as [s|s| |s m e]; try done; cbn.
  - by intros [= <-].
  - destruct (F64.scaled s m e) as [n k] eqn:Hs. intros [= <-].
    apply mul_pow2_lt_ceil. by eapply scaled_exponent.
Qed.

Lemma threshold_core_int (a b gap N S C W V B P F q r : Z) :
  0 < N → 0 < S → 0 < W → 0 < V → 0 < b → 0 < gap → 4 * gap ≤ b →
  b * C = a * B - gap → P = N * S * C → W * V = S * B → N * S < 2 * W →
  a * N = b * F →
  P = q * W + r → 0 ≤ r < W →
  q = F * V - 1 ∧ W < 2 * r.
Proof.
  intros HN HS HW HV Hb Hgap Hgapb HC HP HWV HNS HF Hq Hr.
  assert (HbP : b * P = b * F * (W * V) - gap * (N * S)).
  { rewrite HWV, <- HF, HP.
    replace (b * (N * S * C)) with (N * S * (b * C)) by ring.
    rewrite HC. ring. }
  set (D := F * (W * V) - P).
  assert (HD : b * D = gap * (N * S)) by (unfold D; lia).
  assert (HD0 : 0 < D) by nia.
  assert (HD1 : 2 * D < W) by nia.
  assert (HPeq : P = (F * V - 1) * W + (W - D)) by (unfold D; ring).
  assert (Hqq : q = F * V - 1).
  { assert (Hx : (q - (F * V - 1)) * W = W - D - r) by lia.
    assert (- W < W - D - r < W) by lia.
    nia. }
  split; [exact Hqq|]. subst q. lia.
Qed.

Lemma threshold_core_frac (a b gap N S C W V B P F rho q r Q : Z) :
  0 < N → 0 < S → 0 < W → 0 < V → 0 < b → 0 < gap → 4 * gap ≤ b →
  b * C = a * B - gap → P = N * S * C → W * V = S * B → N * S < 2 * W →
  2 * b ≤ V →
  a * N = b * F + rho → 0 < rho < b →
  P = q * W + r → 0 ≤ r < W → q ≤ Q ≤ q + 1 →
  F * V < Q < (F + 1) * V.
Proof.
  intros HN HS HW HV Hb Hgap Hgapb HC HP HWV HNS HVb HF Hrho Hq Hr HQ.
  assert (HbP : b * P = b * F * (W * V) + rho * (W * V) - gap * (N * S)).
  { rewrite HWV, HP.
    replace (b * (N * S * C)) with (N * S * (b * C)) by ring.
    rewrite HC.
    replace (N * S * (a * B - gap)) with (a * N * (S * B) - gap * (N * S)) by ring.
    rewrite HF. ring. }
  assert (Hlow : (F * V + 1) * W ≤ P).
  { assert (b * ((F * V + 1) * W) ≤ b * P); [|nia].
    rewrite HbP.
    assert (gap * (N * S) ≤ gap * (2 * W)) by nia.
    assert (1 * (W * V) ≤ rho * (W * V)) by nia.
    assert (W * (b + 2 * gap) ≤ W * V) by nia.
    nia. }
  assert (Hhigh : P + 2 * W ≤ (F + 1) * V * W).
  { assert (b * (P + 2 * W) ≤ b * ((F + 1) * V * W)); [|nia].
    replace (b * (P + 2 * W)) with (b * P + 2 * b * W) by ring.
    rewrite HbP.
    assert (rho * (W * V) ≤ (b - 1) * (W * V)) by nia.
    assert (W * (2 * b) ≤ W * V) by nia.
    nia. }
  split.
  - assert (F * V + 1 ≤ q); [|lia]. nia.
  - assert (q + 2 ≤ (F + 1) * V); [|lia]. nia.
Qed.

Lemma int_gt_scale (i : Z) (s : bool) (m : positive) (e k : Z) :
  0 ≤ k →
  F64.int_gt (i * 2 ^ k) (S754_finite s m (e + k))
  = F64.int_gt i (S754_finite s m e).
Proof.
  intros Hk. unfold F64.int_gt, F64.scaled.
  assert (HK : 0 < 2 ^ k) by (apply Z.pow_pos_nonneg; lia).
  set (n := cond_Zopp s (Z.pos m)).
  destruct (Z.leb_spec 0 e) as [He|He].
  - destruct (Z.leb_spec 0 (e + k)); [|lia].
    rewrite Z.pow_add_r, !Z.pow_0_r, !Z.mul_1_r by lia.
    assert (0 < 2 ^ e) by (apply Z.pow_pos_nonneg; lia).
    destruct (Z.ltb_spec (n * (2 ^ e * 2 ^ k)) (i * 2 ^ k)),
      (Z.ltb_spec (n * 2 ^ e) i); try done; nia.
  - assert (HE : 0 < 2 ^ (- e)) by (apply Z.pow_pos_nonneg; lia).
    destruct (Z.leb_spec 0 (e + k)) as [Hek|Hek].
    + rewrite Z.pow_0_r, Z.mul_1_r.
      assert (Hsplit : 2 ^ k = 2 ^ (e + k) * 2 ^ (- e))
        by (rewrite <- Z.pow_add_r by lia; f_equal; lia).
      assert (0 < 2 ^ (e + k)) by (apply Z.pow_pos_nonneg; lia).
      rewrite Hsplit.
      destruct (Z.ltb_spec (n * 2 ^ (e + k)) (i * (2 ^ (e + k) * 2 ^ (- e)))),
        (Z.ltb_spec n (i * 2 ^ (- e))); try done; nia.
    + assert (Hsplit : 2 ^ (- e) = 2 ^ k * 2 ^ (- (e + k)))
        by (rewrite <- Z.pow_add_r by lia; f_equal; lia).
      rewrite Hsplit, Z.mul_assoc. reflexivity.
Qed.

Lemma int_lt_scale (i : Z) (s : bool) (m : positive) (e k : Z) :
  0 ≤ k →
  F64.int_lt (i * 2 ^ k) (S754_finite s m (e + k))
  = F64.int_lt i (S754_finite s m e).
Proof.
  intros Hk. unfold F64.int_lt, F64.scaled.
  assert (HK : 0 < 2 ^ k) by (apply Z.pow_pos_nonneg; lia).
  set (n := cond_Zopp s (Z.pos m)).
  destruct (Z.leb_spec 0 e) as [He|He].
  - destruct (Z.leb_spec 0 (e + k)); [|lia].
    rewrite Z.pow_add_r, !Z.pow_0_r, !Z.mul_1_r by lia.
    assert (0 < 2 ^ e) by (apply Z.pow_pos_nonneg; lia).
    destruct (Z.ltb_spec (i * 2 ^ k) (n * (2 ^ e * 2 ^ k))),
      (Z.ltb_spec i (n * 2 ^ e)); try done; nia.
  - assert (HE : 0 < 2 ^ (- e)) by (apply Z.pow_pos_nonneg; lia).
    destruct (Z.leb_spec 0 (e + k)) as [Hek|Hek].
    + rewrite Z.pow_0_r, Z.mul_1_r.
      assert (Hsplit : 2 ^ k = 2 ^ (e + k) * 2 ^ (- e))
        by (rewrite <- Z.pow_add_r by lia; f_equal; lia).
      assert (0 < 2 ^ (e + k)) by (apply Z.pow_pos_nonneg; lia).
      rewrite Hsplit.
      destruct (Z.ltb_spec (i * (2 ^ (e + k) * 2 ^ (- e))) (n * 2 ^ (e + k))),
        (Z.ltb_spec (i * 2 ^ (- e)) n); try done; nia.
    + assert (Hsplit : 2 ^ (- e) = 2 ^ k * 2 ^ (- (e + k)))
        by (rewrite <- Z.pow_add_r by lia; f_equal; lia).
      rewrite Hsplit, Z.mul_assoc. reflexivity.
Qed.

(** ** [float(i)] and the product with a literal *)

Lemma pos_mul_pow2 (p : positive) (k : Z) :
  0 ≤ k → ∃ t : positive, Z.pos p * 2 ^ k = Z.pos t.
Proof.
  intros Hk. assert (0 < 2 ^ k) by (apply Z.pow_pos_nonneg; lia).
  destruct (Z.pos p * 2 ^ k) as [|t|t] eqn:Ht; try lia. by exists t.
Qed.

Lemma digits2_mul_pow2 (p t : positive) (k : Z) :
  0 ≤ k → Z.pos t = Z.pos p * 2 ^ k →
  Z.pos (digits2_pos t) = Z.pos (digits2_pos p) + k.
Proof.
  intros Hk Ht. pose proof (digits2_bounds p) as Hb.
  apply digits2_unique. rewrite Ht.
  replace (Z.pos (digits2_pos p) + k - 1)
    with (Z.pos (digits2_pos p) - 1 + k) by lia.
  rewrite !Z.pow_add_r by lia.
  assert (0 < 2 ^ k) by (apply Z.pow_pos_nonneg; lia). nia.
Qed.

(** [float(i)] of an integer [± p * 2^k] with a [p] of at most 53 digits is
    exact: [p] shifted to 53 digits, with the matching exponent. *)
Lemma of_Z_scaled (s : bool) (p : positive) (k : Z) :
  let d := Z.pos (digits2_pos p) in
  d ≤ 53 → 0 ≤ k → d + k ≤ 1024 →
  ∃ m : positive,
    Z.pos m = Z.pos p * 2 ^ (53 - d)
    ∧ Z.pos (digits2_pos m) = 53
    ∧ F64.of_Z (cond_Zopp s (Z.pos p * 2 ^ k)) = S754_finite s m (d - 53 + k).
Proof.
  intros d Hd Hk Hmax.
  destruct (pos_mul_pow2 p k Hk) as [t Ht].
  pose proof (digits2_mul_pow2 p t k Hk (eq_sym Ht)) as Hdt. fold d in Hdt.
  destruct (pos_mul_pow2 p (53 - d) ltac:(lia)) as [m Hm].
  pose proof (digits2_mul_pow2 p m (53 - d) ltac:(lia) (eq_sym Hm)) as Hdm.
  fold d in Hdm.
  exists m. split; [by rewrite Hm|]. split; [lia|].
  rewrite Ht.
  assert (Hof : F64.of_Z (cond_Zopp s (Z.pos t))
                = binary_round F64.prec F64.emax s t 0) by by destruct s.
  rewrite Hof. unfold F64.prec, F64.emax.
  destruct (Z.le_gt_cases (d + k) 53) as [Hsmall|Hlarge].
  - destruct (binary_round_short 53 1024 ltac:(lia) s t 0)
      as (m' & Hm' & _ & ->); try lia.
    f_equal; [|lia].
    apply Pos2Z.inj. rewrite Hm', <- Hm, <- Ht, Hdt.
    rewrite <- Z.mul_assoc, <- Z.pow_add_r by lia. do 2 f_equal. lia.
  - rewrite (binary_round_trailing 53 1024 s t m 0 (d + k - 53)).
    + f_equal. lia.
    + lia.
    + rewrite <- Ht, <- Hm, <- Z.mul_assoc, <- Z.pow_add_r by lia.
      do 2 f_equal. lia.
    + rewrite Hdm. unfold fexp, SpecFloat.emin. lia.
    + lia.
Qed.

Lemma div_div_carry (q v : Z) : 0 < v → (2 * q) / (2 * v) = q / v.
Proof. intros. apply Z.div_mul_cancel_l; lia. Qed.

(** The integers next to [± q / 2^k]. *)
Lemma floor_ceil_finite (s : bool) (m : positive) (e : Z) :
  e < 0 →
  floor (S754_finite s m e) = Some (cond_Zopp s (Z.pos m) / 2 ^ (- e))
  ∧ ceil (S754_finite s m e) = Some (- (- cond_Zopp s (Z.pos m) / 2 ^ (- e))).
Proof.
  intros He. unfold floor, ceil, F64.scaled.
  destruct (Z.leb_spec 0 e); [lia|]. done.
Qed.

Lemma floor_ceil_value (s : bool) (m : positive) (e K Q : Z) :
  e < 0 → 0 ≤ K + e → Q = Z.pos m * 2 ^ (K + e) →
  floor (S754_finite s m e) = Some (cond_Zopp s Q / 2 ^ K)
  ∧ ceil (S754_finite s m e) = Some (- (- cond_Zopp s Q / 2 ^ K)).
Proof.
  intros He HK ->. destruct (floor_ceil_finite s m e He) as [-> ->].
  assert (HT : 0 < 2 ^ (K + e)) by (apply Z.pow_pos_nonneg; lia).
  assert (HE : 0 < 2 ^ (- e)) by (apply Z.pow_pos_nonneg; lia).
  assert (HKT : 2 ^ K = 2 ^ (- e) * 2 ^ (K + e))
    by (rewrite <- Z.pow_add_r by lia; f_equal; lia).
  rewrite HKT.
  assert (Hs : ∀ z, cond_Zopp s (z * 2 ^ (K + e)) = cond_Zopp s z * 2 ^ (K + e))
    by (intros z; destruct s; cbn [cond_Zopp]; lia).
  rewrite Hs, <- Z.mul_opp_l, !Z.div_mul_cancel_r by lia. done.
Qed.

Lemma div_between (x y f : Z) : 0 < y → f * y ≤ x < (f + 1) * y → x / y = f.
Proof. intros Hy Hx. symmetry. apply (Z.div_unique _ _ _ (x - f * y)); lia. Qed.

Section Product.
(** A literal [a/b] of the source and its binary64 [cm * 2^-w], which is
    below the fraction by [gap / (b * 2^w)]. *)
Variables (a b gap w : Z) (cm : positive).
Hypothesis cm_digits : Z.pos (digits2_pos cm) = 53.
Hypothesis cm_value : b * Z.pos cm = a * 2 ^ w - gap.
Hypothesis b_pos : 0 < b.
Hypothesis gap_pos : 0 < gap.
Hypothesis gap_small : 4 * gap ≤ b.
Hypothesis b_small : 2 * b ≤ 2 ^ 26.
Hypothesis w_range : 53 ≤ w ≤ 54.

Lemma product_digits (m : positive) :
  Z.pos (digits2_pos m) = 53 →
  let n := Z.pos (digits2_pos (m * cm)) - 53 in
  52 ≤ n ≤ 53
  ∧ 2 ^ (n + 52) ≤ Z.pos m * Z.pos cm < 2 ^ (n + 53).
Proof.
  intros Hm n.
  pose proof (digits2_bounds m) as Hbm. rewrite Hm in Hbm.
  pose proof (digits2_bounds cm) as Hbc. rewrite cm_digits in Hbc.
  pose proof (digits2_bounds (m * cm)) as Hb.
  rewrite Pos2Z.inj_mul in Hb.
  replace (Z.pos (digits2_pos (m * cm))) with (n + 53) in Hb by (unfold n; lia).
  replace (n + 53 - 1) with (n + 52) in Hb by lia.
  split; [|exact Hb].
  change (53 - 1) with 52 in *.
  assert (Hlow : 2 ^ 104 ≤ Z.pos m * Z.pos cm).
  { change (2 ^ 104) with (2 ^ 52 * 2 ^ 52). nia. }
  assert (Hhigh : Z.pos m * Z.pos cm < 2 ^ 106).
  { change (2 ^ 106) with (2 ^ 53 * 2 ^ 53). nia. }
  split.
  - destruct (Z.le_gt_cases 52 n); [done|].
    assert (2 ^ (n + 53) ≤ 2 ^ 104) by (apply Z.pow_le_mono_r; lia). lia.
  - destruct (Z.le_gt_cases n 53); [done|].
    assert (2 ^ 106 ≤ 2 ^ (n + 52)) by (apply Z.pow_le_mono_r; lia). lia.
Qed.

(** The product of [float(± p * 2^k)] and the literal. *)
Lemma product_round (s : bool) (p : positive) (k : Z) :
  let d := Z.pos (digits2_pos p) in
  let r := normal_round 53 (Z.pos p * 2 ^ (53 - d) * Z.pos cm) in
  d ≤ 53 → 0 ≤ k → d + k ≤ 900 →
  F64.mul (F64.of_Z (cond_Zopp s (Z.pos p * 2 ^ k))) (S754_finite false cm (- w))
  = S754_finite s (Z.to_pos r.1) (d - 53 - w + r.2 + k).
Proof.
  intros d r Hd Hk Hmax.
  destruct (of_Z_scaled s p k) as (m & Hm & Hdm & ->); try (fold d; lia).
  fold d in Hm.
  destruct (product_digits m Hdm) as (Hn & Hb).
  unfold F64.mul, SFmul. rewrite xorb_false_r.
  unfold F64.prec, F64.emax.
  rewrite binary_round_aux_normal by lia.
  rewrite Pos2Z.inj_mul, Hm. fold r. f_equal. lia.
Qed.

(** For [|i| < 2^26] the rounded product lies between the same integers as
    the exact fraction [a * i / b]. *)
Lemma product_floor_ceil (s : bool) (p : positive) :
  let i := cond_Zopp s (Z.pos p) in
  let x := F64.mul (F64.of_Z i) (S754_finite false cm (- w)) in
  Z.pos p < 2 ^ 26 →
  floor x = Some (a * i / b) ∧ ceil x = Some (- (- (a * i) / b)).
Proof.
  intros i x Hp.
  pose proof (digits2_bounds p) as Hbp.
  set (d := Z.pos (digits2_pos p)) in *.
  assert (Hd : 1 ≤ d ≤ 26).
  { split; [unfold d; lia|].
    destruct (Z.le_gt_cases d 26); [done|].
    assert (2 ^ 26 ≤ 2 ^ (d - 1)) by (apply Z.pow_le_mono_r; lia). lia. }
  set (S := 2 ^ (53 - d)).
  set (P := Z.pos p * S * Z.pos cm).
  assert (HS : 0 < S) by (apply Z.pow_pos_nonneg; lia).
  destruct (pos_mul_pow2 p (53 - d) ltac:(lia)) as [m Hm]. fold S in Hm.
  pose proof (digits2_mul_pow2 p m (53 - d) ltac:(lia) (eq_sym Hm)) as Hdm.
  fold d in Hdm. replace (d + (53 - d)) with 53 in Hdm by lia.
  destruct (product_digits m Hdm) as (Hn & Hb).
  rewrite digits2_log2, Pos2Z.inj_mul, <- Hm in Hn, Hb. fold P in Hn, Hb.
  set (n := Z.log2 P + 1 - 53) in *.
  set (K := 53 - d + w - n).
  assert (HK : 27 ≤ K) by (unfold K; lia).
  set (W := 2 ^ n). set (V := 2 ^ K). set (B := 2 ^ w).
  assert (HW : 0 < W) by (apply Z.pow_pos_nonneg; lia).
  assert (HV : 0 < V) by (apply Z.pow_pos_nonneg; lia).
  assert (HVb : 2 * b ≤ V).
  { assert (2 ^ 26 ≤ V) by (apply Z.pow_le_mono_r; lia). lia. }
  assert (HWV : W * V = S * B).
  { unfold W, V, S, B. rewrite <- !Z.pow_add_r by lia. f_equal. unfold K. lia. }
  pose proof (digits2_bounds cm) as Hbc. rewrite cm_digits in Hbc.
  change (53 - 1) with 52 in Hbc.
  assert (HNS : Z.pos p * S < 2 * W).
  { assert (Hw53 : 2 ^ (n + 53) = W * (2 * 2 ^ 52)).
    { unfold W. rewrite Z.pow_add_r by lia. reflexivity. }
    rewrite Hw53 in Hb. unfold P in Hb.
    assert (0 < 2 ^ 52) by done. nia. }
  set (Q := rne P n).
  (* the result in terms of [Q] *)
  assert (Hx : floor x = Some (cond_Zopp s Q / V)
               ∧ ceil x = Some (- (- cond_Zopp s Q / V))).
  { unfold x, i. rewrite <- (Z.mul_1_r (Z.pos p)) at 1 2.
    change 1 with (2 ^ 0) at 1 2.
    rewrite product_round by (fold d; lia). fold d S P.
    unfold normal_round. fold n Q.
    destruct (rne_spec P n) as (HQ & _). fold Q W in HQ.
    assert (Hq : 2 ^ 52 ≤ P / W).
    { apply Z.div_le_lower_bound; [lia|].
      unfold W. rewrite <- Z.pow_add_r by lia. exact (proj1 Hb). }
    destruct (Z.eqb_spec Q (2 ^ 53)) as [Hcarry|Hno]; cbn [fst snd].
    - apply floor_ceil_value; [lia | unfold K; lia |].
      replace (K + (d - 53 - w + (n + 1) + 0)) with 1 by (unfold K; lia).
      rewrite Hcarry. reflexivity.
    - apply floor_ceil_value; [lia | unfold K; lia |].
      replace (K + (d - 53 - w + n + 0)) with 0 by (unfold K; lia).
      rewrite Z2Pos.id by lia. lia. }
  destruct Hx as [-> ->].
  (* the exact fraction *)
  set (F := a * Z.pos p / b). set (rho := (a * Z.pos p) mod b).
  pose proof (Z.div_mod (a * Z.pos p) b ltac:(lia)) as HF.
  pose proof (Z.mod_pos_bound (a * Z.pos p) b ltac:(lia)) as Hrho.
  fold F rho in HF, Hrho.
  pose proof (Z.div_mod P W ltac:(lia)) as HPq.
  pose proof (Z.mod_pos_bound P W ltac:(lia)) as HPr.
  destruct (rne_spec P n) as (HQ & Hup & _). fold Q W in HQ, Hup.
  assert (Hcases : (rho = 0 ∧ Q = F * V) ∨ (0 < rho ∧ F * V < Q < (F + 1) * V)).
  { destruct (Z.eq_dec rho 0) as [Hz|Hnz].
    - left. split; [done|].
      destruct (threshold_core_int a b gap (Z.pos p) S (Z.pos cm) W V B P F
                  (P / W) (P mod W)) as [Hq Hr]; try done; lia.
    - right. split; [lia|].
      apply (threshold_core_frac a b gap (Z.pos p) S (Z.pos cm) W V B P F rho
               (P / W) (P mod W)); try done; lia. }
  unfold i. destruct s; cbn [cond_Zopp].
  - destruct Hcases as [[Hz HQF] | [Hnz HQF]].
    + assert (Hfl : a * - Z.pos p / b = - F).
      { apply div_between; lia. }
      assert (Hce : - (a * - Z.pos p) / b = F).
      { apply div_between; lia. }
      rewrite Hfl, Hce, HQF, Z.opp_involutive.
      rewrite <- Z.mul_opp_l, !Z.div_mul by lia. split; f_equal; lia.
    + assert (Hfl : a * - Z.pos p / b = - F - 1).
      { apply div_between; lia. }
      assert (Hce : - (a * - Z.pos p) / b = F).
      { apply div_between; lia. }
      rewrite Hfl, Hce, Z.opp_involutive.
      rewrite (div_between (- Q) V (- F - 1)) by lia.
      rewrite (div_between Q V F) by lia. done.
  - destruct Hcases as [[Hz HQF] | [Hnz HQF]].
    + assert (Hfl : a * Z.pos p / b = F) by done.
      assert (Hce : - (a * Z.pos p) / b = - F).
      { apply div_between; lia. }
      rewrite Hce, HQF, <- Z.mul_opp_l, !Z.div_mul by lia.
      split; f_equal; lia.
    + assert (Hce : - (a * Z.pos p) / b = - F - 1).
      { apply div_between; lia. }
      rewrite Hce.
      rewrite (div_between (- Q) V (- F - 1)) by lia.
      rewrite (div_between Q V F) by lia. split; f_equal; lia.
Qed.

(** An integer against the product, in exact arithmetic. *)
Lemma product_int_gt (s : bool) (p : positive) (j : Z) :
  let i := cond_Zopp s (Z.pos p) in
  Z.pos p < 2 ^ 26 →
  F64.int_gt j (F64.mul (F64.of_Z i) (S754_finite false cm (- w)))
  = (a * i <? b * j).
Proof.
  intros i Hp. destruct (product_floor_ceil s p Hp) as [Hf _]. fold i in Hf.
  rewrite (int_gt_floor _ _ _ Hf).
  destruct (Z.ltb_spec (a * i / b) j), (Z.ltb_spec (a * i) (b * j));
    try done; exfalso; Z.div_mod_to_equations; nia.
Qed.

Lemma product_int_lt (s : bool) (p : positive) (j : Z) :
  let i := cond_Zopp s (Z.pos p) in
  Z.pos p < 2 ^ 26 →
  F64.int_lt j (F64.mul (F64.of_Z i) (S754_finite false cm (- w)))
  = (b * j <? a * i).
Proof.
  intros i Hp. destruct (product_floor_ceil s p Hp) as [_ Hc]. fold i in Hc.
  rewrite (int_lt_ceil _ _ _ Hc).
  destruct (Z.ltb_spec j (- (- (a * i) / b))), (Z.ltb_spec (b * j) (a * i));
    try done; exfalso; Z.div_mod_to_equations; nia.
Qed.

(** The same after both integers are multiplied by [2^k]. *)
Lemma product_scaled (s : bool) (p : positive) (k j : Z) :
  let i := cond_Zopp s (Z.pos p) in
  let x := F64.mul (F64.of_Z (i * 2 ^ k)) (S754_finite false cm (- w)) in
  Z.pos p < 2 ^ 26 → 0 ≤ k ≤ 800 →
  F64.int_gt (j * 2 ^ k) x = (a * i <? b * j)
  ∧ F64.int_lt (j * 2 ^ k) x = (b * j <? a * i).
Proof.
  intros i x Hp Hk.
  pose proof (digits2_bounds p) as Hbp.
  assert (Hd : Z.pos (digits2_pos p) ≤ 26).
  { destruct (Z.le_gt_cases (Z.pos (digits2_pos p)) 26); [done|].
    assert (2 ^ 26 ≤ 2 ^ (Z.pos (digits2_pos p) - 1))
      by (apply Z.pow_le_mono_r; lia). lia. }
  subst i x.
  rewrite <- (product_int_gt s p j Hp), <- (product_int_lt s p j Hp).
  assert (Hi : cond_Zopp s (Z.pos p) * 2 ^ k = cond_Zopp s (Z.pos p * 2 ^ k))
    by (destruct s; cbn [cond_Zopp]; lia).
  assert (Hi0 : cond_Zopp s (Z.pos p) = cond_Zopp s (Z.pos p * 2 ^ 0))
    by (by rewrite Z.mul_1_r).
  rewrite Hi, Hi0, !product_round by lia.
  rewrite Z.add_0_r.
  split; [apply int_gt_scale | apply int_lt_scale]; lia.
Qed.

End Product.

(** [float(i * 2^k)] does not overflow. *)
Lemma as_float_scaled (i k : Z) :
  Z.abs i < 2 ^ 26 → 0 ≤ k ≤ 800 →
  TelemetryParser.as_float (VInt (i * 2 ^ k)) = Some (F64.of_Z (i * 2 ^ k)).
Proof.
  intros Hi Hk. unfold TelemetryParser.as_float.
  destruct i as [|p|p].
  - rewrite Z.mul_0_l. reflexivity.
  - pose proof (digits2_bounds p) as Hbp.
    assert (Hd : Z.pos (digits2_pos p) ≤ 26).
    { destruct (Z.le_gt_cases (Z.pos (digits2_pos p)) 26); [done|].
      assert (2 ^ 26 ≤ 2 ^ (Z.pos (digits2_pos p) - 1))
        by (apply Z.pow_le_mono_r; lia). lia. }
    destruct (of_Z_scaled false p k) as (m & _ & _ & Hof); try lia.
    cbn [cond_Zopp] in Hof. by rewrite Hof.
  - pose proof (digits2_bounds p) as Hbp.
    assert (Hd : Z.pos (digits2_pos p) ≤ 26).
    { destruct (Z.le_gt_cases (Z.pos (digits2_pos p)) 26); [done|].
      assert (2 ^ 26 ≤ 2 ^ (Z.pos (digits2_pos p) - 1))
        by (apply Z.pow_le_mono_r; lia). lia. }
    destruct (of_Z_scaled true p k) as (m & _ & _ & Hof); try lia.
    cbn [cond_Zopp] in Hof.
    replace (Z.neg p * 2 ^ k) with (- (Z.pos p * 2 ^ k)) by lia.
    by rewrite Hof.
Qed.

(** ** The two literals of the shift recommendation *)

Lemma literal_3_10 :
  F64.literal 3 10 = S754_finite false 5404319552844595 (- 54).
Proof. vm_compute. reflexivity. Qed.

Lemma int_gt_le (i j : Z) (x : spec_float) :
  i ≤ j → F64.int_gt i x = true → F64.int_gt j x = true.
Proof.
  intros Hij. destruct x as [s|s| |s m e]; cbn; try done.
  - intros ?%Z.ltb_lt. apply Z.ltb_lt. lia.
  - destruct (F64.scaled s m e) as [n k].
    pose proof (Z.pow_nonneg 2 k ltac:(lia)).
    intros ?%Z.ltb_lt. apply Z.ltb_lt. nia.
Qed.

Lemma int_lt_le (i j : Z) (x : spec_float) :
  i ≤ j → F64.int_lt j x = true → F64.int_lt i x = true.
Proof.
  intros Hij. destruct x as [s|s| |s m e]; cbn; try done.
  - intros ?%Z.ltb_lt. apply Z.ltb_lt. lia.
  - destruct (F64.scaled s m e) as [n k].
    pose proof (Z.pow_nonneg 2 k ltac:(lia)).
    intros ?%Z.ltb_lt. apply Z.ltb_lt. nia.
Qed.

(** The comparisons of [gear_recommendation] for [max_rpm = i * 2^k] and
    [rpm = j * 2^k] are those of exact arithmetic on [i] and [j]. *)
Lemma shift_up_scaled (i j k : Z) :
  i ≠ 0 → Z.abs i < 2 ^ 26 → 0 ≤ k ≤ 800 →
  F64.int_gt (j * 2 ^ k) (F64.mul (F64.of_Z (i * 2 ^ k)) (F64.literal 85 100))
  = (17 * i <? 20 * j).
Proof.
  intros Hi Hb Hk. rewrite literal_085.
  destruct i as [|p|p]; [done| |].
  - apply (product_scaled 17 20 4 53 7656119366529843 eq_refl eq_refl
             ltac:(lia) ltac:(lia) ltac:(lia) ltac:(lia) ltac:(lia)
             false p k j); lia.
  - apply (product_scaled 17 20 4 53 7656119366529843 eq_refl eq_refl
             ltac:(lia) ltac:(lia) ltac:(lia) ltac:(lia) ltac:(lia)
             true p k j); lia.
Qed.

Lemma shift_down_scaled (i j k : Z) :
  i ≠ 0 → Z.abs i < 2 ^ 26 → 0 ≤ k ≤ 800 →
  F64.int_lt (j * 2 ^ k) (F64.mul (F64.of_Z (i * 2 ^ k)) (F64.literal 3 10))
  = (10 * j <? 3 * i).
Proof.
  intros Hi Hb Hk. rewrite literal_3_10.
  destruct i as [|p|p]; [done| |].
  - apply (product_scaled 3 10 2 54 5404319552844595 eq_refl eq_refl
             ltac:(lia) ltac:(lia) ltac:(lia) ltac:(lia) ltac:(lia)
             false p k j); lia.
  - apply (product_scaled 3 10 2 54 5404319552844595 eq_refl eq_refl
             ltac:(lia) ltac:(lia) ltac:(lia) ltac:(lia) ltac:(lia)
             true p k j); lia.
Qed.

(** ** Integers of binary32 fields *)

Lemma sgn_mul_abs (i : Z) : Z.sgn i * Z.abs i = i.
Proof. by destruct i. Qed.

Lemma f32_int_split (i : Z) :
  is_f32_int i →
  ∃ n k : Z,
    i = n * 2 ^ k ∧ Z.abs n < 2 ^ 26 ∧ 0 ≤ k ≤ 104
    ∧ (k = 0 ∨ 2 ^ 25 ≤ Z.abs n).
Proof.
  intros (a & j & Ha & Hj & Hi).
  destruct a as [|p|p]; [| |lia].
  - exists 0, 0. assert (i = 0) by lia. subst i. split; [done|].
    split; [done|]. split; [lia|]. by left.
  - pose proof (digits2_bounds p) as Hb.
    pose proof (digits2_le p 24 ltac:(lia)) as Hd.
    set (d := Z.pos (digits2_pos p)) in *.
    assert (1 ≤ d) by (unfold d; lia).
    destruct (Z.le_gt_cases j (26 - d)) as [Hsmall|Hlarge].
    + exists i, 0. rewrite Z.mul_1_r. split; [done|].
      split; [|split; [lia | by left]].
      rewrite Hi.
      assert (Z.pos p * 2 ^ j < 2 ^ d * 2 ^ j).
      { assert (0 < 2 ^ j) by (apply Z.pow_pos_nonneg; lia). nia. }
      assert (2 ^ d * 2 ^ j ≤ 2 ^ 26).
      { rewrite <- Z.pow_add_r by lia. apply Z.pow_le_mono_r; lia. }
      lia.
    + exists (Z.sgn i * (Z.pos p * 2 ^ (26 - d))), (j - (26 - d)).
      assert (Hsplit : 2 ^ j = 2 ^ (26 - d) * 2 ^ (j - (26 - d)))
        by (rewrite <- Z.pow_add_r by lia; f_equal; lia).
      assert (H26 : 2 ^ 26 = 2 ^ d * 2 ^ (26 - d))
        by (rewrite <- Z.pow_add_r by lia; f_equal; lia).
      assert (H25 : 2 ^ 25 = 2 ^ (d - 1) * 2 ^ (26 - d))
        by (rewrite <- Z.pow_add_r by lia; f_equal; lia).
      assert (0 < 2 ^ (26 - d)) by (apply Z.pow_pos_nonneg; lia).
      assert (0 < 2 ^ j) by (apply Z.pow_pos_nonneg; lia).
      assert (Habs : Z.abs (Z.sgn i * (Z.pos p * 2 ^ (26 - d)))
                     = Z.pos p * 2 ^ (26 - d)).
      { destruct i; cbn [Z.sgn]; lia. }
      split.
      * rewrite <- Z.mul_assoc, <- (Z.mul_assoc (Z.pos p)), <- Hsplit, <- Hi.
        symmetry. apply sgn_mul_abs.
      * rewrite Habs. split; [nia|]. split; [lia|]. right. nia.
Qed.

Lemma f32_int_multiple (i k : Z) :
  is_f32_int i → 0 ≤ k →
  (∃ i' : Z, i = i' * 2 ^ k) ∨ Z.abs i < 2 ^ (23 + k).
Proof.
  intros (a & j & Ha & Hj & Hi) Hk.
  destruct (Z.le_gt_cases k j) as [Hle|Hgt].
  - left. exists (Z.sgn i * a * 2 ^ (j - k)).
    rewrite <- !Z.mul_assoc, <- Z.pow_add_r by lia.
    replace (j - k + k) with j by lia. rewrite <- Hi.
    symmetry. apply sgn_mul_abs.
  - right. rewrite Hi.
    assert (H1 : 2 ^ (23 + k) = 2 ^ 24 * 2 ^ (k - 1))
      by (rewrite <- Z.pow_add_r by lia; f_equal; lia).
    assert (H2 : 2 ^ j ≤ 2 ^ (k - 1)) by (apply Z.pow_le_mono_r; lia).
    assert (0 < 2 ^ j) by (apply Z.pow_pos_nonneg; lia).
    rewrite H1. nia.
Qed.

Lemma exact_recommendation_scaled (rpm max_rpm k : Z) :
  0 ≤ k →
  exact_recommendation (rpm * 2 ^ k) (max_rpm * 2 ^ k)
  = exact_recommendation rpm max_rpm.
Proof.
  intros Hk. assert (0 < 2 ^ k) by (apply Z.pow_pos_nonneg; lia).
  unfold exact_recommendation.
  replace (17 * (max_rpm * 2 ^ k) <? 20 * (rpm * 2 ^ k))
    with (17 * max_rpm <? 20 * rpm)
    by (destruct (Z.ltb_spec (17 * max_rpm) (20 * rpm)),
          (Z.ltb_spec (17 * (max_rpm * 2 ^ k)) (20 * (rpm * 2 ^ k)));
        try done; nia).
  replace (10 * (rpm * 2 ^ k) <? 3 * (max_rpm * 2 ^ k))
    with (10 * rpm <? 3 * max_rpm)
    by (destruct (Z.ltb_spec (10 * rpm) (3 * max_rpm)),
          (Z.ltb_spec (10 * (rpm * 2 ^ k)) (3 * (max_rpm * 2 ^ k)));
        try done; nia).
  reflexivity.
Qed.

Lemma gear_recommendation_zero (rpm : Z) :
  TelemetryParser.gear_recommendation rpm 0
  = Some (exact_recommendation rpm 0).
Proof.
  unfold TelemetryParser.gear_recommendation, exact_recommendation.
  rewrite literal_085, literal_3_10.
  change (TelemetryParser.as_float (VInt 0)) with (Some (S754_zero false)).
  cbn [mbind option_bind F64.mul SFmul xorb F64.int_gt F64.int_lt].
  replace (17 * 0 <? 20 * rpm) with (0 <? rpm)
    by (destruct (Z.ltb_spec 0 rpm), (Z.ltb_spec (17 * 0) (20 * rpm)); lia).
  replace (10 * rpm <? 3 * 0) with (rpm <? 0)
    by (destruct (Z.ltb_spec rpm 0), (Z.ltb_spec (10 * rpm) (3 * 0)); lia).
  by repeat case_match.
Qed.

(** Both integers multiplied by the same power of two. *)
Lemma gear_recommendation_scaled (rpm max_rpm k : Z) :
  max_rpm ≠ 0 → Z.abs max_rpm < 2 ^ 26 → 0 ≤ k ≤ 800 →
  TelemetryParser.gear_recommendation (rpm * 2 ^ k) (max_rpm * 2 ^ k)
  = Some (exact_recommendation rpm max_rpm).
Proof.
  intros Hne Hb Hk. unfold TelemetryParser.gear_recommendation.
  rewrite as_float_scaled by done. cbn [mbind option_bind].
  rewrite shift_up_scaled, shift_down_scaled by done.
  unfold exact_recommendation. by repeat case_match.
Qed.

(** An [rpm] that is no multiple of the power of two is small against
    the thresholds. *)
Lemma gear_recommendation_far (rpm max_rpm k : Z) :
  2 ^ 25 ≤ Z.abs max_rpm < 2 ^ 26 → 0 ≤ k ≤ 800 →
  Z.abs rpm < 2 ^ (23 + k) →
  TelemetryParser.gear_recommendation rpm (max_rpm * 2 ^ k)
  = Some (exact_recommendation rpm (max_rpm * 2 ^ k)).
Proof.
  intros Hb Hk Hr. unfold TelemetryParser.gear_recommendation.
  rewrite as_float_scaled by lia. cbn [mbind option_bind].
  assert (HK : 0 < 2 ^ k) by (apply Z.pow_pos_nonneg; lia).
  assert (H23 : 2 ^ (23 + k) = 2 ^ 23 * 2 ^ k) by (apply Z.pow_add_r; lia).
  rewrite H23 in Hr.
  pose proof (shift_up_scaled max_rpm (2 ^ 23) k ltac:(lia) ltac:(lia) Hk) as Hup.
  pose proof (shift_down_scaled max_rpm (2 ^ 23) k ltac:(lia) ltac:(lia) Hk)
    as Hdown.
  pose proof (shift_up_scaled max_rpm (- 2 ^ 23) k ltac:(lia) ltac:(lia) Hk)
    as Hup'.
  unfold exact_recommendation.
  destruct (Z.le_gt_cases 0 max_rpm) as [Hpos|Hneg].
  - destruct (F64.int_gt rpm _) eqn:Hgt.
    + apply (int_gt_le _ (2 ^ 23 * 2 ^ k)) in Hgt; [|lia].
      rewrite Hup in Hgt. apply Z.ltb_lt in Hgt. lia.
    + assert (Hlt : F64.int_lt rpm
                (F64.mul (F64.of_Z (max_rpm * 2 ^ k)) (F64.literal 3 10)) = true).
      { apply (int_lt_le _ (2 ^ 23 * 2 ^ k)); [lia|].
        rewrite Hdown. apply Z.ltb_lt. lia. }
      rewrite Hlt.
      destruct (Z.ltb_spec (17 * (max_rpm * 2 ^ k)) (20 * rpm)); [nia|].
      destruct (Z.ltb_spec (10 * rpm) (3 * (max_rpm * 2 ^ k))); [done | nia].
  - assert (Hgt : F64.int_gt rpm
              (F64.mul (F64.of_Z (max_rpm * 2 ^ k)) (F64.literal 85 100)) = true).
    { apply (int_gt_le (- 2 ^ 23 * 2 ^ k)); [lia|].
      rewrite Hup'. apply Z.ltb_lt. lia. }
    rewrite Hgt.
    destruct (Z.ltb_spec (17 * (max_rpm * 2 ^ k)) (20 * rpm)); [done | nia].
Qed.

(** On integers of at most 24 significant bits the rounded products decide
    as exact arithmetic does. *)
Lemma gear_recommendation_exact (rpm max_rpm : Z) :
  is_f32_int rpm → is_f32_int max_rpm →
  TelemetryParser.gear_recommendation rpm max_rpm
  = Some (exact_recommendation rpm max_rpm).
Proof.
  intros Hrpm (n & k & -> & Hn & Hk & Hcase)%f32_int_split.
  destruct (Z.eq_dec n 0) as [->|Hne].
  { rewrite Z.mul_0_l. apply gear_recommendation_zero. }
  destruct (f32_int_multiple rpm k Hrpm ltac:(lia)) as [[rpm' ->] | Hsmall].
  - rewrite gear_recommendation_scaled, exact_recommendation_scaled by lia.
    reflexivity.
  - destruct Hcase as [-> | Hlarge].
    + rewrite <- (Z.mul_1_r rpm) at 1. change 1 with (2 ^ 0) at 1.
      rewrite gear_recommendation_scaled by lia.
      by rewrite Z.mul_1_r.
    + apply gear_recommendation_far; lia.
Qed.

Lemma to_int_f32 (w i : Z) :
  F64.to_int (F32.to_double (F32.of_bits w)) = Some i → is_f32_int i.
Proof.
  destruct (F32.of_bits w) as [s|s| |s m e] eqn:Hw; try done.
  - intros [= <-]. exists 0, 0. lia.
  - destruct (of_bits_finite _ _ _ _ Hw) as (Hm & He & _).
    destruct (to_double_finite s m e Hm He) as (m' & Hm' & _ & ->).
    pose proof (digits2_le m 24 Hm) as Hd.
    set (d := Z.pos (digits2_pos m)) in *.
    assert (1 ≤ d) by (unfold d; lia).
    cbn [F64.to_int]. intros [= <-].
    assert (Habs : ∀ z, 0 ≤ z → Z.abs (cond_Zopp s z) = z)
      by (intros z Hz; destruct s; cbn [cond_Zopp]; lia).
    assert (HX : 0 < 2 ^ (53 - d)) by (apply Z.pow_pos_nonneg; lia).
    destruct (Z.le_gt_cases 0 e) as [Hpos|Hneg].
    + exists (Z.pos m), e. split; [lia|]. split; [lia|].
      assert (0 < 2 ^ e) by (apply Z.pow_pos_nonneg; lia).
      destruct (Z.leb_spec 0 (e - (53 - d))) as [Hge|Hlt].
      * rewrite Habs by (apply Z.mul_nonneg_nonneg; [lia|apply Z.pow_nonneg; lia]).
        rewrite Hm', <- Z.mul_assoc, <- Z.pow_add_r by lia.
        do 2 f_equal. lia.
      * assert (HY : 0 < 2 ^ (- (e - (53 - d)))) by (apply Z.pow_pos_nonneg; lia).
        rewrite Habs by (apply Z.div_pos; lia).
        rewrite Hm'.
        replace (2 ^ (53 - d)) with (2 ^ e * 2 ^ (- (e - (53 - d))))
          by (rewrite <- Z.pow_add_r by lia; f_equal; lia).
        rewrite Z.mul_assoc, Z.div_mul by lia. reflexivity.
    + destruct (Z.leb_spec 0 (e - (53 - d))) as [Hge|Hlt]; [lia|].
      assert (HY : 0 < 2 ^ (- e)) by (apply Z.pow_pos_nonneg; lia).
      exists (Z.pos m / 2 ^ (- e)), 0.
      assert (Hq : 0 ≤ Z.pos m / 2 ^ (- e) < 2 ^ 24).
      { split; [apply Z.div_pos; lia|].
        apply Z.div_lt_upper_bound; [lia|]. nia. }
      split; [exact Hq|]. split; [lia|].
      rewrite Z.mul_1_r, Hm'.
      replace (2 ^ (- (e - (53 - d)))) with (2 ^ (- e) * 2 ^ (53 - d))
        by (rewrite <- Z.pow_add_r by lia; f_equal; lia).
      rewrite Z.div_mul_cancel_r by lia.
      apply Habs. lia.
Qed.

(** ** Decoded updates *)

Section Decoded.
Variable pow : spec_float → spec_float → spec_float.

Lemma decoded_lookup_table (data : bytes) (rpm max_rpm : Z) (key : string) :
  key ∉ derived_keys →
  dict_update (update_table data rpm max_rpm)
    (TelemetryParser._calculate_derived_values pow
       (update_table data rpm max_rpm)) !! key
  = update_table data rpm max_rpm !! key.
Proof.
  intros Hkey. unfold dict_update. apply lookup_union_r.
  by apply derived_values_keys.
Qed.

Lemma decoded_lookup_derived (data : bytes) (rpm max_rpm : Z) (key : string) :
  key ∈ derived_keys →
  dict_update (update_table data rpm max_rpm)
    (TelemetryParser._calculate_derived_values pow
       (update_table data rpm max_rpm)) !! key
  = TelemetryParser._calculate_derived_values pow
      (update_table data rpm max_rpm) !! key.
Proof.
  intros Hkey. unfold dict_update. apply lookup_union_l.
  by apply update_table_no_derived.
Qed.

Ltac not_derived :=
  unfold derived_keys; intros Hin;
  repeat (apply elem_of_cons in Hin as [Hin | Hin]; [discriminate Hin|]);
  by apply elem_of_nil in Hin.

(** C9, as amended.  For an Update payload of at least 328 bytes whose
    [rpm] and [max_rpm] fields are finite numbers, [_parse_update] returns
    a result and counts the packet; in the result, [speed_kmh] is the
    binary32 at offset 0, [speed_mph] is the binary64 product of that number
    and 0.621371, and each of the six arrays holds, in this order, the four
    consecutive binary32 values at its offset: 92, 108, 124, 140, 156 and
    172. *)
Theorem update_fields_follow_offsets (payload : bytes) (self : TelemetryParser.t) :
  (328 ≤ length payload)%nat →
  F64.is_finite (f32_at payload 12) = true →
  F64.is_finite (f32_at payload 16) = true →
  ∃ d : dict,
    TelemetryParser._parse_update pow payload self =
      (d, {| TelemetryParser.packet_count :=
               TelemetryParser.packet_count self + 1 |})
    ∧ d !! "packet_type" = Some (VStr (str_lit "update"))
    ∧ d !! "speed_kmh" = Some (VFloat (f32_at payload 0))
    ∧ d !! "speed_mph" =
        Some (VFloat (F64.mul (f32_at payload 0) (F64.literal 621371 1000000)))
    ∧ d !! "wheel_angular_speed" =
        Some (VList [VFloat (f32_at payload 92); VFloat (f32_at payload 96);
                     VFloat (f32_at payload 100); VFloat (f32_at payload 104)])
    ∧ d !! "wheel_slip" =
        Some (VList [VFloat (f32_at payload 108); VFloat (f32_at payload 112);
                     VFloat (f32_at payload 116); VFloat (f32_at payload 120)])
    ∧ d !! "wheel_load" =
        Some (VList [VFloat (f32_at payload 124); VFloat (f32_at payload 128);
                     VFloat (f32_at payload 132); VFloat (f32_at payload 136)])
    ∧ d !! "tire_pressure" =
        Some (VList [VFloat (f32_at payload 140); VFloat (f32_at payload 144);
                     VFloat (f32_at payload 148); VFloat (f32_at payload 152)])
    ∧ d !! "tire_temperature_core" =
        Some (VList [VFloat (f32_at payload 156); VFloat (f32_at payload 160);
                     VFloat (f32_at payload 164); VFloat (f32_at payload 168)])
    ∧ d !! "suspension_travel" =
        Some (VList [VFloat (f32_at payload 172); VFloat (f32_at payload 176);
                     VFloat (f32_at payload 180); VFloat (f32_at payload 184)]).
Proof.
  intros Hlen [rpm Hrpm]%to_int_finite [max_rpm Hmax]%to_int_finite.
  eexists. split; [by apply parse_update_decoded|].
  destruct (update_table_scalars payload rpm max_rpm) as (Hk & Hm & _).
  destruct (update_table_wheels payload rpm max_rpm)
    as (Hw1 & Hw2 & Hw3 & Hw4 & Hw5 & Hw6).
  cbv zeta in *.
  repeat split;
    (rewrite decoded_lookup_table by not_derived);
    first [ exact Hk | exact Hm | exact Hw1 | exact Hw2 | exact Hw3
          | exact Hw4 | exact Hw5 | exact Hw6 | table_lookup ].
Qed.

(** C1, as amended.  In every decoded update, [rpm] and [max_rpm] are the
    integer parts of the binary32 numbers at offsets 12 and 16, and the
    recommendation is the one of exact arithmetic on these two integers,
    whatever their size: SHIFT UP exactly when [rpm > 0.85 * max_rpm],
    strictly; otherwise SHIFT DOWN exactly when [rpm < 0.30 * max_rpm];
    otherwise OPTIMAL.  The rounding of the two binary64 products of the
    code never changes the outcome.  There is no case for [max_rpm = 0]:
    the recommendation is then SHIFT UP for a positive [rpm], SHIFT DOWN for
    a negative one, and OPTIMAL only for [rpm = 0]. *)
Theorem shift_recommendation_of_update
    (payload : bytes) (self self' : TelemetryParser.t) (d : dict) :
  TelemetryParser._parse_update pow payload self = (d, self') →
  d ≠ ∅ →
  ∃ rpm max_rpm : Z,
    F64.to_int (f32_at payload 12) = Some rpm
    ∧ F64.to_int (f32_at payload 16) = Some max_rpm
    ∧ d !! "rpm" = Some (VInt rpm)
    ∧ d !! "max_rpm" = Some (VInt max_rpm)
    ∧ d !! "gear_recommendation"
      = VStr <$> TelemetryParser.gear_recommendation rpm max_rpm
    ∧ d !! "gear_recommendation" =
        Some (VStr (if 17 * max_rpm <? 20 * rpm then str_lit "SHIFT UP"
                    else if 10 * rpm <? 3 * max_rpm then str_lit "SHIFT DOWN"
                    else str_lit "OPTIMAL"))
    ∧ (max_rpm = 0 →
       d !! "gear_recommendation" =
         Some (VStr (if 0 <? rpm then str_lit "SHIFT UP"
                     else if rpm <? 0 then str_lit "SHIFT DOWN"
                     else str_lit "OPTIMAL"))).
Proof.
  intros Hparse Hne.
  destruct (parse_update_inv pow _ _ _ _ Hparse Hne)
    as (rpm & max_rpm & Hlen & Hrpm & Hmax & ->).
  exists rpm, max_rpm.
  destruct (update_table_scalars payload rpm max_rpm) as (_ & _ & Hr & Hm & _).
  cbv zeta in *.
  assert (Hgear :
    dict_update (update_table payload rpm max_rpm)
      (TelemetryParser._calculate_derived_values pow
         (update_table payload rpm max_rpm)) !! "gear_recommendation"
    = VStr <$> TelemetryParser.gear_recommendation rpm max_rpm).
  { rewrite decoded_lookup_derived.
    - apply derived_gear_recommendation.
    - unfold derived_keys. do 3 (apply elem_of_cons; right).
      apply elem_of_cons. left. reflexivity. }
  assert (Hexact :
    dict_update (update_table payload rpm max_rpm)
      (TelemetryParser._calculate_derived_values pow
         (update_table payload rpm max_rpm)) !! "gear_recommendation"
    = Some (VStr (exact_recommendation rpm max_rpm))).
  { rewrite Hgear, gear_recommendation_exact.
    - reflexivity.
    - exact (to_int_f32 (word_at payload 12) rpm Hrpm).
    - exact (to_int_f32 (word_at payload 16) max_rpm Hmax). }
  split; [exact Hrpm|]. split; [exact Hmax|].
  split; [rewrite decoded_lookup_table by not_derived; exact Hr|].
  split; [rewrite decoded_lookup_table by not_derived; exact Hm|].
  split; [exact Hgear|].
  split; [exact Hexact|].
  intros ->. rewrite Hexact.
  unfold exact_recommendation.
  replace (17 * 0 <? 20 * rpm) with (0 <? rpm)
    by (destruct (Z.ltb_spec 0 rpm), (Z.ltb_spec (17 * 0) (20 * rpm)); lia).
  replace (10 * rpm <? 3 * 0) with (rpm <? 0)
    by (destruct (Z.ltb_spec rpm 0), (Z.ltb_spec (10 * rpm) (3 * 0)); lia).
  reflexivity.
Qed.
End Decoded.

Lemma update_fields_follow_offsets_witness :
  let payload := Sample.payload_120_kmh in
  ∃ d : dict,
    TelemetryParser._parse_update Sample.pow payload TelemetryParser.__init__ =
      (d, {| TelemetryParser.packet_count :=
               TelemetryParser.packet_count TelemetryParser.__init__ + 1 |})
    ∧ d !! "packet_type" = Some (VStr (str_lit "update"))
    ∧ d !! "speed_kmh" = Some (VFloat (f32_at payload 0))
    ∧ d !! "speed_mph" =
        Some (VFloat (F64.mul (f32_at payload 0) (F64.literal 621371 1000000)))
    ∧ d !! "wheel_angular_speed" =
        Some (VList [VFloat (f32_at payload 92); VFloat (f32_at payload 96);
                     VFloat (f32_at payload 100); VFloat (f32_at payload 104)])
    ∧ d !! "wheel_slip" =
        Some (VList [VFloat (f32_at payload 108); VFloat (f32_at payload 112);
                     VFloat (f32_at payload 116); VFloat (f32_at payload 120)])
    ∧ d !! "wheel_load" =
        Some (VList [VFloat (f32_at payload 124); VFloat (f32_at payload 128);
                     VFloat (f32_at payload 132); VFloat (f32_at payload 136)])
    ∧ d !! "tire_pressure" =
        Some (VList [VFloat (f32_at payload 140); VFloat (f32_at payload 144);
                     VFloat (f32_at payload 148); VFloat (f32_at payload 152)])
    ∧ d !! "tire_temperature_core" =
        Some (VList [VFloat (f32_at payload 156); VFloat (f32_at payload 160);
                     VFloat (f32_at payload 164); VFloat (f32_at payload 168)])
    ∧ d !! "suspension_travel" =
        Some (VList [VFloat (f32_at payload 172); VFloat (f32_at payload 176);
                     VFloat (f32_at payload 180); VFloat (f32_at payload 184)]).
Proof.
  apply (update_fields_follow_offsets Sample.pow Sample.payload_120_kmh
           TelemetryParser.__init__).
  - vm_compute. lia.
  - vm_compute. reflexivity.
  - vm_compute. reflexivity.
Defined.

(** C9, refuted as stated: a payload of 328 bytes whose [rpm] field holds
    the NaN [00 00 c0 7f] makes [int(rpm)] raise, and the result of
    [_parse_update] is the empty dictionary, without a [speed_mph]. *)
Lemma nan_rpm_update_has_no_fields :
  ¬ (∀ (payload : bytes) (self : TelemetryParser.t),
       (328 ≤ length payload)%nat →
       ∃ x, (TelemetryParser._parse_update Sample.pow payload self).1
              !! "speed_mph" = Some (VFloat x)).
Proof.
  intros H.
  assert (Hlen : (328 ≤ length Sample.payload_rpm_nan)%nat)
    by (vm_compute; lia).
  destruct (H Sample.payload_rpm_nan TelemetryParser.__init__ Hlen) as [x Hx].
  vm_compute in Hx. discriminate.
Qed.

Lemma shift_recommendation_of_update_witness :
  let payload := Sample.payload_120_kmh in
  let r := TelemetryParser._parse_update Sample.pow payload
             TelemetryParser.__init__ in
  ∃ rpm max_rpm : Z,
    F64.to_int (f32_at payload 12) = Some rpm
    ∧ F64.to_int (f32_at payload 16) = Some max_rpm
    ∧ r.1 !! "rpm" = Some (VInt rpm)
    ∧ r.1 !! "max_rpm" = Some (VInt max_rpm)
    ∧ r.1 !! "gear_recommendation"
      = VStr <$> TelemetryParser.gear_recommendation rpm max_rpm
    ∧ r.1 !! "gear_recommendation" =
        Some (VStr (if 17 * max_rpm <? 20 * rpm then str_lit "SHIFT UP"
                    else if 10 * rpm <? 3 * max_rpm then str_lit "SHIFT DOWN"
                    else str_lit "OPTIMAL"))
    ∧ (max_rpm = 0 →
       r.1 !! "gear_recommendation" =
         Some (VStr (if 0 <? rpm then str_lit "SHIFT UP"
                     else if rpm <? 0 then str_lit "SHIFT DOWN"
                     else str_lit "OPTIMAL"))).
Proof.
  apply (shift_recommendation_of_update Sample.pow Sample.payload_120_kmh
           TelemetryParser.__init__
           (TelemetryParser._parse_update Sample.pow Sample.payload_120_kmh
              TelemetryParser.__init__).2).
  - apply surjective_pairing.
  - intros Hempty.
    apply (f_equal (λ m : dict, m !! "packet_type")) in Hempty.
    vm_compute in Hempty. discriminate.
Defined.

(** C1, refuted as stated: the Update payload with [rpm = 5000.0] and
    [max_rpm = 0.0] decodes to [max_rpm = 0] and the recommendation
    SHIFT UP, since [5000 > 0 * 0.85]. *)
Lemma zero_max_rpm_is_not_optimal :
  ¬ (∀ (payload : bytes) (self self' : TelemetryParser.t) (d : dict),
       TelemetryParser._parse_update Sample.pow payload self = (d, self') →
       d !! "max_rpm" = Some (VInt 0) →
       d !! "gear_recommendation" = Some (VStr (str_lit "OPTIMAL"))).
Proof.
  intros H.
  specialize (H Sample.payload_rpm_5000 TelemetryParser.__init__ _ _
                (surjective_pairing _)).
  assert (Hzero :
    (TelemetryParser._parse_update Sample.pow Sample.payload_rpm_5000
       TelemetryParser.__init__).1 !! "max_rpm" = Some (VInt 0))
    by (vm_compute; reflexivity).
  specialize (H Hzero). vm_compute in H. discriminate.
Qed.

(** The end-to-end scenario of the specification: 120 km/h, 7200 of 8000
    rpm. *)
Example update_120_kmh_recommendation :
  (TelemetryParser.parse Sample.pow Sample.update_120_kmh
     TelemetryParser.__init__).1
    ≫= (.!! "gear_recommendation") = Some (VStr (str_lit "SHIFT UP")).
Proof. vm_compute. reflexivity. Qed.

(** Exactly at [0.85 * max_rpm] the recommendation is not SHIFT UP. *)
Example rpm_6800_of_8000 :
  TelemetryParser.gear_recommendation 6800 8000 = Some (str_lit "OPTIMAL")
  ∧ TelemetryParser.gear_recommendation 6801 8000 = Some (str_lit "SHIFT UP")
  ∧ TelemetryParser.gear_recommendation 2399 8000 = Some (str_lit "SHIFT DOWN")
  ∧ TelemetryParser.gear_recommendation 2400 8000 = Some (str_lit "OPTIMAL").
Proof. vm_compute. done. Qed.

(** The same thresholds far above any engine speed: [rpm] at 0.85 and at 0.3
    of [max_rpm = 5 * 2^100], and one binary32 step above and below. *)
Example rpm_at_large_scale :
  let max_rpm := 5 * 2 ^ 100 in
  TelemetryParser.gear_recommendation (17 * 2 ^ 98) max_rpm
    = Some (str_lit "OPTIMAL")
  ∧ TelemetryParser.gear_recommendation (17 * 2 ^ 98 + 2 ^ 79) max_rpm
    = Some (str_lit "SHIFT UP")
  ∧ TelemetryParser.gear_recommendation (3 * 2 ^ 99) max_rpm
    = Some (str_lit "OPTIMAL")
  ∧ TelemetryParser.gear_recommendation (3 * 2 ^ 99 - 2 ^ 77) max_rpm
    = Some (str_lit "SHIFT DOWN").
Proof. vm_compute. done. Qed.

(** ** Handshake names *)

Lemma scan_ascii_cons (b : Byte.byte) (rest : bytes) :
  is_ascii b → Utf8.scan (b :: rest) = Utf8.Char (byte_val b) :: Utf8.scan rest.
Proof.
  unfold is_ascii. intros Hb. cbn [Utf8.scan].
  by destruct (Z.ltb_spec (byte_val b) 0x80); [|lia].
Qed.

Lemma scan_invalid_cons (b : Byte.byte) (rest : bytes) :
  is_invalid_start b → Utf8.scan (b :: rest) = Utf8.Malformed 1 :: Utf8.scan rest.
Proof.
  unfold is_invalid_start. intros Hb. cbn [Utf8.scan].
  destruct (Z.ltb_spec (byte_val b) 0x80); [lia|].
  destruct (Z.ltb_spec (byte_val b) 0xC2); [done|].
  destruct (Z.ltb_spec (byte_val b) 0xE0); [lia|].
  destruct (Z.ltb_spec (byte_val b) 0xF0); [lia|].
  by destruct (Z.ltb_spec (byte_val b) 0xF5); [lia|].
Qed.

Lemma decode_ascii_app (h : Utf8.errors) (xs rest : bytes) :
  Forall is_ascii xs →
  Utf8.decode h (xs ++ rest) = (byte_val <$> xs) ++ Utf8.decode h rest.
Proof.
  unfold Utf8.decode. induction 1 as [|b xs Hb _ IH]; [done|].
  cbn [app fmap list_fmap]. rewrite scan_ascii_cons by done.
  cbn [mbind list_bind Utf8.handle app]. by rewrite <- IH.
Qed.

Lemma decode_ascii (h : Utf8.errors) (xs : bytes) :
  Forall is_ascii xs → Utf8.decode h xs = byte_val <$> xs.
Proof.
  intros H. rewrite <- (app_nil_r xs) at 1.
  rewrite decode_ascii_app by done. apply app_nil_r.
Qed.

(** An ill-formed byte between ASCII text: ['ignore'] drops it, ['replace']
    puts U+FFFD where it stood. *)
Lemma decode_invalid_between_ascii (xs ys : bytes) (b : Byte.byte) :
  Forall is_ascii xs → Forall is_ascii ys → is_invalid_start b →
  Utf8.decode Utf8.Ignore (xs ++ b :: ys) = byte_val <$> (xs ++ ys)
  ∧ Utf8.decode Utf8.Replace (xs ++ b :: ys)
    = (byte_val <$> xs) ++ Utf8.replacement_character :: (byte_val <$> ys).
Proof.
  intros Hxs Hys Hb. rewrite !decode_ascii_app by done.
  unfold Utf8.decode. rewrite scan_invalid_cons by done.
  cbn [mbind list_bind Utf8.handle app].
  change (Utf8.scan ys ≫= Utf8.handle Utf8.Ignore)
    with (Utf8.decode Utf8.Ignore ys).
  change (Utf8.scan ys ≫= Utf8.handle Utf8.Replace)
    with (Utf8.decode Utf8.Replace ys).
  by rewrite !decode_ascii, fmap_app.
Qed.

(** [rstrip] removes trailing NULs and nothing else. *)
Lemma rstrip_nul_spec (s : str) :
  last (rstrip_nul s) ≠ Some 0
  ∧ ∃ n : nat, s = rstrip_nul s ++ replicate n 0.
Proof.
  induction s as [|c r [IHl [n IHr]]]; [by split; [|exists 0%nat]|].
  cbn [rstrip_nul]. destruct (rstrip_nul r) as [|x l] eqn:Hr.
  - destruct (Z.eqb_spec c 0) as [->|Hc].
    + split; [done|]. exists (S n). by rewrite IHr.
    + split; [by intros [= ?]|]. exists n. by rewrite IHr.
  - split; [exact IHl|]. exists n. by rewrite IHr at 1.
Qed.

(** C8, as amended.  For a Handshake payload of at least 8 bytes the two
    names are the UTF-8 decodings, with the ['ignore'] handler, of the byte
    ranges that the two length words give, stripped of trailing NULs: an
    ill-formed byte is dropped from the name, where the ['replace'] handler
    would put U+FFFD, and a stripped name does not end in a NUL and differs
    from the decoded one by trailing NULs only. *)
Theorem handshake_names_ignore_invalid_bytes
    (payload : bytes) (car_name_len driver_name_len : Z) :
  (8 ≤ length payload)%nat →
  Struct.unpack_II (take 8 payload) = Some (car_name_len, driver_name_len) →
  let car := slice 8 (8 + Z.to_nat car_name_len) payload in
  let driver :=
    slice (8 + Z.to_nat car_name_len)
      (8 + Z.to_nat car_name_len + Z.to_nat driver_name_len) payload in
  (TelemetryParser._parse_handshaker payload !! "car_name"
     = Some (VStr (rstrip_nul (Utf8.decode Utf8.Ignore car)))
   ∧ TelemetryParser._parse_handshaker payload !! "driver_name"
     = Some (VStr (rstrip_nul (Utf8.decode Utf8.Ignore driver)))
   ∧ TelemetryParser._parse_handshaker payload !! "packet_type"
     = Some (VStr (str_lit "handshaker")))
  ∧ (∀ (xs ys : bytes) (b : Byte.byte),
       Forall is_ascii xs → Forall is_ascii ys → is_invalid_start b →
       Utf8.decode Utf8.Ignore (xs ++ b :: ys) = byte_val <$> (xs ++ ys)
       ∧ Utf8.decode Utf8.Replace (xs ++ b :: ys)
         = (byte_val <$> xs) ++ Utf8.replacement_character :: (byte_val <$> ys))
  ∧ (∀ s : str,
       last (rstrip_nul s) ≠ Some 0
       ∧ ∃ n : nat, s = rstrip_nul s ++ replicate n 0).
Proof.
  intros Hlen Hw car driver.
  split; [|split; [apply decode_invalid_between_ascii | apply rstrip_nul_spec]].
  unfold TelemetryParser._parse_handshaker.
  destruct (Nat.ltb_spec (length payload) 8); [lia|].
  change (slice 0 8 payload) with (take 8 payload). rewrite Hw.
  split; [apply lookup_insert_eq|]. split.
  - rewrite lookup_insert_ne by done. apply lookup_insert_eq.
  - do 2 (rewrite lookup_insert_ne by done). apply lookup_insert_eq.
Qed.

Lemma handshake_names_ignore_invalid_bytes_witness :
  let payload := Sample.payload_handshake_AB in
  let car := slice 8 (8 + Z.to_nat 3) payload in
  let driver := slice (8 + Z.to_nat 3) (8 + Z.to_nat 3 + Z.to_nat 2) payload in
  (TelemetryParser._parse_handshaker payload !! "car_name"
     = Some (VStr (rstrip_nul (Utf8.decode Utf8.Ignore car)))
   ∧ TelemetryParser._parse_handshaker payload !! "driver_name"
     = Some (VStr (rstrip_nul (Utf8.decode Utf8.Ignore driver)))
   ∧ TelemetryParser._parse_handshaker payload !! "packet_type"
     = Some (VStr (str_lit "handshaker")))
  ∧ (∀ (xs ys : bytes) (b : Byte.byte),
       Forall is_ascii xs → Forall is_ascii ys → is_invalid_start b →
       Utf8.decode Utf8.Ignore (xs ++ b :: ys) = byte_val <$> (xs ++ ys)
       ∧ Utf8.decode Utf8.Replace (xs ++ b :: ys)
         = (byte_val <$> xs) ++ Utf8.replacement_character :: (byte_val <$> ys))
  ∧ (∀ s : str,
       last (rstrip_nul s) ≠ Some 0
       ∧ ∃ n : nat, s = rstrip_nul s ++ replicate n 0).
Proof.
  apply (handshake_names_ignore_invalid_bytes Sample.payload_handshake_AB 3 2).
  - vm_compute. lia.
  - reflexivity.
Defined.

(** C8, refuted as stated: in the Handshake payload whose car name is the
    three bytes [41 ff 42], the byte [ff] is ill-formed; the decoded name
    is [AB], and not [A], U+FFFD, [B] as replacement would give. *)
Lemma invalid_name_byte_is_dropped :
  ¬ (∀ (payload : bytes) (car_name_len driver_name_len : Z),
       (8 ≤ length payload)%nat →
       Struct.unpack_II (take 8 payload) = Some (car_name_len, driver_name_len) →
       TelemetryParser._parse_handshaker payload !! "car_name"
       = Some (VStr (rstrip_nul (Utf8.decode Utf8.Replace
                 (slice 8 (8 + Z.to_nat car_name_len) payload))))).
Proof.
  intros H.
  assert (Hlen : (8 ≤ length Sample.payload_handshake_AB)%nat)
    by (vm_compute; lia).
  specialize (H Sample.payload_handshake_AB 3 2 Hlen eq_refl).
  vm_compute in H. discriminate.
Qed.

Example handshake_AB_names :
  (TelemetryParser.parse Sample.pow Sample.handshake_AB TelemetryParser.__init__).1
  = Some (<["car_name" := VStr (str_lit "AB")]> $
          <["driver_name" := VStr (str_lit "C")]> $
          <["packet_type" := VStr (str_lit "handshaker")]> ∅).
Proof. vm_compute. reflexivity. Qed.

(** * Further properties of the parser and the receiver *)

Section Malformed.
Variable pow : spec_float → spec_float → spec_float.

Lemma parse_malformed (data : bytes) (self : TelemetryParser.t) :
  (length data < 4)%nat
  ∨ (∃ w, Struct.unpack_I (take 4 data) = Some w
          ∧ w ≠ ACUDPType.HANDSHAKER ∧ w ≠ ACUDPType.UPDATE
          ∧ w ≠ ACUDPType.SPOT) →
  TelemetryParser.parse pow data self = (None, self).
Proof.
  intros [Hshort | (w & Hw & H0 & H1 & H2)].
  - unfold TelemetryParser.parse.
    by destruct (Nat.ltb_spec (length data) 4); [|lia].
  - rewrite (parse_dispatch pow _ _ _ Hw).
    destruct (Z.eqb_spec w ACUDPType.HANDSHAKER); [done|].
    destruct (Z.eqb_spec w ACUDPType.UPDATE); [done|].
    by destruct (Z.eqb_spec w ACUDPType.SPOT).
Qed.

(** X1.  A datagram of fewer than 4 bytes, or one whose tag is none of 0, 1
    and 2, is rejected with [None]; the parser and the dashboard stay as
    they were, and yet the receive loop, having received something, turns
    the connection flag on. *)
Theorem malformed_datagram_is_discarded
    (data : bytes) (now : Z) (self : ACTelemetryDashboard.t) :
  (length data < 4)%nat
  ∨ (∃ w, Struct.unpack_I (take 4 data) = Some w
          ∧ w ≠ ACUDPType.HANDSHAKER ∧ w ≠ ACUDPType.UPDATE
          ∧ w ≠ ACUDPType.SPOT) →
  TelemetryParser.parse pow data (ACTelemetryDashboard.telemetry_parser self)
    = (None, ACTelemetryDashboard.telemetry_parser self)
  ∧ ACTelemetryDashboard.process_telemetry_data pow data now self = self
  ∧ (ACTelemetryDashboard.udp_socket self = true →
     ACTelemetryDashboard.loop_body pow
       (ACTelemetryDashboard.Datagram data now) self
     = if ACTelemetryDashboard.connected self then self
       else ACTelemetryDashboard.set_connected true self).
Proof.
  intros Hbad.
  pose proof (parse_malformed data
                (ACTelemetryDashboard.telemetry_parser self) Hbad) as Hp.
  assert (Hproc :
    ACTelemetryDashboard.process_telemetry_data pow data now self = self)
    by (by eapply process_no_data).
  split; [exact Hp|]. split; [exact Hproc|].
  intros Hsock. unfold ACTelemetryDashboard.loop_body.
  rewrite Hsock, Hproc. by destruct (ACTelemetryDashboard.connected self).
Qed.
End Malformed.

Lemma malformed_datagram_is_discarded_witness :
  let data := Sample.tag Byte.x07 ++ Sample.zeros 20 in
  TelemetryParser.parse Sample.pow data
      (ACTelemetryDashboard.telemetry_parser Sample.dashboard)
    = (None, ACTelemetryDashboard.telemetry_parser Sample.dashboard)
  ∧ ACTelemetryDashboard.process_telemetry_data Sample.pow data 7
      Sample.dashboard = Sample.dashboard
  ∧ (ACTelemetryDashboard.udp_socket Sample.dashboard = true →
     ACTelemetryDashboard.loop_body Sample.pow
       (ACTelemetryDashboard.Datagram data 7) Sample.dashboard
     = if ACTelemetryDashboard.connected Sample.dashboard then Sample.dashboard
       else ACTelemetryDashboard.set_connected true Sample.dashboard).
Proof.
  apply (malformed_datagram_is_discarded Sample.pow
           (Sample.tag Byte.x07 ++ Sample.zeros 20) 7 Sample.dashboard).
  right. exists 7. split; [reflexivity|]. repeat split; vm_compute; discriminate.
Defined.

Section DecodedFields.
Variable pow : spec_float → spec_float → spec_float.

(** X2.  The scalar fields of a decoded update, by offset: [rpm] and
    [max_rpm] are the integer parts of the numbers at offsets 12 and 16,
    [gear] and [lap_count] the signed words at 20 and 48, the three g-forces
    the numbers at 24, 28 and 32, the three lap times the signed words at
    36, 40 and 44 divided by 1000.0, [fuel] the number at 52, and the
    velocity and the acceleration the triples at 68 and 80; the bytes 4-11
    and 56-67 are not read. *)
Theorem update_scalars_follow_offsets
    (payload : bytes) (self : TelemetryParser.t) (rpm max_rpm : Z) :
  (328 ≤ length payload)%nat →
  F64.to_int (f32_at payload 12) = Some rpm →
  F64.to_int (f32_at payload 16) = Some max_rpm →
  let d := (TelemetryParser._parse_update pow payload self).1 in
  (d !! "rpm" = Some (VInt rpm)
   ∧ d !! "max_rpm" = Some (VInt max_rpm)
   ∧ d !! "gear" = Some (VInt (i32_at payload 20))
   ∧ d !! "lap_count" = Some (VInt (i32_at payload 48)))
  ∧ (d !! "g_force_lateral" = Some (VFloat (f32_at payload 24))
     ∧ d !! "g_force_longitudinal" = Some (VFloat (f32_at payload 28))
     ∧ d !! "g_force_vertical" = Some (VFloat (f32_at payload 32))
     ∧ d !! "fuel" = Some (VFloat (f32_at payload 52)))
  ∧ (d !! "lap_time" =
       Some (VFloat (F64.div (F64.of_Z (i32_at payload 36)) (F64.of_Z 1000)))
     ∧ d !! "last_lap" =
       Some (VFloat (F64.div (F64.of_Z (i32_at payload 40)) (F64.of_Z 1000)))
     ∧ d !! "best_lap" =
       Some (VFloat (F64.div (F64.of_Z (i32_at payload 44)) (F64.of_Z 1000))))
  ∧ (d !! "car_velocity" =
       Some (VList [VFloat (f32_at payload 68); VFloat (f32_at payload 72);
                    VFloat (f32_at payload 76)])
     ∧ d !! "car_acceleration" =
       Some (VList [VFloat (f32_at payload 80); VFloat (f32_at payload 84);
                    VFloat (f32_at payload 88)])).
Proof.
  intros Hlen Hrpm Hmax d. subst d.
  rewrite (parse_update_decoded pow payload self rpm max_rpm Hlen Hrpm Hmax).
  cbn [fst].
  repeat split;
    (rewrite decoded_lookup_table by
       (unfold derived_keys; intros Hin;
        repeat (apply elem_of_cons in Hin as [Hin | Hin]; [discriminate Hin|]);
        by apply elem_of_nil in Hin));
    table_lookup.
Qed.

(** The first three derived entries are written whatever follows. *)
Lemma derived_wheel_metrics (data : bytes) (rpm max_rpm : Z) :
  let v := TelemetryParser._calculate_derived_values pow
             (update_table data rpm max_rpm) in
  v !! "wheel_lock" =
    Some (VList [VBool (wheel_locked data 0); VBool (wheel_locked data 1);
                 VBool (wheel_locked data 2); VBool (wheel_locked data 3)])
  ∧ v !! "abs_in_action" =
    Some (VBool (wheel_locked data 0 || wheel_locked data 1
                 || wheel_locked data 2 || wheel_locked data 3))
  ∧ v !! "tire_pressure_delta" =
    Some (VList [VFloat (pressure_delta_at data 140);
                 VFloat (pressure_delta_at data 144);
                 VFloat (pressure_delta_at data 148);
                 VFloat (pressure_delta_at data 152)])
  ∧ (is_Some (TelemetryParser.gear_recommendation rpm max_rpm) →
     v !! "g_force_total" =
       Some (VFloat (pow (F64.add (pow (f32_at data 24) (F64.of_Z 2))
                                  (pow (f32_at data 28) (F64.of_Z 2)))
                         (F64.literal 1 2)))).
Proof.
  destruct (update_table_wheels data rpm max_rpm) as (Hw & Hs & _ & Hp & _).
  destruct (update_table_scalars data rpm max_rpm)
    as (_ & _ & Hr & Hm & Hgx & Hgy).
  cbv zeta in *.
  unfold TelemetryParser._calculate_derived_values.
  assert (Hlock : mapM (TelemetryParser.wheel_lock_at
                    (update_table data rpm max_rpm)) (seq 0 4)
                  = Some [wheel_locked data 0; wheel_locked data 1;
                          wheel_locked data 2; wheel_locked data 3]).
  { cbn [seq mapM]. unfold TelemetryParser.wheel_lock_at, TelemetryParser.get.
    rewrite Hw, Hs.
    by cbn -[F64.gtb F64.ltb F64.abs F64.literal F64.of_Z f32_at]. }
  rewrite Hlock.
  assert (Hdelta : TelemetryParser.tire_pressure_delta
                     (update_table data rpm max_rpm)
                   = Some [pressure_delta_at data 140; pressure_delta_at data 144;
                           pressure_delta_at data 148; pressure_delta_at data 152]).
  { unfold TelemetryParser.tire_pressure_delta, TelemetryParser.get.
    rewrite Hp. by cbn -[F64.sub TelemetryParser.optimal_pressure f32_at]. }
  rewrite Hdelta.
  assert (Htotal : TelemetryParser.g_force_total pow
                     (update_table data rpm max_rpm)
                   = Some (pow (F64.add (pow (f32_at data 24) (F64.of_Z 2))
                                        (pow (f32_at data 28) (F64.of_Z 2)))
                               (F64.literal 1 2))).
  { unfold TelemetryParser.g_force_total, TelemetryParser.get.
    by rewrite Hgx, Hgy. }
  rewrite Htotal.
  unfold TelemetryParser.get. rewrite Hr, Hm.
  cbn [from_option id TelemetryParser.as_int mbind option_bind].
  destruct (TelemetryParser.gear_recommendation rpm max_rpm) as [g|];
    cbv beta iota zeta; cbn [existsb id fmap list_fmap].
  - split; [do 4 (rewrite lookup_insert_ne by done); apply lookup_insert_eq|].
    split; [do 3 (rewrite lookup_insert_ne by done);
            rewrite orb_false_r, !orb_assoc; apply lookup_insert_eq|].
    split; [do 2 (rewrite lookup_insert_ne by done); apply lookup_insert_eq|].
    intros _. apply lookup_insert_eq.
  - split; [do 2 (rewrite lookup_insert_ne by done); apply lookup_insert_eq|].
    split; [rewrite lookup_insert_ne by done;
            rewrite orb_false_r, !orb_assoc; apply lookup_insert_eq|].
    split; [apply lookup_insert_eq|].
    by intros [? ?].
Qed.

(** X3.  The derived wheel metrics of a decoded update: wheel [i] is
    locked when the absolute slip at offset [108 + 4 i] exceeds 0.1 and the
    absolute angular speed at [92 + 4 i] is below 1.0; the ABS flag is the
    disjunction of the four; each pressure delta is the pressure at
    [140 + 4 i] minus 1.896; and, when [float(max_rpm)] does not overflow,
    the total g-force is [(x ** 2 + y ** 2) ** 0.5] of the numbers at
    offsets 24 and 28. *)
Theorem update_derived_metrics
    (payload : bytes) (self : TelemetryParser.t) (rpm max_rpm : Z) :
  (328 ≤ length payload)%nat →
  F64.to_int (f32_at payload 12) = Some rpm →
  F64.to_int (f32_at payload 16) = Some max_rpm →
  let d := (TelemetryParser._parse_update pow payload self).1 in
  d !! "wheel_lock" =
    Some (VList [VBool (wheel_locked payload 0); VBool (wheel_locked payload 1);
                 VBool (wheel_locked payload 2); VBool (wheel_locked payload 3)])
  ∧ d !! "abs_in_action" =
    Some (VBool (wheel_locked payload 0 || wheel_locked payload 1
                 || wheel_locked payload 2 || wheel_locked payload 3))
  ∧ d !! "tire_pressure_delta" =
    Some (VList [VFloat (pressure_delta_at payload 140);
                 VFloat (pressure_delta_at payload 144);
                 VFloat (pressure_delta_at payload 148);
                 VFloat (pressure_delta_at payload 152)])
  ∧ (F64.is_finite (F64.of_Z max_rpm) = true →
     d !! "g_force_total" =
       Some (VFloat (pow (F64.add (pow (f32_at payload 24) (F64.of_Z 2))
                                  (pow (f32_at payload 28) (F64.of_Z 2)))
                         (F64.literal 1 2)))).
Proof.
  intros Hlen Hrpm Hmax d. subst d.
  rewrite (parse_update_decoded pow payload self rpm max_rpm Hlen Hrpm Hmax).
  cbn [fst].
  destruct (derived_wheel_metrics payload rpm max_rpm) as (H1 & H2 & H3 & H4).
  cbv zeta in *.
  assert (Hk1 : "wheel_lock" ∈ derived_keys) by apply list_elem_of_here.
  assert (Hk2 : "abs_in_action" ∈ derived_keys)
    by (apply list_elem_of_further, list_elem_of_here).
  assert (Hk3 : "tire_pressure_delta" ∈ derived_keys)
    by (do 2 apply list_elem_of_further; apply list_elem_of_here).
  assert (Hk4 : "g_force_total" ∈ derived_keys)
    by (do 4 apply list_elem_of_further; apply list_elem_of_here).
  split; [rewrite decoded_lookup_derived by exact Hk1; exact H1|].
  split; [rewrite decoded_lookup_derived by exact Hk2; exact H2|].
  split; [rewrite decoded_lookup_derived by exact Hk3; exact H3|].
  intros Hfin. rewrite decoded_lookup_derived by exact Hk4.
  apply H4. unfold TelemetryParser.gear_recommendation.
  cbn [TelemetryParser.as_float]. rewrite Hfin. cbn [mbind option_bind].
  by repeat case_match.
Qed.
End DecodedFields.

Section Snapshot.
Variable pow : spec_float → spec_float → spec_float.

Lemma unpack_I_take_4 (data : bytes) :
  (4 ≤ length data)%nat → ∃ w, Struct.unpack_I (take 4 data) = Some w.
Proof.
  intros H. destruct data as [|b0 [|b1 [|b2 [|b3 rest]]]]; cbn in H; try lia.
  by eexists.
Qed.

Lemma truthy_lookup (d : dict) (key : string) (v : pyval) :
  d !! key = Some v → truthy (Some d) = true.
Proof.
  intros Hk. unfold truthy. destruct (Nat.eqb_spec (size d) 0) as [Hz|]; [|done].
  apply map_size_empty_inv in Hz. subst d. by rewrite lookup_empty in Hk.
Qed.

Lemma parse_handshaker_packet_type (payload : bytes) :
  TelemetryParser._parse_handshaker payload = ∅
  ∨ TelemetryParser._parse_handshaker payload !! "packet_type"
    = Some (VStr (str_lit "handshaker")).
Proof.
  unfold TelemetryParser._parse_handshaker.
  destruct (length payload <? 8)%nat; [by left|].
  destruct (Struct.unpack_II _) as [[c dn]|]; [right | by left].
  do 2 (rewrite lookup_insert_ne by done). apply lookup_insert_eq.
Qed.

Lemma parse_update_cases (payload : bytes) (self : TelemetryParser.t) :
  TelemetryParser._parse_update pow payload self = (∅, self)
  ∨ ∃ rpm max_rpm,
      (328 ≤ length payload)%nat
      ∧ F64.to_int (f32_at payload 12) = Some rpm
      ∧ F64.to_int (f32_at payload 16) = Some max_rpm.
Proof.
  destruct (Nat.ltb_spec (length payload) 328) as [Hshort | Hlen].
  { left. unfold TelemetryParser._parse_update.
    by destruct (Nat.ltb_spec (length payload) 328); [|lia]. }
  destruct (F64.is_finite (f32_at payload 12)
            && F64.is_finite (f32_at payload 16)) eqn:Hfin.
  - apply andb_true_iff in Hfin as [[rpm Hr]%to_int_finite [m Hm]%to_int_finite].
    right. by exists rpm, m.
  - left. by apply parse_update_not_finite.
Qed.

Lemma decoded_packet_type (payload : bytes) (rpm max_rpm : Z) :
  dict_update (update_table payload rpm max_rpm)
    (TelemetryParser._calculate_derived_values pow
       (update_table payload rpm max_rpm)) !! "packet_type"
  = Some (VStr (str_lit "update")).
Proof.
  rewrite decoded_lookup_table; [table_lookup|].
  unfold derived_keys. intros Hin.
  repeat (apply elem_of_cons in Hin as [Hin | Hin]; [discriminate Hin|]).
  by apply elem_of_nil in Hin.
Qed.

(** X4.  The packet counter counts the decoded updates and nothing else:
    [parse] adds one to it exactly when it returns a dictionary whose packet
    type is ['update'], and otherwise leaves the parser as it was. *)
Theorem packet_count_counts_updates (data : bytes) (self : TelemetryParser.t) :
  let r := TelemetryParser.parse pow data self in
  (r.1 ≫= (.!! "packet_type") = Some (VStr (str_lit "update"))
   ∧ r.2 = {| TelemetryParser.packet_count :=
                TelemetryParser.packet_count self + 1 |})
  ∨ (r.1 ≫= (.!! "packet_type") ≠ Some (VStr (str_lit "update"))
     ∧ r.2 = self).
Proof.
  cbv zeta.
  destruct (Nat.ltb_spec (length data) 4) as [Hshort | Hlen].
  { right. rewrite parse_malformed by (by left). by split. }
  destruct (unpack_I_take_4 data Hlen) as [w Hw].
  rewrite (parse_dispatch pow _ _ _ Hw).
  destruct (w =? ACUDPType.HANDSHAKER).
  { right. split; [|done]. cbn [fst mbind option_bind].
    destruct (parse_handshaker_packet_type (drop 4 data)) as [-> | ->];
      [by rewrite lookup_empty | by intros [= ?]]. }
  destruct (w =? ACUDPType.UPDATE).
  { destruct (parse_update_cases (drop 4 data) self)
      as [-> | (rpm & m & Hl & Hr & Hm)].
    - right. split; [|done]. cbn [fst mbind option_bind].
      by rewrite lookup_empty.
    - left. rewrite (parse_update_decoded pow _ self rpm m Hl Hr Hm).
      cbn [fst snd mbind option_bind]. split; [|reflexivity].
      apply decoded_packet_type. }
  destruct (w =? ACUDPType.SPOT).
  - right. split; [|done]. cbn [fst mbind option_bind].
    unfold TelemetryParser._parse_spot. rewrite lookup_insert_eq.
    by intros [= ?].
  - right. by split.
Qed.

(** X5.  A Handshake datagram with a payload of at least 8 bytes is merged
    into the snapshot: the three handshake keys take the decoded values,
    every other key of the snapshot keeps its value, and the time of the
    last update is set. *)
Theorem handshake_touches_only_its_keys
    (data : bytes) (now : Z) (self : ACTelemetryDashboard.t) :
  Struct.unpack_I (take 4 data) = Some ACUDPType.HANDSHAKER →
  (8 ≤ length (drop 4 data))%nat →
  let self' := ACTelemetryDashboard.process_telemetry_data pow data now self in
  let names := TelemetryParser._parse_handshaker (drop 4 data) in
  (∀ key, key ∈ handshake_keys →
     is_Some (names !! key)
     ∧ ACTelemetryDashboard.current_data self' !! key = names !! key)
  ∧ (∀ key, key ∉ handshake_keys →
     ACTelemetryDashboard.current_data self' !! key
     = ACTelemetryDashboard.current_data self !! key)
  ∧ ACTelemetryDashboard.last_update self' = Some now
  ∧ ACTelemetryDashboard.telemetry_parser self'
    = ACTelemetryDashboard.telemetry_parser self.
Proof.
  intros Htag Hlen. cbv zeta.
  unfold ACTelemetryDashboard.process_telemetry_data.
  rewrite (parse_dispatch pow _ _ _ Htag). cbn [Z.eqb ACUDPType.HANDSHAKER].
  set (names := TelemetryParser._parse_handshaker (drop 4 data)).
  assert (Hnames : ∃ car driver,
    names = <["car_name" := VStr car]> (<["driver_name" := VStr driver]>
              (<["packet_type" := VStr (str_lit "handshaker")]> ∅))).
  { subst names. unfold TelemetryParser._parse_handshaker.
    destruct (Nat.ltb_spec (length (drop 4 data)) 8); [lia|].
    assert (Hw : ∃ p, Struct.unpack_II (slice 0 8 (drop 4 data)) = Some p).
    { change (slice 0 8 (drop 4 data)) with (take 8 (drop 4 data)).
      destruct (drop 4 data) as [|? [|? [|? [|? [|? [|? [|? [|? ?]]]]]]]];
        cbn in Hlen; try lia. by eexists. }
    destruct Hw as [[c dn] ->]. by eexists _, _. }
  destruct Hnames as (car & driver & Hnames).
  assert (Htruthy : truthy (Some names) = true).
  { apply (truthy_lookup _ "car_name" (VStr car)). rewrite Hnames.
    apply lookup_insert_eq. }
  rewrite Htruthy. cbn [ACTelemetryDashboard.current_data
    ACTelemetryDashboard.last_update ACTelemetryDashboard.telemetry_parser
    from_option id].
  split; [|split; [|done]].
  - intros key Hkey. unfold dict_update.
    assert (Hsome : is_Some (names !! key)).
    { rewrite Hnames. unfold handshake_keys in Hkey.
      repeat (apply elem_of_cons in Hkey as [-> | Hkey];
              [repeat (rewrite lookup_insert_ne by done);
               rewrite lookup_insert_eq; by eexists|]).
      by apply elem_of_nil in Hkey. }
    split; [exact Hsome|]. destruct Hsome as [v Hv].
    rewrite Hv. by apply lookup_union_Some_l.
  - intros key Hkey. unfold dict_update. apply lookup_union_r.
    rewrite Hnames. unfold handshake_keys in Hkey.
    repeat (apply not_elem_of_cons in Hkey as [? Hkey]).
    repeat (rewrite lookup_insert_ne by done). apply lookup_empty.
Qed.

(** X6.  A decoded update is merged into the snapshot without touching the
    names a handshake stored: every key of the decoded dictionary takes the
    decoded value, [car_name] and [driver_name] keep theirs, the time of
    the last update is set and the packet is counted. *)
Theorem update_keeps_names
    (data : bytes) (now : Z) (self : ACTelemetryDashboard.t) (rpm max_rpm : Z) :
  Struct.unpack_I (take 4 data) = Some ACUDPType.UPDATE →
  (328 ≤ length (drop 4 data))%nat →
  F64.to_int (f32_at (drop 4 data) 12) = Some rpm →
  F64.to_int (f32_at (drop 4 data) 16) = Some max_rpm →
  let self' := ACTelemetryDashboard.process_telemetry_data pow data now self in
  let d := (TelemetryParser._parse_update pow (drop 4 data)
              (ACTelemetryDashboard.telemetry_parser self)).1 in
  (∀ key v, d !! key = Some v →
     ACTelemetryDashboard.current_data self' !! key = Some v)
  ∧ ACTelemetryDashboard.current_data self' !! "car_name"
    = ACTelemetryDashboard.current_data self !! "car_name"
  ∧ ACTelemetryDashboard.current_data self' !! "driver_name"
    = ACTelemetryDashboard.current_data self !! "driver_name"
  ∧ ACTelemetryDashboard.last_update self' = Some now
  ∧ TelemetryParser.packet_count (ACTelemetryDashboard.telemetry_parser self')
    = TelemetryParser.packet_count (ACTelemetryDashboard.telemetry_parser self) + 1.
Proof.
  intros Htag Hlen Hrpm Hmax. cbv zeta.
  unfold ACTelemetryDashboard.process_telemetry_data.
  rewrite (parse_dispatch pow _ _ _ Htag).
  change (ACUDPType.UPDATE =? ACUDPType.HANDSHAKER) with false.
  change (ACUDPType.UPDATE =? ACUDPType.UPDATE) with true.
  rewrite (parse_update_decoded pow _ _ rpm max_rpm Hlen Hrpm Hmax).
  cbn [fst]. cbv beta iota.
  set (d := dict_update _ _).
  assert (Htruthy : truthy (Some d) = true)
    by (eapply truthy_lookup, decoded_packet_type).
  rewrite Htruthy. cbn [ACTelemetryDashboard.current_data
    ACTelemetryDashboard.last_update ACTelemetryDashboard.telemetry_parser
    TelemetryParser.packet_count from_option id].
  assert (Hname : ∀ key, key ∉ derived_keys →
            update_table (drop 4 data) rpm max_rpm !! key = None →
            dict_update (ACTelemetryDashboard.current_data self) d !! key
            = ACTelemetryDashboard.current_data self !! key).
  { intros key Hnd Hnt. unfold dict_update at 1. apply lookup_union_r.
    subst d. by rewrite decoded_lookup_table. }
  split; [|split; [|split; [|done]]].
  - intros key v Hv. unfold dict_update at 1. by apply lookup_union_Some_l.
  - apply Hname; [|table_lookup]. unfold derived_keys. intros Hin.
    repeat (apply elem_of_cons in Hin as [Hin | Hin]; [discriminate Hin|]).
    by apply elem_of_nil in Hin.
  - apply Hname; [|table_lookup]. unfold derived_keys. intros Hin.
    repeat (apply elem_of_cons in Hin as [Hin | Hin]; [discriminate Hin|]).
    by apply elem_of_nil in Hin.
Qed.
End Snapshot.

Lemma update_scalars_follow_offsets_witness :
  let payload := Sample.payload_120_kmh in
  let d := (TelemetryParser._parse_update Sample.pow payload
              TelemetryParser.__init__).1 in
  (d !! "rpm" = Some (VInt 7200)
   ∧ d !! "max_rpm" = Some (VInt 8000)
   ∧ d !! "gear" = Some (VInt (i32_at payload 20))
   ∧ d !! "lap_count" = Some (VInt (i32_at payload 48)))
  ∧ (d !! "g_force_lateral" = Some (VFloat (f32_at payload 24))
     ∧ d !! "g_force_longitudinal" = Some (VFloat (f32_at payload 28))
     ∧ d !! "g_force_vertical" = Some (VFloat (f32_at payload 32))
     ∧ d !! "fuel" = Some (VFloat (f32_at payload 52)))
  ∧ (d !! "lap_time" =
       Some (VFloat (F64.div (F64.of_Z (i32_at payload 36)) (F64.of_Z 1000)))
     ∧ d !! "last_lap" =
       Some (VFloat (F64.div (F64.of_Z (i32_at payload 40)) (F64.of_Z 1000)))
     ∧ d !! "best_lap" =
       Some (VFloat (F64.div (F64.of_Z (i32_at payload 44)) (F64.of_Z 1000))))
  ∧ (d !! "car_velocity" =
       Some (VList [VFloat (f32_at payload 68); VFloat (f32_at payload 72);
                    VFloat (f32_at payload 76)])
     ∧ d !! "car_acceleration" =
       Some (VList [VFloat (f32_at payload 80); VFloat (f32_at payload 84);
                    VFloat (f32_at payload 88)])).
Proof.
  apply (update_scalars_follow_offsets Sample.pow Sample.payload_120_kmh
           TelemetryParser.__init__ 7200 8000).
  - vm_compute. lia.
  - vm_compute. reflexivity.
  - vm_compute. reflexivity.
Defined.

Lemma update_derived_metrics_witness :
  let payload := Sample.payload_120_kmh in
  let d := (TelemetryParser._parse_update Sample.pow payload
              TelemetryParser.__init__).1 in
  d !! "wheel_lock" =
    Some (VList [VBool (wheel_locked payload 0); VBool (wheel_locked payload 1);
                 VBool (wheel_locked payload 2); VBool (wheel_locked payload 3)])
  ∧ d !! "abs_in_action" =
    Some (VBool (wheel_locked payload 0 || wheel_locked payload 1
                 || wheel_locked payload 2 || wheel_locked payload 3))
  ∧ d !! "tire_pressure_delta" =
    Some (VList [VFloat (pressure_delta_at payload 140);
                 VFloat (pressure_delta_at payload 144);
                 VFloat (pressure_delta_at payload 148);
                 VFloat (pressure_delta_at payload 152)])
  ∧ (F64.is_finite (F64.of_Z 8000) = true →
     d !! "g_force_total" =
       Some (VFloat (Sample.pow
                       (F64.add (Sample.pow (f32_at payload 24) (F64.of_Z 2))
                                (Sample.pow (f32_at payload 28) (F64.of_Z 2)))
                       (F64.literal 1 2)))).
Proof.
  apply (update_derived_metrics Sample.pow Sample.payload_120_kmh
           TelemetryParser.__init__ 7200 8000).
  - vm_compute. lia.
  - vm_compute. reflexivity.
  - vm_compute. reflexivity.
Defined.

Lemma handshake_touches_only_its_keys_witness :
  let data := Sample.handshake_AB in
  let self' := ACTelemetryDashboard.process_telemetry_data Sample.pow data 7
                 Sample.dashboard in
  let names := TelemetryParser._parse_handshaker (drop 4 data) in
  (∀ key, key ∈ handshake_keys →
     is_Some (names !! key)
     ∧ ACTelemetryDashboard.current_data self' !! key = names !! key)
  ∧ (∀ key, key ∉ handshake_keys →
     ACTelemetryDashboard.current_data self' !! key
     = ACTelemetryDashboard.current_data Sample.dashboard !! key)
  ∧ ACTelemetryDashboard.last_update self' = Some 7
  ∧ ACTelemetryDashboard.telemetry_parser self'
    = ACTelemetryDashboard.telemetry_parser Sample.dashboard.
Proof.
  apply (handshake_touches_only_its_keys Sample.pow Sample.handshake_AB 7
           Sample.dashboard).
  - reflexivity.
  - vm_compute. lia.
Defined.

Lemma update_keeps_names_witness :
  let data := Sample.update_120_kmh in
  let self' := ACTelemetryDashboard.process_telemetry_data Sample.pow data 7
                 Sample.dashboard in
  let d := (TelemetryParser._parse_update Sample.pow (drop 4 data)
              (ACTelemetryDashboard.telemetry_parser Sample.dashboard)).1 in
  (∀ key v, d !! key = Some v →
     ACTelemetryDashboard.current_data self' !! key = Some v)
  ∧ ACTelemetryDashboard.current_data self' !! "car_name"
    = ACTelemetryDashboard.current_data Sample.dashboard !! "car_name"
  ∧ ACTelemetryDashboard.current_data self' !! "driver_name"
    = ACTelemetryDashboard.current_data Sample.dashboard !! "driver_name"
  ∧ ACTelemetryDashboard.last_update self' = Some 7
  ∧ TelemetryParser.packet_count (ACTelemetryDashboard.telemetry_parser self')
    = TelemetryParser.packet_count
        (ACTelemetryDashboard.telemetry_parser Sample.dashboard) + 1.
Proof.
  apply (update_keeps_names Sample.pow Sample.update_120_kmh 7
           Sample.dashboard 7200 8000).
  - reflexivity.
  - vm_compute. lia.
  - vm_compute. reflexivity.
  - vm_compute. reflexivity.
Defined.

(** ** The receive loop and the snapshot *)

Section Loop.
Variable pow : spec_float → spec_float → spec_float.

Lemma process_same (data : bytes) (now : Z) (s1 s2 : ACTelemetryDashboard.t) :
  same_but_connected s1 s2 →
  same_but_connected
    (ACTelemetryDashboard.process_telemetry_data pow data now s1)
    (ACTelemetryDashboard.process_telemetry_data pow data now s2).
Proof.
  intros (Hu & Hr & Hd & Hl & Hp).
  unfold ACTelemetryDashboard.process_telemetry_data. rewrite Hp.
  destruct (TelemetryParser.parse _ _ _) as [r parser].
  destruct (truthy r); unfold same_but_connected; cbn; by rewrite ?Hu, ?Hr, ?Hd, ?Hl.
Qed.

Lemma set_connected_same (b : bool) (s : ACTelemetryDashboard.t) :
  same_but_connected (ACTelemetryDashboard.set_connected b s) s.
Proof. by unfold same_but_connected. Qed.

Lemma same_trans (s1 s2 s3 : ACTelemetryDashboard.t) :
  same_but_connected s1 s2 → same_but_connected s2 s3 →
  same_but_connected s1 s3.
Proof.
  unfold same_but_connected.
  intros (-> & -> & -> & -> & ->) (-> & -> & -> & -> & ->). done.
Qed.

Lemma same_sym (s1 s2 : ACTelemetryDashboard.t) :
  same_but_connected s1 s2 → same_but_connected s2 s1.
Proof. unfold same_but_connected. intros (-> & -> & -> & -> & ->). done. Qed.

Lemma loop_body_same (r : ACTelemetryDashboard.recv)
    (s1 s2 : ACTelemetryDashboard.t) :
  same_but_connected s1 s2 →
  same_but_connected (ACTelemetryDashboard.loop_body pow r s1)
    (if is_datagram r then ACTelemetryDashboard.loop_body pow r s2 else s2).
Proof.
  intros Hs. pose proof Hs as (Hu & _).
  unfold ACTelemetryDashboard.loop_body. rewrite Hu.
  destruct (ACTelemetryDashboard.udp_socket s2); [|by destruct (is_datagram r)].
  destruct r as [data now| |]; cbn [is_datagram].
  - pose proof (process_same data now s1 s2 Hs) as Hp. cbv zeta.
    destruct (negb (ACTelemetryDashboard.connected
                (ACTelemetryDashboard.process_telemetry_data pow data now s1)));
      destruct (negb (ACTelemetryDashboard.connected
                (ACTelemetryDashboard.process_telemetry_data pow data now s2)));
      eauto using same_trans, same_sym, set_connected_same.
  - destruct (ACTelemetryDashboard.connected s1);
      eauto using same_trans, set_connected_same.
  - done.
Qed.

(** X7.  Timeouts and transport errors never change what was decoded: the
    snapshot, the time of the last update and the parser after the loop has
    seen a sequence of receive outcomes are those after the datagrams of the
    sequence alone, and the loop itself never clears [running]. *)
Theorem only_datagrams_change_the_snapshot
    (rs : list ACTelemetryDashboard.recv) (self : ACTelemetryDashboard.t) :
  let after := ACTelemetryDashboard.telemetry_loop pow rs self in
  let datagrams_only :=
    ACTelemetryDashboard.telemetry_loop pow (filter is_datagram rs) self in
  ACTelemetryDashboard.current_data after
    = ACTelemetryDashboard.current_data datagrams_only
  ∧ ACTelemetryDashboard.last_update after
    = ACTelemetryDashboard.last_update datagrams_only
  ∧ ACTelemetryDashboard.telemetry_parser after
    = ACTelemetryDashboard.telemetry_parser datagrams_only
  ∧ ACTelemetryDashboard.running after = ACTelemetryDashboard.running self.
Proof.
  cbv zeta.
  assert (Hgen : ∀ s1 s2, same_but_connected s1 s2 →
            same_but_connected
              (ACTelemetryDashboard.telemetry_loop pow rs s1)
              (ACTelemetryDashboard.telemetry_loop pow (filter is_datagram rs) s2)
            ∧ ACTelemetryDashboard.running
                (ACTelemetryDashboard.telemetry_loop pow rs s1)
              = ACTelemetryDashboard.running s1).
  { induction rs as [|r rs IH]; intros s1 s2 Hs; [done|].
    pose proof Hs as (_ & Hr & _).
    pose proof (loop_body_same r s1 s2 Hs) as Hb.
    pose proof Hb as (_ & Hrb & _).
    assert (Hkeep : ACTelemetryDashboard.running
                      (ACTelemetryDashboard.loop_body pow r s1)
                    = ACTelemetryDashboard.running s1)
      by apply (loop_body_flags pow r s1).
    cbn [ACTelemetryDashboard.telemetry_loop].
    rewrite filter_cons.
    destruct (ACTelemetryDashboard.running s1) eqn:Hrun1.
    - destruct (decide (is_datagram r)) as [Hd | Hd].
      + cbn [ACTelemetryDashboard.telemetry_loop]. rewrite <- Hr.
        destruct (is_datagram r); [|done].
        destruct (IH _ _ Hb) as [Hsame Hrun]. split; [exact Hsame|].
        by rewrite Hrun.
      + destruct (is_datagram r); [done|].
        destruct (IH _ _ Hb) as [Hsame Hrun]. split; [exact Hsame|].
        by rewrite Hrun.
    - split; [|done].
      destruct (decide (is_datagram r)).
      + cbn [ACTelemetryDashboard.telemetry_loop]. by rewrite <- Hr.
      + destruct (filter is_datagram rs);
          cbn [ACTelemetryDashboard.telemetry_loop]; by rewrite <- ?Hr. }
  destruct (Hgen self self) as [(_ & _ & Hd & Hl & Hp) Hrun].
  { by unfold same_but_connected. }
  done.
Qed.
End Loop.

(** * Further properties of the control session *)

Lemma pack_I_inv (w : Z) (b : bytes) :
  Struct.pack_I w = Some b → 0 ≤ w < 2 ^ 32 ∧ b = Struct.le_bytes w.
Proof.
  unfold Struct.pack_I.
  destruct (Z.leb_spec 0 w), (Z.ltb_spec w (2 ^ 32)); cbn; intros [= <-]; done.
Qed.

Lemma pack_i_inv (i : Z) (b : bytes) :
  Struct.pack_i i = Some b →
  - 2 ^ 31 ≤ i < 2 ^ 31 ∧ b = Struct.le_bytes (i mod 2 ^ 32).
Proof.
  unfold Struct.pack_i.
  destruct (Z.leb_spec (- 2 ^ 31) i), (Z.ltb_spec i (2 ^ 31)); cbn;
    intros [= <-]; done.
Qed.

(** What a built packet is made of. *)
Lemma build_command_packet_inv (nan code : Z) (value : pyval) (packet : bytes) :
  VehicleControls._build_command_packet nan code value = Some packet →
  0 ≤ code < 2 ^ 32
  ∧ ∃ v : bytes,
      packet = Struct.le_bytes code ++ Struct.le_bytes (value_type_tag value) ++ v
      ∧ length v = 4%nat
      ∧ match value with
        | VBool b => v = Struct.le_bytes (if b then 1 else 0)
        | VInt i => - 2 ^ 31 ≤ i < 2 ^ 31 ∧ v = Struct.le_bytes (i mod 2 ^ 32)
        | VFloat x => Struct.pack_f nan x = Some v
        | _ => False
        end.
Proof.
  unfold VehicleControls._build_command_packet.
  intros (p0 & [Hcode ->]%pack_I_inv & H)%bind_Some.
  split; [exact Hcode|].
  destruct value as [|b|i|x|s|l]; try done;
    apply bind_Some in H as (tag & [_ ->]%pack_I_inv & H);
    apply bind_Some in H as (v & Hv & [= <-]); exists v.
  - apply pack_I_inv in Hv as [_ ->]. by destruct b.
  - apply pack_i_inv in Hv as [Hi ->]. done.
  - split; [done|]. split; [|done]. by apply pack_f_length in Hv as [_ ?].
Qed.

Lemma send_command_sent (nan : Z) (now : spec_float) (command : string)
    (value : pyval)
    (self : VehicleControls.t) (code : Z) (packet : bytes) :
  VehicleControls.control_socket self = true →
  VehicleControls._get_command_type command = Some code →
  VehicleControls._build_command_packet nan code value = Some packet →
  VehicleControls.send_command nan true now command value self =
    (true,
     {| VehicleControls.control_socket := true;
        VehicleControls.last_commands :=
          <[command := command_record value now]>
            (VehicleControls.last_commands self);
        VehicleControls.sent := VehicleControls.sent self ++ [packet] |}).
Proof.
  intros Hsock Hcode Hbuild.
  unfold VehicleControls.send_command. rewrite Hsock, Hcode, Hbuild. cbn.
  by destruct (build_command_packet_nonempty _ _ _ _ Hbuild) as (b & rest & ->).
Qed.

(** The two outcomes of [send_command]. *)
Lemma send_command_outcome
    (nan : Z) (sendto_ok : bool) (now : spec_float) (command : string) (value : pyval)
    (self : VehicleControls.t) :
  let r := VehicleControls.send_command nan sendto_ok now command value self in
  r = (false, self)
  ∨ (r.1 = true ∧ sendto_ok = true
     ∧ VehicleControls.control_socket self = true
     ∧ ∃ code packet,
         VehicleControls._get_command_type command = Some code
         ∧ VehicleControls._build_command_packet nan code value = Some packet
         ∧ length packet = 12%nat
         ∧ VehicleControls.sent r.2 = VehicleControls.sent self ++ [packet]
         ∧ VehicleControls.last_commands r.2 =
             <[command := command_record value now]>
               (VehicleControls.last_commands self)
         ∧ VehicleControls.control_socket r.2 = true).
Proof.
  cbv zeta. unfold VehicleControls.send_command.
  destruct (VehicleControls.control_socket self) eqn:Hsock; [|by left].
  cbn [negb].
  destruct (VehicleControls._get_command_type command) as [code|] eqn:Hcode;
    [|by left].
  destruct (VehicleControls._build_command_packet nan code value)
    as [packet|] eqn:Hbuild; [|by left].
  destruct (build_command_packet_nonempty _ _ _ _ Hbuild) as (b & rest & Hp).
  rewrite Hp. destruct sendto_ok; [|by left].
  right. cbn [fst snd VehicleControls.sent VehicleControls.last_commands
              VehicleControls.control_socket].
  repeat split. exists code, (b :: rest). rewrite <- Hp.
  repeat split; [done|].
  destruct (build_command_packet_inv _ _ _ _ Hbuild) as (_ & v & -> & Hv & _).
  rewrite !length_app, Hv. done.
Qed.

(** X8.  [send_command] either returns [False] and the session as it was,
    or returns [True], and then the socket was set, [sendto] returned, the
    name is registered, exactly one packet of 12 bytes was appended to the
    datagrams sent, and the record of the command holds the value and the
    time: the history changes only on a successful send. *)
Theorem send_command_changes_only_on_success
    (nan : Z) (sendto_ok : bool) (now : spec_float) (command : string) (value : pyval)
    (self : VehicleControls.t) :
  let r := VehicleControls.send_command nan sendto_ok now command value self in
  r = (false, self)
  ∨ (r.1 = true ∧ sendto_ok = true
     ∧ VehicleControls.control_socket self = true
     ∧ ∃ code packet,
         VehicleControls._get_command_type command = Some code
         ∧ VehicleControls._build_command_packet nan code value = Some packet
         ∧ length packet = 12%nat
         ∧ VehicleControls.sent r.2 = VehicleControls.sent self ++ [packet]
         ∧ VehicleControls.last_commands r.2 =
             <[command := command_record value now]>
               (VehicleControls.last_commands self)
         ∧ VehicleControls.control_socket r.2 = true).
Proof. apply send_command_outcome. Qed.

(** X9.  A built packet has 12 bytes and reads back: its first word is the
    command code, its second the value-type tag, and its third the value:
    0 or 1 for a boolean, the integer itself, read as a signed word, for an
    integer, and the bytes that [struct] packs for a float. *)
Theorem command_packet_reads_back (nan code : Z) (value : pyval) (packet : bytes) :
  VehicleControls._build_command_packet nan code value = Some packet →
  length packet = 12%nat
  ∧ Struct.unpack_I (slice 0 4 packet) = Some code
  ∧ Struct.unpack_I (slice 4 8 packet) = Some (value_type_tag value)
  ∧ match value with
    | VBool b => Struct.unpack_I (slice 8 12 packet) = Some (if b then 1 else 0)
    | VInt i => Struct.unpack_i (slice 8 12 packet) = Some i
    | VFloat x => Struct.pack_f nan x = Some (slice 8 12 packet)
    | _ => False
    end.
Proof.
  intros (Hcode & v & -> & Hv & Hvalue)%build_command_packet_inv.
  destruct v as [|v0 [|v1 [|v2 [|v3 [|? ?]]]]]; try done.
  split; [done|].
  split; [by apply unpack_I_le_bytes|].
  split; [apply unpack_I_le_bytes; by destruct value|].
  change (slice 8 12 (Struct.le_bytes code
            ++ Struct.le_bytes (value_type_tag value) ++ [v0; v1; v2; v3]))
    with [v0; v1; v2; v3].
  destruct value as [|b|i|x|s|l]; try done.
  - rewrite Hvalue. apply unpack_I_le_bytes. by destruct b.
  - destruct Hvalue as [Hi ->]. by apply unpack_i_le_bytes.
Qed.

Lemma command_packet_reads_back_witness :
  let packet := Struct.le_bytes 1 ++ Struct.le_bytes 2 ++ Struct.le_bytes 7 in
  length packet = 12%nat
  ∧ Struct.unpack_I (slice 0 4 packet) = Some 1
  ∧ Struct.unpack_I (slice 4 8 packet) = Some (value_type_tag (VInt 7))
  ∧ Struct.unpack_i (slice 8 12 packet) = Some 7.
Proof.
  apply (command_packet_reads_back 0 1 (VInt 7)
           (Struct.le_bytes 1 ++ Struct.le_bytes 2 ++ Struct.le_bytes 7)).
  reflexivity.
Defined.

(** X10.  Two successful sends of one command: the record of the command
    is the second value with the second time, the records of the other
    commands are those from before, and two datagrams were appended. *)
Theorem second_send_overwrites_the_record
    (n1 n2 : Z) (ok1 ok2 : bool) (t1 t2 : spec_float) (command : string)
    (v1 v2 : pyval)
    (self s1 s2 : VehicleControls.t) :
  VehicleControls.send_command n1 ok1 t1 command v1 self = (true, s1) →
  VehicleControls.send_command n2 ok2 t2 command v2 s1 = (true, s2) →
  VehicleControls.get_last_command command s2 = Some (command_record v2 t2)
  ∧ (∀ other, other ≠ command →
       VehicleControls.get_last_command other s2
       = VehicleControls.get_last_command other self)
  ∧ ∃ p1 p2, VehicleControls.sent s2 = VehicleControls.sent self ++ [p1; p2].
Proof.
  intros H1 H2.
  destruct (send_command_outcome n1 ok1 t1 command v1 self)
    as [Hf | (_ & _ & _ & c1 & p1 & _ & _ & _ & Hs1 & Hl1 & _)];
    [rewrite H1 in Hf; discriminate Hf|].
  destruct (send_command_outcome n2 ok2 t2 command v2 s1)
    as [Hf | (_ & _ & _ & c2 & p2 & _ & _ & _ & Hs2 & Hl2 & _)];
    [rewrite H2 in Hf; discriminate Hf|].
  rewrite H1 in Hs1, Hl1. rewrite H2 in Hs2, Hl2. cbn [snd] in *.
  unfold VehicleControls.get_last_command. rewrite Hl2, Hl1.
  split; [apply lookup_insert_eq|]. split.
  - intros other Hne. by rewrite !lookup_insert_ne.
  - exists p1, p2. rewrite Hs2, Hs1. by rewrite <- app_assoc.
Qed.

Lemma second_send_overwrites_the_record_witness :
  let s1 := (VehicleControls.send_command 0 true (F64.of_Z 1) "tc_level"
               (VInt 3) Sample.controls).2 in
  let s2 := (VehicleControls.send_command 0 true (F64.of_Z 2) "tc_level"
               (VInt 0) s1).2 in
  VehicleControls.get_last_command "tc_level" s2
    = Some (command_record (VInt 0) (F64.of_Z 2))
  ∧ (∀ other, other ≠ "tc_level" →
       VehicleControls.get_last_command other s2
       = VehicleControls.get_last_command other Sample.controls)
  ∧ ∃ p1 p2, VehicleControls.sent s2
             = VehicleControls.sent Sample.controls ++ [p1; p2].
Proof.
  apply (second_send_overwrites_the_record 0 0 true true (F64.of_Z 1) (F64.of_Z 2)
           "tc_level" (VInt 3) (VInt 0) Sample.controls
           (VehicleControls.send_command 0 true (F64.of_Z 1) "tc_level"
              (VInt 3) Sample.controls).2).
  - vm_compute. reflexivity.
  - vm_compute. reflexivity.
Defined.

(** ** The bounded helpers *)

Lemma clamp_int (lo hi x : Z) :
  lo ≤ hi →
  VehicleControls.clamp (VInt lo) (VInt hi) (VInt x)
    = Some (VInt (Z.max lo (Z.min hi x))).
Proof.
  intros Hle. unfold VehicleControls.clamp, Py.builtin_min, Py.builtin_max,
    Py.__lt__. cbn [Py.as_num mbind option_bind Py.num_lt].
  destruct (Z.ltb_spec x hi); cbn [Py.as_num mbind option_bind Py.num_lt].
  - destruct (Z.ltb_spec lo x); do 2 f_equal; lia.
  - destruct (Z.ltb_spec lo hi); do 2 f_equal; lia.
Qed.

Lemma send_int_in_range (o : VehicleControls.oracle) (command : string)
    (code v : Z) (self : VehicleControls.t) :
  VehicleControls._get_command_type command = Some code →
  - 2 ^ 31 ≤ v < 2 ^ 31 →
  VehicleControls.control_socket self = true → o.1.2 = true →
  (VehicleControls.send_with o command (VInt v) self).1 = true
  ∧ VehicleControls.get_last_command command
      (VehicleControls.send_with o command (VInt v) self).2
    = Some (command_record (VInt v) o.2)
  ∧ VehicleControls.sent (VehicleControls.send_with o command (VInt v) self).2
    = VehicleControls.sent self
      ++ [Struct.le_bytes code ++ Struct.le_bytes 2
          ++ Struct.le_bytes (v mod 2 ^ 32)].
Proof.
  intros Hcode Hv Hsock Hok. destruct o as [[nan ok] now]. cbn in Hok. subst ok.
  unfold VehicleControls.send_with. cbn [fst snd].
  pose proof (get_command_type_code _ _ Hcode) as Hrange.
  assert (Hbuild : VehicleControls._build_command_packet nan code (VInt v)
            = Some (Struct.le_bytes code ++ Struct.le_bytes 2
                    ++ Struct.le_bytes (v mod 2 ^ 32))).
  { unfold VehicleControls._build_command_packet.
    rewrite (pack_I_small code) by lia. cbn [mbind option_bind].
    rewrite (pack_I_small 2) by lia. cbn [mbind option_bind].
    unfold Struct.pack_i.
    destruct (Z.leb_spec (- 2 ^ 31) v); [|lia].
    by destruct (Z.ltb_spec v (2 ^ 31)); [|lia]. }
  rewrite (send_command_sent nan now command (VInt v) self code _ Hsock Hcode
             Hbuild).
  cbn [fst snd VehicleControls.sent]. split; [done|]. split.
  - unfold VehicleControls.get_last_command. cbn. apply lookup_insert_eq.
  - reflexivity.
Qed.

(** X11.  The level helpers clamp before they send: for every integer,
    however large, [send_tc_level] and [send_abs_level] send the level
    brought into 0 .. 10 and [set_engine_map] the number brought into
    1 .. 8; the clamped value always fits the wire format, so over a set
    socket whose [sendto] returns the send succeeds and the record holds
    the clamped value. *)
Theorem level_helpers_clamp
    (o : VehicleControls.oracle) (level : Z) (self : VehicleControls.t) :
  VehicleControls.control_socket self = true → o.1.2 = true →
  let tc := Z.max 0 (Z.min 10 level) in
  let em := Z.max 1 (Z.min 8 level) in
  (0 ≤ tc ≤ 10 ∧ 1 ≤ em ≤ 8)
  ∧ (∃ s, VehicleControls.send_tc_level o (VInt level) self = Some (true, s)
          ∧ VehicleControls.get_last_command "tc_level" s
            = Some (command_record (VInt tc) o.2))
  ∧ (∃ s, VehicleControls.send_abs_level o (VInt level) self = Some (true, s)
          ∧ VehicleControls.get_last_command "abs_level" s
            = Some (command_record (VInt tc) o.2))
  ∧ (∃ s, VehicleControls.set_engine_map o (VInt level) self = Some (true, s)
          ∧ VehicleControls.get_last_command "engine_map" s
            = Some (command_record (VInt em) o.2)).
Proof.
  intros Hsock Hok. cbv zeta. split; [lia|].
  unfold VehicleControls.send_tc_level, VehicleControls.send_abs_level,
    VehicleControls.set_engine_map.
  rewrite !clamp_int by lia. cbn [mbind option_bind].
  split; [|split].
  - destruct (send_int_in_range o "tc_level" 1 (Z.max 0 (Z.min 10 level)) self)
      as (H1 & H2 & _); [done | lia | done | done |].
    destruct (VehicleControls.send_with _ _ _ _) as [b s].
    cbn [fst snd] in H1, H2. subst b. by exists s.
  - destruct (send_int_in_range o "abs_level" 2 (Z.max 0 (Z.min 10 level)) self)
      as (H1 & H2 & _); [done | lia | done | done |].
    destruct (VehicleControls.send_with _ _ _ _) as [b s].
    cbn [fst snd] in H1, H2. subst b. by exists s.
  - destruct (send_int_in_range o "engine_map" 12 (Z.max 1 (Z.min 8 level)) self)
      as (H1 & H2 & _); [done | lia | done | done |].
    destruct (VehicleControls.send_with _ _ _ _) as [b s].
    cbn [fst snd] in H1, H2. subst b. by exists s.
Qed.

Lemma level_helpers_clamp_witness :
  let o : VehicleControls.oracle := (0, true, F64.of_Z 9) in
  let level := 2 ^ 40 in
  let tc := Z.max 0 (Z.min 10 level) in
  let em := Z.max 1 (Z.min 8 level) in
  (0 ≤ tc ≤ 10 ∧ 1 ≤ em ≤ 8)
  ∧ (∃ s, VehicleControls.send_tc_level o (VInt level) Sample.controls
          = Some (true, s)
          ∧ VehicleControls.get_last_command "tc_level" s
            = Some (command_record (VInt tc) o.2))
  ∧ (∃ s, VehicleControls.send_abs_level o (VInt level) Sample.controls
          = Some (true, s)
          ∧ VehicleControls.get_last_command "abs_level" s
            = Some (command_record (VInt tc) o.2))
  ∧ (∃ s, VehicleControls.set_engine_map o (VInt level) Sample.controls
          = Some (true, s)
          ∧ VehicleControls.get_last_command "engine_map" s
            = Some (command_record (VInt em) o.2)).
Proof.
  apply (level_helpers_clamp (0, true, F64.of_Z 9) (2 ^ 40) Sample.controls);
    reflexivity.
Defined.

Lemma ltb_le (x y : spec_float) : F64.ltb x y = true → float_le x y = true.
Proof.
  unfold F64.ltb, float_le, SFltb, SFleb.
  by destruct (SFcompare x y) as [[]|].
Qed.

(** [max(lo, min(hi, x))] on floats: the result lies between the bounds
    whatever [x] is, a NaN included. *)
Lemma clamp_float (lo hi x : spec_float) :
  F64.ltb lo hi = true → float_le lo lo = true → float_le hi hi = true →
  ∃ c, VehicleControls.clamp (VFloat lo) (VFloat hi) (VFloat x) = Some (VFloat c)
       ∧ float_le lo c = true ∧ float_le c hi = true
       ∧ (c = x ∨ c = lo ∨ c = hi)
       ∧ (F64.ltb x hi = false → c = hi)
       ∧ (F64.ltb x hi = true → F64.ltb lo x = false → c = lo).
Proof.
  intros Hlh Hll Hhh.
  unfold VehicleControls.clamp, Py.builtin_min, Py.builtin_max, Py.__lt__.
  cbn [Py.as_num mbind option_bind Py.num_lt].
  destruct (F64.ltb x hi) eqn:Hxh; cbn [Py.as_num mbind option_bind Py.num_lt].
  - destruct (F64.ltb lo x) eqn:Hlx.
    + exists x. split; [done|]. split; [by apply ltb_le|].
      split; [by apply ltb_le|]. split; [by left|]. split; congruence.
    + exists lo. split; [done|]. split; [done|].
      split; [by apply ltb_le|]. split; [by right; left|]. split; congruence.
  - rewrite Hlh. exists hi. split; [done|]. split; [by apply ltb_le|].
    split; [done|]. split; [by right; right|]. split; congruence.
Qed.

(** X12.  The float helpers clamp before they send: whatever float is
    given, [send_brake_bias] sends a value between 0.0 and 1.0 and
    [send_turbo_pressure] one between 0.0 and 3.0, which is the argument
    itself or one of the two bounds; an argument that is not below the
    upper bound, a NaN included, is sent as the upper bound. *)
Theorem float_helpers_clamp
    (o : VehicleControls.oracle) (x : spec_float) (self : VehicleControls.t) :
  (∃ c, VehicleControls.send_brake_bias o (VFloat x) self
        = Some (VehicleControls.send_with o "brake_bias" (VFloat c) self)
        ∧ float_le (F64.of_Z 0) c = true ∧ float_le c (F64.of_Z 1) = true
        ∧ (c = x ∨ c = F64.of_Z 0 ∨ c = F64.of_Z 1)
        ∧ (F64.ltb x (F64.of_Z 1) = false → c = F64.of_Z 1))
  ∧ (∃ c, VehicleControls.send_turbo_pressure o (VFloat x) self
          = Some (VehicleControls.send_with o "turbo_pressure" (VFloat c) self)
          ∧ float_le (F64.of_Z 0) c = true ∧ float_le c (F64.of_Z 3) = true
          ∧ (c = x ∨ c = F64.of_Z 0 ∨ c = F64.of_Z 3)
          ∧ (F64.ltb x (F64.of_Z 3) = false → c = F64.of_Z 3)).
Proof.
  split.
  - destruct (clamp_float (F64.of_Z 0) (F64.of_Z 1) x)
      as (c & Hc & H1 & H2 & H3 & H4 & _); [done..|].
    exists c. unfold VehicleControls.send_brake_bias. rewrite Hc. done.
  - destruct (clamp_float (F64.of_Z 0) (F64.of_Z 3) x)
      as (c & Hc & H1 & H2 & H3 & H4 & _); [done..|].
    exists c. unfold VehicleControls.send_turbo_pressure. rewrite Hc. done.
Qed.

Example brake_bias_of_nan :
  VehicleControls.send_brake_bias (0, true, F64.of_Z 9) (VFloat S754_nan)
    Sample.controls
  = Some (VehicleControls.send_with (0, true, F64.of_Z 9) "brake_bias"
            (VFloat (F64.of_Z 1)) Sample.controls).
Proof. vm_compute. reflexivity. Qed.

(** X13.  [set_indicator] always makes both sends, the left one first: over
    a set socket and for boolean arguments it appends the left packet if
    its [sendto] returns and then the right packet if its [sendto] returns,
    also after a failed left send, and answers [True] only if both
    returned. *)
Theorem set_indicator_sends_both
    (o1 o2 : VehicleControls.oracle) (left right : bool)
    (self : VehicleControls.t) :
  VehicleControls.control_socket self = true →
  let r := VehicleControls.set_indicator o1 o2 (VBool left) (VBool right) self in
  let packet (code : Z) (b : bool) : bytes :=
    Struct.le_bytes code ++ Struct.le_bytes 1
    ++ Struct.le_bytes (if b then 1 else 0) in
  r.1 = o1.1.2 && o2.1.2
  ∧ VehicleControls.sent r.2 =
      VehicleControls.sent self
      ++ (if o1.1.2 then [packet 6 left] else [])
      ++ (if o2.1.2 then [packet 7 right] else [])
  ∧ (o1.1.2 = true → o2.1.2 = true →
     VehicleControls.get_last_command "left_indicator" r.2
       = Some (command_record (VBool left) o1.2)
     ∧ VehicleControls.get_last_command "right_indicator" r.2
       = Some (command_record (VBool right) o2.2)).
Proof.
  intros Hsock. cbv zeta.
  assert (Hsend : ∀ (o : VehicleControls.oracle) command code b s,
    VehicleControls._get_command_type command = Some code →
    VehicleControls.control_socket s = true →
    VehicleControls.send_with o command (VBool b) s =
      if o.1.2 then
        (true,
         {| VehicleControls.control_socket := true;
            VehicleControls.last_commands :=
              <[command := command_record (VBool b) o.2]>
                (VehicleControls.last_commands s);
            VehicleControls.sent :=
              VehicleControls.sent s
              ++ [Struct.le_bytes code ++ Struct.le_bytes 1
                  ++ Struct.le_bytes (if b then 1 else 0)] |})
      else (false, s)).
  { intros [[nan ok] now] command code b s Hcode Hs. cbn [fst snd].
    pose proof (get_command_type_code _ _ Hcode) as Hrange.
    assert (Hbuild : VehicleControls._build_command_packet nan code (VBool b)
              = Some (Struct.le_bytes code ++ Struct.le_bytes 1
                      ++ Struct.le_bytes (if b then 1 else 0))).
    { unfold VehicleControls._build_command_packet.
      rewrite (pack_I_small code) by lia. by destruct b. }
    destruct ok.
    - unfold VehicleControls.send_with. cbn [fst snd].
      exact (send_command_sent nan now command (VBool b) s code _ Hs Hcode Hbuild).
    - unfold VehicleControls.send_with, VehicleControls.send_command.
      cbn [fst snd]. rewrite Hs, Hcode, Hbuild. done. }
  unfold VehicleControls.set_indicator.
  rewrite (Hsend o1 "left_indicator" 6 left self eq_refl Hsock).
  destruct o1 as [[n1 []] t1], o2 as [[n2 []] t2]; cbn [fst snd andb];
    rewrite (Hsend _ "right_indicator" 7 right _ eq_refl) by done;
    cbn [fst snd VehicleControls.sent VehicleControls.last_commands
         VehicleControls.get_last_command app];
    (split; [done|]); (split; [by rewrite <- ?app_assoc, ?app_nil_r|]);
    try (intros; discriminate).
  intros _ _. unfold VehicleControls.get_last_command.
  cbn [VehicleControls.last_commands]. split.
  - rewrite lookup_insert_ne by done. apply lookup_insert_eq.
  - apply lookup_insert_eq.
Qed.

Lemma set_indicator_sends_both_witness :
  let o1 : VehicleControls.oracle := (0, false, F64.of_Z 1) in
  let o2 : VehicleControls.oracle := (0, true, F64.of_Z 2) in
  let r := VehicleControls.set_indicator o1 o2 (VBool true) (VBool false)
             Sample.controls in
  let packet (code : Z) (b : bool) : bytes :=
    Struct.le_bytes code ++ Struct.le_bytes 1
    ++ Struct.le_bytes (if b then 1 else 0) in
  r.1 = o1.1.2 && o2.1.2
  ∧ VehicleControls.sent r.2 =
      VehicleControls.sent Sample.controls
      ++ (if o1.1.2 then [packet 6 true] else [])
      ++ (if o2.1.2 then [packet 7 false] else [])
  ∧ (o1.1.2 = true → o2.1.2 = true →
     VehicleControls.get_last_command "left_indicator" r.2
       = Some (command_record (VBool true) o1.2)
     ∧ VehicleControls.get_last_command "right_indicator" r.2
       = Some (command_record (VBool false) o2.2)).
Proof.
  apply (set_indicator_sends_both (0, false, F64.of_Z 1) (0, true, F64.of_Z 2)
           true false Sample.controls).
  reflexivity.
Defined.

(** * Keyboard shortcuts *)

Ltac option_cases :=
  repeat match goal with
    | |- context [mbind _ ?m] =>
        destruct m eqn:?; cbn [mbind option_bind]
    | |- context [if ?b then _ else _] => destruct b eqn:?
    end.

Lemma adjust_value_outcome (o : VehicleControls.oracle) (command : string)
    (delta : Z) (controls : VehicleControls.t) :
  KeyboardControls._adjust_value o command delta controls = None
  ∨ KeyboardControls._adjust_value o command delta controls = Some (false, controls)
  ∨ ∃ value,
      KeyboardControls._adjust_value o command delta controls
      = Some (VehicleControls.send_with o command value controls).
Proof.
  unfold KeyboardControls._adjust_value. option_cases; eauto.
Qed.

Lemma dispatch_outcome (o : VehicleControls.oracle) (command : string)
    (action : pyval) (controls : VehicleControls.t) :
  KeyboardControls.dispatch o command action controls = None
  ∨ KeyboardControls.dispatch o command action controls = Some (false, controls)
  ∨ ∃ value,
      KeyboardControls.dispatch o command action controls
      = Some (VehicleControls.send_with o command value controls).
Proof.
  unfold KeyboardControls.dispatch.
  destruct (Py.eq_str action "toggle").
  { option_cases; eauto. }
  destruct (Py.eq_str action "trigger"); [eauto|].
  destruct (Py.eq_str action "increase"); [apply adjust_value_outcome|].
  destruct (Py.eq_str action "decrease"); [apply adjust_value_outcome|].
  destruct (Py.is_int_or_float action); eauto.
Qed.

Lemma key_press_outcome (key_bindings : gmap string (string * pyval))
    (o : VehicleControls.oracle) (key : string) (controls : VehicleControls.t) :
  let r := KeyboardControls.handle_key_press key_bindings o key controls in
  r = (false, controls)
  ∨ ∃ command action value,
      key_bindings !! key = Some (command, action)
      ∧ r = VehicleControls.send_with o command value controls.
Proof.
  cbv zeta. unfold KeyboardControls.handle_key_press.
  destruct (key_bindings !! key) as [[command action]|]; [|by left].
  destruct (dispatch_outcome o command action controls)
    as [-> | [-> | [value ->]]]; [by left | by left |].
  right. by exists command, action, value.
Qed.

(** X14.  Whatever the bindings, a key press does at most one send, and
    only for the command the key is bound to: either it answers [False]
    and leaves the session as it was, or it is one [send_command] for the
    bound command; in particular at most one datagram is appended. *)
Theorem key_press_sends_at_most_once
    (key_bindings : gmap string (string * pyval))
    (o : VehicleControls.oracle) (key : string) (controls : VehicleControls.t) :
  let r := KeyboardControls.handle_key_press key_bindings o key controls in
  (r = (false, controls)
   ∨ ∃ command action value,
       key_bindings !! key = Some (command, action)
       ∧ r = VehicleControls.send_with o command value controls)
  ∧ (VehicleControls.sent r.2 = VehicleControls.sent controls
     ∨ ∃ packet,
         VehicleControls.sent r.2 = VehicleControls.sent controls ++ [packet]).
Proof.
  cbv zeta. split; [apply key_press_outcome|].
  destruct (key_press_outcome key_bindings o key controls)
    as [-> | (command & action & value & _ & ->)]; [by left|].
  unfold VehicleControls.send_with.
  destruct (send_command_outcome o.1.1 o.1.2 o.2 command value controls)
    as [-> | (_ & _ & _ & code & packet & _ & _ & _ & Hs & _)]; [by left|].
  right. by exists packet.
Qed.

(** X15.  A key that is not bound, and a key bound to an action that is
    none of ['toggle'], ['trigger'], ['increase'], ['decrease'] or a
    number, does nothing: the press answers [False], sends nothing and
    records nothing.  The action ['adjust'] of the default bindings of F3
    and F4 is such an action. *)
Theorem unhandled_key_does_nothing
    (key_bindings : gmap string (string * pyval))
    (o : VehicleControls.oracle) (key : string) (controls : VehicleControls.t) :
  key_bindings !! key = None
  ∨ (∃ command action,
       key_bindings !! key = Some (command, action)
       ∧ Py.is_int_or_float action = false
       ∧ Forall (λ handled, Py.eq_str action handled = false)
           ["toggle"; "trigger"; "increase"; "decrease"]) →
  KeyboardControls.handle_key_press key_bindings o key controls
    = (false, controls).
Proof.
  unfold KeyboardControls.handle_key_press.
  intros [-> | (command & action & -> & Hnum & Hstr)]; [done|].
  apply Forall_cons in Hstr as [H1 Hstr]. apply Forall_cons in Hstr as [H2 Hstr].
  apply Forall_cons in Hstr as [H3 Hstr]. apply Forall_cons in Hstr as [H4 _].
  unfold KeyboardControls.dispatch. by rewrite H1, H2, H3, H4, Hnum.
Qed.

Lemma unhandled_key_does_nothing_witness :
  KeyboardControls.handle_key_press KeyboardControls.load_key_bindings
    (0, true, F64.of_Z 9) "F3" Sample.controls = (false, Sample.controls).
Proof.
  apply (unhandled_key_does_nothing KeyboardControls.load_key_bindings
           (0, true, F64.of_Z 9) "F3" Sample.controls).
  right. exists "brake_bias", (VStr (str_lit "adjust")).
  split; [reflexivity|]. split; [reflexivity|].
  repeat constructor.
Defined.

Lemma send_with_bool (o : VehicleControls.oracle) (command : string) (code : Z)
    (b : bool) (s : VehicleControls.t) :
  VehicleControls._get_command_type command = Some code →
  VehicleControls.control_socket s = true →
  VehicleControls.send_with o command (VBool b) s =
    if o.1.2 then
      (true,
       {| VehicleControls.control_socket := true;
          VehicleControls.last_commands :=
            <[command := command_record (VBool b) o.2]>
              (VehicleControls.last_commands s);
          VehicleControls.sent :=
            VehicleControls.sent s
            ++ [Struct.le_bytes code ++ Struct.le_bytes 1
                ++ Struct.le_bytes (if b then 1 else 0)] |})
    else (false, s).
Proof.
  destruct o as [[nan ok] now]. intros Hcode Hs. cbn [fst snd].
  pose proof (get_command_type_code _ _ Hcode) as Hrange.
  assert (Hbuild : VehicleControls._build_command_packet nan code (VBool b)
            = Some (Struct.le_bytes code ++ Struct.le_bytes 1
                    ++ Struct.le_bytes (if b then 1 else 0))).
  { unfold VehicleControls._build_command_packet.
    rewrite (pack_I_small code) by lia. by destruct b. }
  destruct ok.
  - unfold VehicleControls.send_with. cbn [fst snd].
    exact (send_command_sent nan now command (VBool b) s code _ Hs Hcode Hbuild).
  - unfold VehicleControls.send_with, VehicleControls.send_command.
    cbn [fst snd]. rewrite Hs, Hcode, Hbuild. done.
Qed.

Lemma boolean_command_registered (command : string) :
  command ∈ KeyboardControls.boolean_commands →
  is_Some (VehicleControls._get_command_type command).
Proof.
  unfold KeyboardControls.boolean_commands. intros H.
  repeat (apply elem_of_cons in H as [-> | H]; [by eexists|]).
  by apply elem_of_nil in H.
Qed.

Lemma last_value_recorded (dflt value : pyval) (now : spec_float)
    (command : string) (controls : VehicleControls.t) :
  VehicleControls.get_last_command command controls
    = Some (command_record value now) →
  KeyboardControls.last_value dflt command controls = Some value.
Proof.
  intros Hrec. unfold KeyboardControls.last_value. rewrite Hrec.
  rewrite (truthy_lookup _ "value" value) by apply lookup_insert_eq.
  apply lookup_insert_eq.
Qed.

Lemma toggle_press (key_bindings : gmap string (string * pyval))
    (o : VehicleControls.oracle) (key command : string) (v0 : pyval)
    (controls : VehicleControls.t) :
  key_bindings !! key = Some (command, VStr (str_lit "toggle")) →
  command ∈ KeyboardControls.boolean_commands →
  VehicleControls.control_socket controls = true → o.1.2 = true →
  KeyboardControls.last_value (VBool false) command controls = Some v0 →
  ∃ controls' packet,
    KeyboardControls.handle_key_press key_bindings o key controls
      = (true, controls')
    ∧ VehicleControls.control_socket controls' = true
    ∧ KeyboardControls.last_value (VBool false) command controls'
      = Some (VBool (negb (Py.__bool__ v0)))
    ∧ VehicleControls.sent controls'
      = VehicleControls.sent controls ++ [packet].
Proof.
  intros Hkey Hcmd Hsock Hok Hlast.
  destruct (boolean_command_registered command Hcmd) as [code Hcode].
  unfold KeyboardControls.handle_key_press. rewrite Hkey.
  unfold KeyboardControls.dispatch.
  change (Py.eq_str (VStr (str_lit "toggle")) "toggle") with true.
  cbv beta iota. rewrite (bool_decide_eq_true_2 _ Hcmd), Hlast.
  cbn [mbind option_bind from_option].
  rewrite (send_with_bool o command code _ controls Hcode Hsock), Hok.
  eexists _, _. split; [reflexivity|]. split; [reflexivity|].
  split; [|reflexivity].
  apply (last_value_recorded _ _ o.2). unfold VehicleControls.get_last_command.
  apply lookup_insert_eq.
Qed.

(** X16.  Toggling a boolean command: over a set socket whose [sendto]
    returns, one press of a key bound to ['toggle'] records the negation of
    the truth value of what was recorded before ([False] when nothing was),
    and a second press records that truth value again; two datagrams are
    sent. *)
Theorem toggle_twice_restores
    (key_bindings : gmap string (string * pyval))
    (o1 o2 : VehicleControls.oracle) (key command : string) (v0 : pyval)
    (controls : VehicleControls.t) :
  key_bindings !! key = Some (command, VStr (str_lit "toggle")) →
  command ∈ KeyboardControls.boolean_commands →
  VehicleControls.control_socket controls = true →
  o1.1.2 = true → o2.1.2 = true →
  KeyboardControls.last_value (VBool false) command controls = Some v0 →
  let once :=
    (KeyboardControls.handle_key_press key_bindings o1 key controls).2 in
  let twice := (KeyboardControls.handle_key_press key_bindings o2 key once).2 in
  KeyboardControls.last_value (VBool false) command once
    = Some (VBool (negb (Py.__bool__ v0)))
  ∧ KeyboardControls.last_value (VBool false) command twice
    = Some (VBool (Py.__bool__ v0))
  ∧ length (VehicleControls.sent twice)
    = (length (VehicleControls.sent controls) + 2)%nat.
Proof.
  intros Hkey Hcmd Hsock Hok1 Hok2 Hlast. cbv zeta.
  destruct (toggle_press key_bindings o1 key command v0 controls
              Hkey Hcmd Hsock Hok1 Hlast)
    as (c1 & p1 & -> & Hsock1 & Hlast1 & Hsent1).
  cbn [snd].
  destruct (toggle_press key_bindings o2 key command _ c1
              Hkey Hcmd Hsock1 Hok2 Hlast1)
    as (c2 & p2 & -> & _ & Hlast2 & Hsent2).
  cbn [snd]. split; [exact Hlast1|]. split.
  - rewrite Hlast2. cbn [Py.__bool__]. by rewrite negb_involutive.
  - rewrite Hsent2, Hsent1, !length_app. cbn. lia.
Qed.

Lemma toggle_twice_restores_witness :
  let o : VehicleControls.oracle := (0, true, F64.of_Z 9) in
  let once :=
    (KeyboardControls.handle_key_press KeyboardControls.load_key_bindings o
       "F5" Sample.controls).2 in
  let twice :=
    (KeyboardControls.handle_key_press KeyboardControls.load_key_bindings o
       "F5" once).2 in
  KeyboardControls.last_value (VBool false) "headlights" once
    = Some (VBool (negb (Py.__bool__ (VBool false))))
  ∧ KeyboardControls.last_value (VBool false) "headlights" twice
    = Some (VBool (Py.__bool__ (VBool false)))
  ∧ length (VehicleControls.sent twice)
    = (length (VehicleControls.sent Sample.controls) + 2)%nat.
Proof.
  apply (toggle_twice_restores KeyboardControls.load_key_bindings
           (0, true, F64.of_Z 9) (0, true, F64.of_Z 9) "F5" "headlights"
           (VBool false) Sample.controls).
  - reflexivity.
  - unfold KeyboardControls.boolean_commands. apply elem_of_cons. by left.
  - reflexivity.
  - reflexivity.
  - reflexivity.
  - reflexivity.
Defined.

(** ** The levels under the default bindings *)

Lemma send_keeps_levels (o : VehicleControls.oracle) (command : string)
    (value : pyval) (controls : VehicleControls.t) :
  levels_in_range controls → level_value command value →
  levels_in_range (VehicleControls.send_with o command value controls).2.
Proof.
  intros [Htc Hbb] [Hvt Hvb]. unfold VehicleControls.send_with.
  destruct (send_command_outcome o.1.1 o.1.2 o.2 command value controls)
    as [-> | (_ & _ & _ & code & packet & _ & _ & _ & _ & Hl & _)]; [done|].
  unfold levels_in_range, VehicleControls.get_last_command. rewrite Hl.
  split; intros record.
  - destruct (decide (command = "tc_level")) as [Heq | Hne].
    + rewrite Heq, lookup_insert_eq. intros [= <-].
      destruct (Hvt Heq) as (v & -> & Hv). exists v. split; [|done].
      apply lookup_insert_eq.
    + rewrite lookup_insert_ne by done. apply Htc.
  - destruct (decide (command = "brake_bias")) as [Heq | Hne].
    + rewrite Heq, lookup_insert_eq. intros [= <-].
      destruct (Hvb Heq) as (x & -> & Hx). exists x. split; [|done].
      apply lookup_insert_eq.
    + rewrite lookup_insert_ne by done. apply Hbb.
Qed.

Lemma tc_level_current (controls : VehicleControls.t) (current : pyval) :
  levels_in_range controls →
  KeyboardControls.last_value (VInt 0) "tc_level" controls = Some current →
  ∃ v : Z, current = VInt v ∧ 0 ≤ v ≤ 10.
Proof.
  intros [Htc _]. unfold KeyboardControls.last_value.
  destruct (VehicleControls.get_last_command "tc_level" controls)
    as [record|]; [|intros [= <-]; by exists 0].
  destruct (Htc record eq_refl) as (v & Hv & Hrange).
  rewrite (truthy_lookup _ _ _ Hv), Hv. intros [= <-]. by exists v.
Qed.

Lemma brake_bias_current (controls : VehicleControls.t) (current : pyval) :
  levels_in_range controls →
  KeyboardControls.last_value (VInt 0) "brake_bias" controls = Some current →
  current = VInt 0 ∨ ∃ x : spec_float, current = VFloat x.
Proof.
  intros [_ Hbb]. unfold KeyboardControls.last_value.
  destruct (VehicleControls.get_last_command "brake_bias" controls)
    as [record|]; [|intros [= <-]; by left].
  destruct (Hbb record eq_refl) as (x & Hx & _).
  rewrite (truthy_lookup _ _ _ Hx), Hx. intros [= <-]. right. by exists x.
Qed.

Lemma adjust_tc_level (o : VehicleControls.oracle) (delta : Z)
    (controls : VehicleControls.t) :
  levels_in_range controls →
  KeyboardControls._adjust_value o "tc_level" delta controls = None
  ∨ ∃ value,
      level_value "tc_level" value
      ∧ KeyboardControls._adjust_value o "tc_level" delta controls
        = Some (VehicleControls.send_with o "tc_level" value controls).
Proof.
  intros Hinv. unfold KeyboardControls._adjust_value.
  destruct (KeyboardControls.last_value (VInt 0) "tc_level" controls)
    as [current|] eqn:Hcur; [|by left].
  destruct (tc_level_current controls current Hinv Hcur) as (v & -> & Hv).
  right. exists (VInt (Z.max 0 (Z.min 10 (v + delta)))). split.
  - split; [|done]. intros _. eexists. split; [done | lia].
  - cbn [mbind option_bind].
    change (bool_decide ("tc_level" = "tc_level")) with true. cbv beta iota.
    change (Py.__add__ (VInt v) (VInt delta)) with (Some (VInt (v + delta))).
    cbn [mbind option_bind]. by rewrite clamp_int by lia.
Qed.

Lemma adjust_brake_bias (o : VehicleControls.oracle) (delta : Z)
    (controls : VehicleControls.t) :
  levels_in_range controls → delta = 1 ∨ delta = -1 →
  KeyboardControls._adjust_value o "brake_bias" delta controls = None
  ∨ ∃ value,
      level_value "brake_bias" value
      ∧ KeyboardControls._adjust_value o "brake_bias" delta controls
        = Some (VehicleControls.send_with o "brake_bias" value controls).
Proof.
  intros Hinv Hdelta. unfold KeyboardControls._adjust_value.
  destruct (KeyboardControls.last_value (VInt 0) "brake_bias" controls)
    as [current|] eqn:Hcur; [|by left].
  cbn [mbind option_bind].
  change (bool_decide ("brake_bias" = "tc_level")) with false.
  change (bool_decide ("brake_bias" = "abs_level")) with false.
  change (bool_decide ("brake_bias" = "brake_bias")) with true.
  cbv beta iota.
  assert (Hstep : ∃ s, Py.__mul__ (VInt delta) (VFloat (F64.literal 5 1000))
                       = Some (VFloat s)).
  { destruct Hdelta as [-> | ->]; by eexists. }
  destruct Hstep as [s ->]. cbn [mbind option_bind].
  assert (Hmoved : ∃ y, Py.__add__ current (VFloat s) = Some (VFloat y)).
  { destruct (brake_bias_current controls current Hinv Hcur) as [-> | [x ->]];
      by eexists. }
  destruct Hmoved as [y ->]. cbn [mbind option_bind].
  destruct (clamp_float (F64.literal 4 10) (F64.literal 7 10) y)
    as (c & -> & Hlo & Hhi & _); [done..|].
  right. exists (VFloat c). split; [|done].
  split; [done|]. intros _. by exists c.
Qed.

Lemma toggle_tc_level (o : VehicleControls.oracle) (controls : VehicleControls.t) :
  KeyboardControls.dispatch o "tc_level" (VStr (str_lit "toggle")) controls = None
  ∨ ∃ value,
      level_value "tc_level" value
      ∧ KeyboardControls.dispatch o "tc_level" (VStr (str_lit "toggle")) controls
        = Some (VehicleControls.send_with o "tc_level" value controls).
Proof.
  change (KeyboardControls.dispatch o "tc_level" (VStr (str_lit "toggle")) controls)
    with (current_level ← KeyboardControls.last_value (VInt 0) "tc_level" controls;
          is_on ← Py.__lt__ (VInt 0) current_level;
          Some (VehicleControls.send_with o "tc_level"
                  (VInt (if is_on : bool then 0 else 1)) controls)).
  destruct (KeyboardControls.last_value (VInt 0) "tc_level" controls)
    as [current|]; [|by left]. cbn [mbind option_bind].
  destruct (Py.__lt__ (VInt 0) current) as [is_on|]; [|by left].
  right. eexists. split; [|reflexivity].
  split; [|done]. intros _. eexists. split; [done|]. by destruct is_on.
Qed.

Lemma level_value_other (command : string) (value : pyval) :
  command ≠ "tc_level" → command ≠ "brake_bias" → level_value command value.
Proof. by intros H1 H2; split. Qed.

Lemma level_value_digit (n : Z) : 0 ≤ n ≤ 10 → level_value "tc_level" (VInt n).
Proof. intros Hn. split; [|done]. intros _. by exists n. Qed.

(** Under the default bindings a press sends, if anything, a value that
    keeps the levels in range. *)
Lemma default_dispatch (o : VehicleControls.oracle) (key command : string)
    (action : pyval) (controls : VehicleControls.t) :
  levels_in_range controls →
  KeyboardControls.load_key_bindings !! key = Some (command, action) →
  KeyboardControls.dispatch o command action controls = None
  ∨ KeyboardControls.dispatch o command action controls = Some (false, controls)
  ∨ ∃ value,
      level_value command value
      ∧ KeyboardControls.dispatch o command action controls
        = Some (VehicleControls.send_with o command value controls).
Proof.
  intros Hinv Hkey. unfold KeyboardControls.load_key_bindings in Hkey.
  apply elem_of_list_to_map_2 in Hkey.
  assert (Hother : command ≠ "tc_level" → command ≠ "brake_bias" →
    KeyboardControls.dispatch o command action controls = None
    ∨ KeyboardControls.dispatch o command action controls = Some (false, controls)
    ∨ ∃ value,
        level_value command value
        ∧ KeyboardControls.dispatch o command action controls
          = Some (VehicleControls.send_with o command value controls)).
  { intros H1 H2.
    destruct (dispatch_outcome o command action controls)
      as [? | [? | [value ?]]]; [by left | by right; left |].
    right. right. exists value. split; [by apply level_value_other | done]. }
  assert (Hdigit : ∀ n, 0 ≤ n ≤ 10 →
    ∃ value,
      level_value "tc_level" value
      ∧ KeyboardControls.dispatch o "tc_level" (VInt n) controls
        = Some (VehicleControls.send_with o "tc_level" value controls)).
  { intros n Hn. exists (VInt n). split; [by apply level_value_digit | done]. }
  repeat (apply elem_of_cons in Hkey as [[= _ -> ->] | Hkey];
    [first
       [ apply Hother; discriminate
       | right; right; apply Hdigit; lia
       | destruct (toggle_tc_level o controls) as [? | ?];
           [by left | by right; right]
       | by right; left
       | destruct (adjust_tc_level o 1 controls Hinv) as [? | ?];
           [by left | by right; right]
       | destruct (adjust_tc_level o (-1) controls Hinv) as [? | ?];
           [by left | by right; right]
       | destruct (adjust_brake_bias o 1 controls Hinv (or_introl eq_refl))
           as [? | ?]; [by left | by right; right]
       | destruct (adjust_brake_bias o (-1) controls Hinv (or_intror eq_refl))
           as [? | ?]; [by left | by right; right] ]|]).
  by apply elem_of_nil in Hkey.
Qed.

Lemma default_press_keeps_levels (o : VehicleControls.oracle) (key : string)
    (controls : VehicleControls.t) :
  levels_in_range controls →
  levels_in_range
    (KeyboardControls.handle_key_press KeyboardControls.load_key_bindings
       o key controls).2.
Proof.
  intros Hinv. unfold KeyboardControls.handle_key_press.
  destruct (KeyboardControls.load_key_bindings !! key)
    as [[command action]|] eqn:Hkey; [|done].
  destruct (default_dispatch o key command action controls Hinv Hkey)
    as [-> | [-> | (value & Hvalue & ->)]]; [done | done |].
  cbn [from_option]. by apply send_keeps_levels.
Qed.

(** X17.  Under the default bindings no sequence of key presses takes the
    levels out of range: if every recorded traction-control level is an
    integer of 0 .. 10 and every recorded brake bias a float of 0.4 .. 0.7,
    as in a fresh session, then so it is after the presses, whichever keys
    are pressed and whichever sends fail. *)
Theorem default_keys_keep_levels_in_range
    (presses : list (string * VehicleControls.oracle))
    (controls : VehicleControls.t) :
  levels_in_range controls →
  levels_in_range
    (KeyboardControls.press_all KeyboardControls.load_key_bindings presses
       controls).
Proof.
  revert controls. induction presses as [|[key o] rest IH]; intros controls Hinv;
    [done|].
  cbn [KeyboardControls.press_all]. apply IH.
  by apply default_press_keeps_levels.
Qed.

Lemma default_keys_keep_levels_in_range_witness :
  levels_in_range
    (KeyboardControls.press_all KeyboardControls.load_key_bindings
       [("9", (0, true, F64.of_Z 1)); ("Right", (0, true, F64.of_Z 2));
        ("Right", (0, false, F64.of_Z 3)); ("Up", (0, true, F64.of_Z 4));
        ("F1", (0, true, F64.of_Z 5))]
       Sample.controls).
Proof.
  apply (default_keys_keep_levels_in_range
           [("9", (0, true, F64.of_Z 1)); ("Right", (0, true, F64.of_Z 2));
            ("Right", (0, false, F64.of_Z 3)); ("Up", (0, true, F64.of_Z 4));
            ("F1", (0, true, F64.of_Z 5))]
           Sample.controls).
  split; intros record Hrecord; vm_compute in Hrecord; discriminate Hrecord.
Defined.

(** ** After [cleanup] *)

Lemma send_without_socket (nan : Z) (sendto_ok : bool) (now : spec_float)
    (command : string) (value : pyval) (self : VehicleControls.t) :
  VehicleControls.control_socket self = false →
  VehicleControls.send_command nan sendto_ok now command value self = (false, self).
Proof.
  intros Hsock. unfold VehicleControls.send_command. by rewrite Hsock.
Qed.

(** X18.  [cleanup] closes the socket and keeps the history; it is
    idempotent, and after it nothing is sent any more: every
    [send_command], every [set_indicator] and every key press, under any
    bindings, answers [False] and leaves the session as it is. *)
Theorem nothing_is_sent_after_cleanup (self : VehicleControls.t) :
  let closed := VehicleControls.cleanup self in
  VehicleControls.cleanup closed = closed
  ∧ VehicleControls.last_commands closed = VehicleControls.last_commands self
  ∧ VehicleControls.sent closed = VehicleControls.sent self
  ∧ (∀ nan sendto_ok now command value,
       VehicleControls.send_command nan sendto_ok now command value closed
       = (false, closed))
  ∧ (∀ o1 o2 left right,
       VehicleControls.set_indicator o1 o2 left right closed = (false, closed))
  ∧ (∀ key_bindings o key,
       KeyboardControls.handle_key_press key_bindings o key closed
       = (false, closed)).
Proof.
  cbv zeta.
  assert (Hsock : VehicleControls.control_socket (VehicleControls.cleanup self)
                  = false).
  { unfold VehicleControls.cleanup.
    by destruct (VehicleControls.control_socket self) eqn:Hs. }
  set (closed := VehicleControls.cleanup self) in *.
  assert (Hsend : ∀ nan sendto_ok now command value,
            VehicleControls.send_command nan sendto_ok now command value closed
            = (false, closed))
    by (intros; by apply send_without_socket).
  split; [by unfold VehicleControls.cleanup; rewrite Hsock|].
  split; [subst closed; unfold VehicleControls.cleanup;
          by destruct (VehicleControls.control_socket self)|].
  split; [subst closed; unfold VehicleControls.cleanup;
          by destruct (VehicleControls.control_socket self)|].
  split; [exact Hsend|]. split.
  - intros o1 o2 left right.
    unfold VehicleControls.set_indicator, VehicleControls.send_with.
    by rewrite !Hsend.
  - intros key_bindings o key.
    destruct (key_press_outcome key_bindings o key closed)
      as [-> | (command & action & value & _ & ->)]; [done|].
    unfold VehicleControls.send_with. apply Hsend.
Qed.
